(** * Three pieces of NuttX, embedded and verified

    - net/sixlowpan/sixlowpan_framelist.c: the 6LoWPAN outbound frame
      assembly, [sixlowpan_compress_ipv6hdr] and [sixlowpan_queue_frames],
      and the properties of the frame list they build;
    - drivers/timers/ds3231.c: the BCD conversions of the DS3231 clock
      driver and [up_rtc_settime];
    - drivers/usbhost/usbhost_enumerate.c: the little-endian accessors and
      the descriptor and class-binding helpers of the USB host enumeration.

    Conventions.
    - C integers are [Z]; every assignment to a fixed-width unsigned object
      is written with its wrap-around ([to_uint8], [to_uint16], [to_size_t]).
    - A byte region (an IOB's [io_data], the caller's [buf], the header that
      [ipv6hdr] points to) is a map from offsets to byte values.
    - A store or a copy that leaves the object it addresses is undefined
      behaviour in C; the embedding stops with [Fault] there.
    - A loop is run with fuel; [OutOfFuel] stands for a loop that has not
      finished. *)

From Stdlib Require Import ZArith List Bool Lia.
Import ListNotations.
Local Open Scope Z_scope.

(** ** Machine integers *)

Definition to_uint8 (x : Z) : Z := x mod 2 ^ 8.
Definition to_uint16 (x : Z) : Z := x mod 2 ^ 16.

(** [size_t] of the 32-bit targets. *)
Definition to_size_t (x : Z) : Z := x mod 2 ^ 32.

(** ** Outcomes *)

Inductive result (A : Type) : Type :=
| Done (a : A)
| Fault
| OutOfFuel.

Arguments Done {A} a.
Arguments Fault {A}.
Arguments OutOfFuel {A}.

Definition bind {A B : Type} (r : result A) (k : A -> result B) : result B :=
  match r with
  | Done a => k a
  | Fault => Fault
  | OutOfFuel => OutOfFuel
  end.

Notation "x <- e ;; k" := (bind e (fun x => k))
  (at level 61, e at next level, right associativity).
Notation "' p <- e ;; k" := (bind e (fun p => k))
  (at level 61, p pattern, e at next level, right associativity).

(** ** Byte regions *)

Definition bytes := Z -> Z.

(** [p[i] = v] on a [uint8_t] array. *)
Definition poke (m : bytes) (i v : Z) : bytes :=
  fun j => if j =? i then to_uint8 v else m j.

(** The [n] bytes of [src] from [soff] on, laid over [dst] from [doff] on. *)
Definition blit (dst : bytes) (doff : Z) (src : bytes) (soff n : Z) : bytes :=
  fun j => if (doff <=? j) && (j <? doff + n) then src (soff + (j - doff)) else dst j.

Definition in_object (cap off n : Z) : bool :=
  (0 <=? off) && (0 <=? n) && (off + n <=? cap).

(** [dst[off] = v] where [dst] has [cap] bytes. *)
Definition store (cap : Z) (dst : bytes) (off v : Z) : result bytes :=
  if in_object cap off 1 then Done (poke dst off v) else Fault.

(** [memcpy(dst + doff, src + soff, n)]; [dcap] and [scap] are the sizes of
    the two objects.  [memmove] inside one buffer is the same map: the source
    bytes are read from the buffer as it was before the call. *)
Definition memcpy (dcap : Z) (dst : bytes) (doff : Z)
                  (scap : Z) (src : bytes) (soff : Z) (n : Z) : result bytes :=
  if in_object dcap doff n && in_object scap soff n
  then Done (blit dst doff src soff n)
  else Fault.

(** [memcpy] from a region whose extent the callee cannot know (the header
    behind [ipv6hdr]): only the destination is checked. *)
Definition memcpy_from (dcap : Z) (dst : bytes) (doff : Z)
                       (src : bytes) (soff : Z) (n : Z) : result bytes :=
  if in_object dcap doff n then Done (blit dst doff src soff n) else Fault.

(** Modelled from the spec: the PUTINT16 macro of sixlowpan_internal.h, a
    16-bit value stored big-endian at [ptr[index]], [ptr[index + 1]]. *)
Definition PUTINT16 (cap : Z) (dst : bytes) (ptr index value : Z) : result bytes :=
  d <- store cap dst (ptr + index) (Z.land (Z.shiftr (to_uint16 value) 8) 255) ;;
  store cap d (ptr + index + 1) (Z.land (to_uint16 value) 255).

(** The 16-bit big-endian word at [ptr + index]. *)
Definition GETINT16 (m : bytes) (ptr index : Z) : Z :=
  Z.lor (Z.shiftl (to_uint8 (m (ptr + index))) 8) (to_uint8 (m (ptr + index + 1))).

(** ** Constants *)

(** Modelled from the spec: the dispatch values and header lengths of
    sixlowpan_internal.h (dispatch byte 0x41 of length 1; FRAG1 dispatch
    0b11000 and FRAGN dispatch 0b11100 in the top five bits; fragment headers
    of 4 and 5 bytes; size word at 0, tag at 2, offset at 4; mask 0xf8). *)
Definition SIXLOWPAN_DISPATCH_IPV6 : Z := 0x41.
Definition SIXLOWPAN_IPV6_HDR_LEN : Z := 1.
Definition SIXLOWPAN_DISPATCH_FRAG1 : Z := 0xc0.
Definition SIXLOWPAN_DISPATCH_FRAGN : Z := 0xe0.
Definition SIXLOWPAN_DISPATCH_FRAG_MASK : Z := 0xf8.
Definition SIXLOWPAN_FRAG1_HDR_LEN : Z := 4.
Definition SIXLOWPAN_FRAGN_HDR_LEN : Z := 5.
Definition RIME_FRAG_DISPATCH_SIZE : Z := 0.
Definition RIME_FRAG_TAG : Z := 2.
Definition RIME_FRAG_OFFSET : Z := 4.

(** Modelled from the spec: the IPv6 header is 40 bytes, the UDP and ICMPv6
    headers 8 bytes ([sizeof(struct udp_hdr_s)], [sizeof(struct
    icmpv6_hdr_s)]). *)
Definition IPv6_HDRLEN : Z := 40.
Definition UDP_HDRLEN : Z := 8.
Definition ICMPv6_HDRLEN : Z := 8.

(** From nuttx/net/ip.h and nuttx/net/tcp.h: the IANA protocol numbers, the
    TCP flag bits, and the byte offsets of [proto] in [struct ipv6_hdr_s]
    and of [tcpoffset] and [flags] in [struct tcp_hdr_s] (fields in wire
    order, the TCP header right after the 40 bytes of IPv6 header). *)
Definition IP_PROTO_TCP : Z := 6.
Definition IP_PROTO_UDP : Z := 17.
Definition IP_PROTO_ICMP6 : Z := 58.
Definition TCP_FIN : Z := 0x01.
Definition TCP_ACK : Z := 0x10.
Definition TCP_CTL : Z := 0x3f.
Definition ipv6_proto_off : Z := 6.
Definition tcp_tcpoffset_off : Z := 12.
Definition tcp_flags_off : Z := 13.

(** errno.h. *)
Definition OK : Z := 0.
Definition E2BIG : Z := 7.

(** ** Data *)

Definition rimeaddr_s := list Z.

Inductive packetbuf_attr : Type :=
| PACKETBUF_ATTR_MAX_MAC_TRANSMISSIONS
| PACKETBUF_ATTR_PACKET_TYPE
| PACKETBUF_ATTR_MAC_SEQNO
| PACKETBUF_ATTR_OTHER (n : nat).

Inductive packetbuf_addr : Type :=
| PACKETBUF_ADDR_SENDER
| PACKETBUF_ADDR_RECEIVER
| PACKETBUF_ADDR_OTHER (n : nat).

Definition packetbuf_attr_eqb (a b : packetbuf_attr) : bool :=
  match a, b with
  | PACKETBUF_ATTR_MAX_MAC_TRANSMISSIONS, PACKETBUF_ATTR_MAX_MAC_TRANSMISSIONS => true
  | PACKETBUF_ATTR_PACKET_TYPE, PACKETBUF_ATTR_PACKET_TYPE => true
  | PACKETBUF_ATTR_MAC_SEQNO, PACKETBUF_ATTR_MAC_SEQNO => true
  | PACKETBUF_ATTR_OTHER n, PACKETBUF_ATTR_OTHER m => Nat.eqb n m
  | _, _ => false
  end.

Definition packetbuf_addr_eqb (a b : packetbuf_addr) : bool :=
  match a, b with
  | PACKETBUF_ADDR_SENDER, PACKETBUF_ADDR_SENDER => true
  | PACKETBUF_ADDR_RECEIVER, PACKETBUF_ADDR_RECEIVER => true
  | PACKETBUF_ADDR_OTHER n, PACKETBUF_ADDR_OTHER m => Nat.eqb n m
  | _, _ => false
  end.

(** The per-datagram scratch: the globals of sixlowpan_globals.c.  NuttX
    declares the two cursors [uint8_t] and the attributes [uint16_t]. *)
Record scratch : Type := mk_scratch {
  g_uncomp_hdrlen : Z;
  g_frame_hdrlen : Z;
  g_pktattrs : packetbuf_attr -> Z;
  g_pktaddrs : packetbuf_addr -> rimeaddr_s
}.

Definition set_uncomp_hdrlen (g : scratch) (v : Z) : scratch :=
  mk_scratch (to_uint8 v) (g_frame_hdrlen g) (g_pktattrs g) (g_pktaddrs g).

Definition set_frame_hdrlen (g : scratch) (v : Z) : scratch :=
  mk_scratch (g_uncomp_hdrlen g) (to_uint8 v) (g_pktattrs g) (g_pktaddrs g).

Definition set_pktattr (g : scratch) (a : packetbuf_attr) (v : Z) : scratch :=
  mk_scratch (g_uncomp_hdrlen g) (g_frame_hdrlen g)
    (fun b => if packetbuf_attr_eqb b a then to_uint16 v else g_pktattrs g b)
    (g_pktaddrs g).

Definition set_pktaddr (g : scratch) (a : packetbuf_addr) (v : rimeaddr_s) : scratch :=
  mk_scratch (g_uncomp_hdrlen g) (g_frame_hdrlen g) (g_pktattrs g)
    (fun b => if packetbuf_addr_eqb b a then v else g_pktaddrs g b).

(** [struct iob_s] with its three [uint16_t] lengths; [io_flink] is the list
    structure of the frame list. *)
Record iob_s : Type := mk_iob {
  io_len : Z;
  io_offset : Z;
  io_pktlen : Z;
  io_data : bytes
}.

Definition set_io_data (b : iob_s) (d : bytes) : iob_s :=
  mk_iob (io_len b) (io_offset b) (io_pktlen b) d.

Definition set_io_len (b : iob_s) (v : Z) : iob_s :=
  mk_iob (to_uint16 v) (io_offset b) (io_pktlen b) (io_data b).

Definition set_io_pktlen (b : iob_s) (v : Z) : iob_s :=
  mk_iob (io_len b) (io_offset b) (to_uint16 v) (io_data b).

(** The fields of [struct ieee802154_driver_s] that the queuer touches;
    [i_dgramtag] is a [uint16_t], [i_framelist] is the queue from its head
    ([[]] for NULL). *)
Record ieee802154_driver_s : Type := mk_ieee {
  d_mac : rimeaddr_s;
  i_panid : Z;
  i_dgramtag : Z;
  i_framelist : list iob_s
}.

Definition set_framelist (ieee : ieee802154_driver_s) (l : list iob_s) :=
  mk_ieee (d_mac ieee) (i_panid ieee) (i_dgramtag ieee) l.

Definition set_dgramtag (ieee : ieee802154_driver_s) (v : Z) :=
  mk_ieee (d_mac ieee) (i_panid ieee) (to_uint16 v) (i_framelist ieee).

(** What a call can change: the scratch, the interface, and the number of
    buffers taken from the IOB pool (nothing here gives one back). *)
Record netstate : Type := mk_net {
  net_scratch : scratch;
  net_ieee : ieee802154_driver_s;
  net_iobs : nat
}.

(** ** Build configuration and collaborators *)

Record config : Type := mk_config {
  CONFIG_NET_6LOWPAN_FRAMELEN : Z;
  CONFIG_IOB_BUFSIZE : Z;
  CONFIG_NET_6LOWPAN_FRAG : bool;
  CONFIG_NET_6LOWPAN_COMPRESSION_IPv6 : bool;
  CONFIG_NET_6LOWPAN_COMPRESSION_THRESHOLD : Z;
  CONFIG_NET_6LOWPAN_MAX_MACTRANSMITS : Z;
  CONFIG_NET_TCP : bool;
  CONFIG_NET_UDP : bool;
  CONFIG_NET_ICMPv6 : bool;
  (* constants of sixlowpan_internal.h that no property below depends on *)
  PACKETBUF_ATTR_PACKET_TYPE_STREAM : Z;
  PACKETBUF_ATTR_PACKET_TYPE_STREAM_END : Z;
  RIMEADDR_SIZE : nat
}.

(** The functions the queuer calls and that live in other files: the buffer
    pool ([iob_alloc n] is the content of the [n]-th buffer it hands out),
    the PAN id query ([None] when it fails and leaves [dest_panid] alone),
    the frame encoder and the HC1/HC06 compressor selected at build time.
    [sixlowpan_send_hdrlen] is a query; the encoder returns the buffer it
    was handed with the MAC header written and the number of bytes written;
    the compressor returns the scratch and the buffer.  None of them
    changes the interface. *)
Record collaborators : Type := mk_collab {
  iob_alloc : nat -> bytes;
  sixlowpan_src_panid : ieee802154_driver_s -> option Z;
  sixlowpan_send_hdrlen : scratch -> ieee802154_driver_s -> Z -> Z;
  sixlowpan_framecreate : scratch -> ieee802154_driver_s -> bytes -> Z -> bytes * Z;
  sixlowpan_compresshdr :
    ieee802154_driver_s -> bytes -> rimeaddr_s -> scratch -> bytes -> scratch * bytes
}.

(** ** The code *)

Section Framelist.

Variable cfg : config.
Variable ext : collaborators.

Local Abbreviation FRAMELEN := (CONFIG_NET_6LOWPAN_FRAMELEN cfg).
Local Abbreviation BUFSIZE := (CONFIG_IOB_BUFSIZE cfg).

(** The [switch (ipv6hdr->proto)] of [sixlowpan_compress_ipv6hdr]: the size
    of the protocol header that follows the IPv6 header, [None] for the
    [default:] label. *)
Definition protosize_of (ipv6hdr : bytes) : option Z :=
  let proto := to_uint8 (ipv6hdr ipv6_proto_off) in
  if CONFIG_NET_TCP cfg && (proto =? IP_PROTO_TCP) then
    let tcpoffset := to_uint8 (ipv6hdr (IPv6_HDRLEN + tcp_tcpoffset_off)) in
    Some (to_uint16 (Z.shiftl (Z.shiftr tcpoffset 4) 2))
  else if CONFIG_NET_UDP cfg && (proto =? IP_PROTO_UDP) then
    Some UDP_HDRLEN
  else if CONFIG_NET_ICMPv6 cfg && (proto =? IP_PROTO_ICMP6) then
    Some ICMPv6_HDRLEN
  else
    None.

(** [sixlowpan_compress_ipv6hdr(ipv6hdr, fptr)]: the scratch and the frame
    after the call. *)
Definition sixlowpan_compress_ipv6hdr (ipv6hdr : bytes) (g : scratch) (fptr : bytes)
  : result (scratch * bytes) :=
  (* fptr[g_frame_hdrlen] = SIXLOWPAN_DISPATCH_IPV6 *)
  fptr <- store BUFSIZE fptr (g_frame_hdrlen g) SIXLOWPAN_DISPATCH_IPV6 ;;
  let g := set_frame_hdrlen g (g_frame_hdrlen g + SIXLOWPAN_IPV6_HDR_LEN) in
  (* memcpy(&fptr[g_frame_hdrlen], ipv6hdr, IPv6_HDRLEN) *)
  fptr <- memcpy_from BUFSIZE fptr (g_frame_hdrlen g) ipv6hdr 0 IPv6_HDRLEN ;;
  let g := set_frame_hdrlen g (g_frame_hdrlen g + IPv6_HDRLEN) in
  let g := set_uncomp_hdrlen g (g_uncomp_hdrlen g + IPv6_HDRLEN) in
  match protosize_of ipv6hdr with
  | None => Done (g, fptr)
  | Some protosize =>
      (* memcpy(fptr + g_frame_hdrlen, ipv6hdr + g_uncomp_hdrlen, protosize),
         the source counted in bytes *)
      fptr <- memcpy_from BUFSIZE fptr (g_frame_hdrlen g)
                ipv6hdr (g_uncomp_hdrlen g) protosize ;;
      let g := set_frame_hdrlen g (g_frame_hdrlen g + protosize) in
      let g := set_uncomp_hdrlen g (g_uncomp_hdrlen g + protosize) in
      Done (g, fptr)
  end.

(** [iob_alloc(false)] followed by the initialisation of the buffer. *)
Definition new_iob (st : netstate) : iob_s * netstate :=
  (mk_iob 0 0 0 (iob_alloc ext (net_iobs st)),
   mk_net (net_scratch st) (net_ieee st) (S (net_iobs st))).

(** Lines 229-256: the scratch is reset and the packet type is derived from
    the TCP flags. *)
Definition reset_scratch (destip : bytes) : scratch :=
  let g := mk_scratch 0 0 (fun _ => 0) (fun _ => repeat 0 (RIMEADDR_SIZE cfg)) in
  let g := set_pktattr g PACKETBUF_ATTR_MAX_MAC_TRANSMISSIONS
             (CONFIG_NET_6LOWPAN_MAX_MACTRANSMITS cfg) in
  if to_uint8 (destip ipv6_proto_off) =? IP_PROTO_TCP then
    let flags := to_uint8 (destip (IPv6_HDRLEN + tcp_flags_off)) in
    if (Z.land flags TCP_FIN =? 0) && negb (Z.land flags TCP_CTL =? TCP_ACK) then
      set_pktattr g PACKETBUF_ATTR_PACKET_TYPE (PACKETBUF_ATTR_PACKET_TYPE_STREAM cfg)
    else if Z.land flags TCP_FIN =? TCP_FIN then
      set_pktattr g PACKETBUF_ATTR_PACKET_TYPE (PACKETBUF_ATTR_PACKET_TYPE_STREAM_END cfg)
    else g
  else g.

(** Lines 258-298: broadcast substitution, first buffer, addresses, PAN id.
    Returns the first buffer, the destination address and [dest_panid]. *)
Definition queue_setup (st : netstate) (destip : bytes) (destmac : option rimeaddr_s)
  : iob_s * rimeaddr_s * Z * netstate :=
  let g := reset_scratch destip in
  let destmac :=
    match destmac with
    | None => repeat 0 (RIMEADDR_SIZE cfg)
    | Some a => a
    end in
  let '(iob, st) := new_iob (mk_net g (net_ieee st) (net_iobs st)) in
  let g := set_pktaddr g PACKETBUF_ADDR_SENDER (d_mac (net_ieee st)) in
  let g := set_pktaddr g PACKETBUF_ADDR_RECEIVER destmac in
  let dest_panid :=
    match sixlowpan_src_panid ext (net_ieee st) with
    | Some panid => to_uint16 panid
    | None => 0xffff
    end in
  (iob, destmac, dest_panid, mk_net g (net_ieee st) (net_iobs st)).

(** Lines 313-332: the choice between the configured compressor and the
    IPv6 dispatch. *)
Definition queue_compress (ieee : ieee802154_driver_s) (destip : bytes) (buflen : Z)
    (destmac : rimeaddr_s) (g : scratch) (fptr : bytes) : result (scratch * bytes) :=
  if negb (CONFIG_NET_6LOWPAN_COMPRESSION_IPv6 cfg)
     && (CONFIG_NET_6LOWPAN_COMPRESSION_THRESHOLD cfg <=? buflen)
  then Done (sixlowpan_compresshdr ext ieee destip destmac g fptr)
  else sixlowpan_compress_ipv6hdr destip g fptr.

(** The test of line 338: [buflen], a [size_t], against an [int]. *)
Definition needs_fragmentation (buflen : Z) (g : scratch) : bool :=
  to_size_t (FRAMELEN - g_frame_hdrlen g) <? buflen.

(** Lines 365-428: the first fragment.  Returns the state with the frame
    installed, [pktlen], [outlen], [frame1] and [frag1_hdrlen]. *)
Definition queue_frag1 (st : netstate) (iob : iob_s) (framer_hdrlen dest_panid : Z)
    (buf : bytes) (buflen : Z) : result (netstate * Z * Z * bytes * Z) :=
  let g := net_scratch st in
  let ieee := net_ieee st in
  let '(fptr, verify) := sixlowpan_framecreate ext g ieee (io_data iob) dest_panid in
  let fragptr := framer_hdrlen in
  (* memmove(fragptr + SIXLOWPAN_FRAG1_HDR_LEN, fragptr,
             g_frame_hdrlen - framer_hdrlen) *)
  fptr <- memcpy BUFSIZE fptr (fragptr + SIXLOWPAN_FRAG1_HDR_LEN) BUFSIZE fptr fragptr
            (to_size_t (g_frame_hdrlen g - framer_hdrlen)) ;;
  let pktlen := to_uint16 (buflen + g_uncomp_hdrlen g) in
  fptr <- PUTINT16 BUFSIZE fptr fragptr RIME_FRAG_DISPATCH_SIZE
            (Z.lor (Z.shiftl SIXLOWPAN_DISPATCH_FRAG1 8) pktlen) ;;
  fptr <- PUTINT16 BUFSIZE fptr fragptr RIME_FRAG_TAG (i_dgramtag ieee) ;;
  let g := set_frame_hdrlen g (g_frame_hdrlen g + SIXLOWPAN_FRAG1_HDR_LEN) in
  let paysize := to_uint16 (Z.land (FRAMELEN - g_frame_hdrlen g) (Z.lnot 7)) in
  fptr <- memcpy BUFSIZE fptr (g_frame_hdrlen g) buflen buf 0 paysize ;;
  let iob := set_io_len (set_io_data iob fptr) (paysize + g_frame_hdrlen g) in
  let outlen := paysize in
  let iob := set_io_pktlen iob (io_len iob) in
  let ieee := set_framelist ieee [iob] in
  Done (mk_net g ieee (net_iobs st), pktlen, outlen, io_data iob, g_frame_hdrlen g).

(** [ieee->i_framelist->io_pktlen += len]. *)
Definition add_head_pktlen (l : list iob_s) (len : Z) : list iob_s :=
  match l with
  | [] => []
  | head :: rest => set_io_pktlen head (io_pktlen head + len) :: rest
  end.

(** Lines 432-511: one pass through the body of the FRAGN loop. *)
Definition queue_fragn (st : netstate) (framer_hdrlen pktlen outlen : Z)
    (frame1 : bytes) (frag1_hdrlen : Z) (buf : bytes) (buflen : Z)
  : result (netstate * Z) :=
  let '(iob, st) := new_iob st in
  let g := set_pktattr (net_scratch st) PACKETBUF_ATTR_MAC_SEQNO 0 in
  let ieee := net_ieee st in
  let '(fptr, verify) :=
    sixlowpan_framecreate ext g ieee (io_data iob) (i_panid ieee) in
  let fragptr := framer_hdrlen in
  (* memcpy(fragptr + SIXLOWPAN_FRAGN_HDR_LEN,
            frame1 + framer_hdrlen + SIXLOWPAN_FRAG1_HDR_LEN,
            frag1_hdrlen - framer_hdrlen) *)
  fptr <- memcpy BUFSIZE fptr (fragptr + SIXLOWPAN_FRAGN_HDR_LEN)
            BUFSIZE frame1 (framer_hdrlen + SIXLOWPAN_FRAG1_HDR_LEN)
            (to_size_t (frag1_hdrlen - framer_hdrlen)) ;;
  let fragn_hdrlen := to_uint16 (frag1_hdrlen - SIXLOWPAN_FRAG1_HDR_LEN) in
  fptr <- PUTINT16 BUFSIZE fptr fragptr RIME_FRAG_DISPATCH_SIZE
            (Z.lor (Z.shiftl SIXLOWPAN_DISPATCH_FRAGN 8) pktlen) ;;
  fptr <- PUTINT16 BUFSIZE fptr fragptr RIME_FRAG_TAG (i_dgramtag ieee) ;;
  fptr <- store BUFSIZE fptr (fragptr + RIME_FRAG_OFFSET) (Z.shiftr outlen 3) ;;
  let fragn_hdrlen := to_uint16 (fragn_hdrlen + SIXLOWPAN_FRAGN_HDR_LEN) in
  let paysize :=
    to_uint16 (Z.land (FRAMELEN - fragn_hdrlen) SIXLOWPAN_DISPATCH_FRAG_MASK) in
  let paysize :=
    if to_size_t (buflen - outlen) <? paysize
    then to_uint16 (to_size_t (buflen - outlen))
    else paysize in
  fptr <- memcpy BUFSIZE fptr fragn_hdrlen buflen buf outlen paysize ;;
  let iob := set_io_len (set_io_data iob fptr) (paysize + fragn_hdrlen) in
  let outlen := to_uint16 (outlen + paysize) in
  let frames := add_head_pktlen (i_framelist ieee ++ [iob]) (io_len iob) in
  Done (mk_net g (set_framelist ieee frames) (net_iobs st), outlen).

(** [while (outlen < buflen) { ... }]; returns the state and [outlen] at
    the exit. *)
Fixpoint queue_fragn_loop (fuel : nat) (st : netstate)
    (framer_hdrlen pktlen outlen : Z) (frame1 : bytes) (frag1_hdrlen : Z)
    (buf : bytes) (buflen : Z) : result (netstate * Z) :=
  if outlen <? buflen then
    match fuel with
    | O => OutOfFuel
    | S fuel' =>
        '(st, outlen) <- queue_fragn st framer_hdrlen pktlen outlen
                           frame1 frag1_hdrlen buf buflen ;;
        queue_fragn_loop fuel' st framer_hdrlen pktlen outlen
          frame1 frag1_hdrlen buf buflen
    end
  else Done (st, outlen).

(** Lines 340-516: the fragmented path; the datagram tag is bumped after the
    loop.  Returns the final state and the final [outlen]. *)
Definition queue_fragments (fuel : nat) (st : netstate) (iob : iob_s)
    (framer_hdrlen dest_panid : Z) (buf : bytes) (buflen : Z)
  : result (netstate * Z) :=
  '(st, pktlen, outlen, frame1, frag1_hdrlen) <-
     queue_frag1 st iob framer_hdrlen dest_panid buf buflen ;;
  '(st, outlen) <- queue_fragn_loop fuel st framer_hdrlen pktlen outlen
                     frame1 frag1_hdrlen buf buflen ;;
  let ieee := net_ieee st in
  Done (mk_net (net_scratch st) (set_dgramtag ieee (i_dgramtag ieee + 1))
          (net_iobs st), outlen).

(** Lines 527-554: the datagram fits in one frame. *)
Definition queue_single (st : netstate) (iob : iob_s) (dest_panid : Z)
    (buf : bytes) (buflen : Z) : result netstate :=
  let g := net_scratch st in
  let ieee := net_ieee st in
  let '(fptr, verify) := sixlowpan_framecreate ext g ieee (io_data iob) dest_panid in
  fptr <- memcpy BUFSIZE fptr (g_frame_hdrlen g) buflen buf 0 buflen ;;
  let iob := set_io_len (set_io_data iob fptr) (buflen + g_frame_hdrlen g) in
  let iob := set_io_pktlen iob (io_len iob) in
  Done (mk_net g (set_framelist ieee [iob]) (net_iobs st)).

(** Lines 229-332: everything up to the fragmentation test.  [inl] is the
    early return of line 308 with the value of [sixlowpan_send_hdrlen];
    [inr] carries the first buffer, [dest_panid], [framer_hdrlen] and the
    state with the scratch as the compression step leaves it. *)
Definition queue_headers (st : netstate) (destip : bytes) (buflen : Z)
    (destmac : option rimeaddr_s)
  : result (Z * netstate + iob_s * Z * Z * netstate) :=
  let '(iob, destmac, dest_panid, st) := queue_setup st destip destmac in
  let framer_hdrlen :=
    sixlowpan_send_hdrlen ext (net_scratch st) (net_ieee st) dest_panid in
  if framer_hdrlen <? 0 then Done (inl (framer_hdrlen, st))
  else
    let g := set_frame_hdrlen (net_scratch st) framer_hdrlen in
    '(g, fptr) <- queue_compress (net_ieee st) destip buflen destmac g (io_data iob) ;;
    Done (inr (set_io_data iob fptr, dest_panid, framer_hdrlen,
               mk_net g (net_ieee st) (net_iobs st))).

(** [sixlowpan_queue_frames(ieee, destip, buf, buflen, destmac)]: the value
    returned and the state left behind.  [DEBUGASSERT] is compiled out. *)
Definition sixlowpan_queue_frames (fuel : nat) (st : netstate) (destip : bytes)
    (buf : bytes) (buflen : Z) (destmac : option rimeaddr_s)
  : result (Z * netstate) :=
  r <- queue_headers st destip buflen destmac ;;
  match r with
  | inl (err, st) => Done (err, st)
  | inr (iob, dest_panid, framer_hdrlen, st) =>
      if needs_fragmentation buflen (net_scratch st) then
        if CONFIG_NET_6LOWPAN_FRAG cfg then
          '(st, _) <- queue_fragments fuel st iob framer_hdrlen dest_panid buf buflen ;;
          Done (OK, st)
        else Done (- E2BIG, st)
      else
        st <- queue_single st iob dest_panid buf buflen ;;
        Done (OK, st)
  end.

End Framelist.

(** ** Reading a frame back *)

(** The fragment header sits right after the MAC header, at [mac]. *)
Definition frag_word (mac : Z) (f : iob_s) : Z :=
  GETINT16 (io_data f) mac RIME_FRAG_DISPATCH_SIZE.


(** The 11-bit datagram size. *)
Definition frag_size (mac : Z) (f : iob_s) : Z :=
  Z.land (frag_word mac f) 0x7ff.

Definition frag_tag (mac : Z) (f : iob_s) : Z :=
  GETINT16 (io_data f) mac RIME_FRAG_TAG.

Definition frag_offset (mac : Z) (f : iob_s) : Z :=
  to_uint8 (io_data f (mac + RIME_FRAG_OFFSET)).

(** Payload bytes of a FRAG1 and of a FRAGN frame whose compressed headers
    end at [hdr] (the frame header length before any fragment header). *)
Definition frag1_payload (hdr : Z) (f : iob_s) : Z :=
  io_len f - (hdr + SIXLOWPAN_FRAG1_HDR_LEN).

Definition fragn_payload (hdr : Z) (f : iob_s) : Z :=
  io_len f - (hdr + SIXLOWPAN_FRAGN_HDR_LEN).

Definition sumZ (l : list Z) : Z := fold_right Z.add 0 l.

(** ** A concrete link

    The spec's end-to-end setting: frames of 127 bytes, IOBs of 196 bytes,
    IPv6 dispatch only, an encoder whose MAC header is [mac] bytes long. *)

Definition scenario_cfg : config :=
  {| CONFIG_NET_6LOWPAN_FRAMELEN := 127;
     CONFIG_IOB_BUFSIZE := 196;
     CONFIG_NET_6LOWPAN_FRAG := true;
     CONFIG_NET_6LOWPAN_COMPRESSION_IPv6 := true;
     CONFIG_NET_6LOWPAN_COMPRESSION_THRESHOLD := 63;
     CONFIG_NET_6LOWPAN_MAX_MACTRANSMITS := 4;
     CONFIG_NET_TCP := true;
     CONFIG_NET_UDP := true;
     CONFIG_NET_ICMPv6 := true;
     PACKETBUF_ATTR_PACKET_TYPE_STREAM := 2;
     PACKETBUF_ATTR_PACKET_TYPE_STREAM_END := 3;
     RIMEADDR_SIZE := 8 |}.

(** The same link with fragmentation compiled out. *)
Definition scenario_nofrag_cfg : config :=
  {| CONFIG_NET_6LOWPAN_FRAMELEN := 127;
     CONFIG_IOB_BUFSIZE := 196;
     CONFIG_NET_6LOWPAN_FRAG := false;
     CONFIG_NET_6LOWPAN_COMPRESSION_IPv6 := true;
     CONFIG_NET_6LOWPAN_COMPRESSION_THRESHOLD := 63;
     CONFIG_NET_6LOWPAN_MAX_MACTRANSMITS := 4;
     CONFIG_NET_TCP := true;
     CONFIG_NET_UDP := true;
     CONFIG_NET_ICMPv6 := true;
     PACKETBUF_ATTR_PACKET_TYPE_STREAM := 2;
     PACKETBUF_ATTR_PACKET_TYPE_STREAM_END := 3;
     RIMEADDR_SIZE := 8 |}.

(** Zero-filled buffers; the PAN id query answers the interface's own id;
    the header-size query answers [mac] (a negative [mac] is a failure);
    the encoder writes [mac] header bytes at offset 0; no compressor. *)
Definition scenario_ext (mac : Z) : collaborators :=
  {| iob_alloc := fun _ _ => 0;
     sixlowpan_src_panid := fun ieee => Some (i_panid ieee);
     sixlowpan_send_hdrlen := fun _ _ _ => mac;
     sixlowpan_framecreate := fun _ _ d _ => (blit d 0 (fun _ => 0x61) 0 mac, mac);
     sixlowpan_compresshdr := fun _ _ _ g d => (g, d) |}.

(** IPv6 headers that differ in the fields the queuer reads: [proto] at
    byte 6 and, for TCP, [tcpoffset] at byte 52. *)
Definition udp_datagram_hdr : bytes := fun i => if i =? 6 then 17 else 0.

Definition tcp_datagram_hdr (tcpoffset : Z) : bytes :=
  fun i => if i =? 6 then 6 else if i =? 52 then tcpoffset else 0.

Definition proto99_datagram_hdr : bytes := fun i => if i =? 6 then 99 else 0.

Definition scenario_payload : bytes := fun i => i mod 256.

(** An interface with datagram tag 7 and an empty frame list. *)
Definition scenario_state : netstate :=
  {| net_scratch := mk_scratch 0 0 (fun _ => 0) (fun _ => []);
     net_ieee := mk_ieee (repeat 0 8) 0x1234 7 [];
     net_iobs := 0 |}.

(** The value returned and the frame lengths of a finished call. *)
Definition outcome_lengths (r : result (Z * netstate)) : option (Z * list Z) :=
  match r with
  | Done (rc, st) => Some (rc, map io_len (i_framelist (net_ieee st)))
  | _ => None
  end.

(** The offset byte of the [k]-th frame of a finished call next to the
    payload bytes the frames before it carry, divided by 8. *)
Definition outcome_offset (mac hdr : Z) (k : nat) (r : result (Z * netstate))
  : option (Z * Z) :=
  match r with
  | Done (_, st) =>
      let frames := i_framelist (net_ieee st) in
      let pays :=
        match frames with
        | [] => []
        | f1 :: fs => frag1_payload hdr f1 :: map (fragn_payload hdr) fs
        end in
      match nth_error frames k with
      | Some f => Some (frag_offset mac f, sumZ (firstn k pays) / 8)
      | None => None
      end
  | _ => None
  end.

(** A whole UDP datagram as one region: IPv6 header, UDP header, payload. *)
Definition udp_datagram_bytes : bytes :=
  fun i => if i <? 48 then udp_datagram_hdr i else scenario_payload (i - 48).

(** * The DS3231 real-time clock (drivers/timers/ds3231.c) *)

(** errno.h. *)
Definition EINVAL : Z := 22.

(** The value of an [int] expression: signed overflow is undefined. *)
Definition to_int (x : Z) : result Z :=
  if (- 2 ^ 31 <=? x) && (x <? 2 ^ 31) then Done x else Fault.

(** [time_t] is an unsigned 32-bit integer (sys/types.h). *)
Definition to_time_t (x : Z) : Z := x mod 2 ^ 32.

Definition DS3231_I2C_ADDRESS : Z := 0x68.

(** ** BCD conversion *)

(** The loop of [rtc_bin2bcd], [while (value >= 10) { msbcd++; value -= 10; }]
    with [msbcd] a [uint8_t] and [value] an [int]; [msbcd] and [value] at
    the exit. *)
Fixpoint rtc_bin2bcd_loop (fuel : nat) (msbcd value : Z) : result (Z * Z) :=
  if 10 <=? value then
    match fuel with
    | O => OutOfFuel
    | S fuel' => rtc_bin2bcd_loop fuel' (to_uint8 (msbcd + 1)) (value - 10)
    end
  else Done (msbcd, value).

(** [rtc_bin2bcd(value)]: [(msbcd << 4) | value], returned as a
    [uint8_t]. *)
Definition rtc_bin2bcd (fuel : nat) (value : Z) : result Z :=
  '(msbcd, value) <- rtc_bin2bcd_loop fuel 0 value ;;
  Done (to_uint8 (Z.lor (Z.shiftl msbcd 4) value)).

(** [rtc_bcd2bin(value)], [value] a [uint8_t]. *)
Definition rtc_bcd2bin (value : Z) : Z :=
  let value := to_uint8 value in
  let tens := Z.shiftr value 4 * 10 in
  tens + Z.land value 0x0f.

(** ** Setting the time *)

(** The fields of [struct tm] and of [struct timespec] that the driver
    reads. *)
Record tm : Type := mk_tm {
  tm_sec : Z;
  tm_min : Z;
  tm_hour : Z;
  tm_mday : Z;
  tm_mon : Z;
  tm_year : Z;
  tm_wday : Z
}.

Record timespec : Type := mk_timespec {
  tv_sec : Z;
  tv_nsec : Z
}.

(** [struct i2c_msg_s]: [addr], [flags], the bytes behind [buffer], and
    [length]. *)
Record i2c_msg_s : Type := mk_i2c_msg {
  i2c_addr : Z;
  i2c_flags : Z;
  i2c_buffer : list Z;
  i2c_length : Z
}.

(** What the driver does on the bus, in order. *)
Inductive i2c_call : Type :=
| I2C_SETFREQUENCY (frequency : Z)
| I2C_TRANSFER (msgs : list i2c_msg_s).

(** The build options, and the register definitions of ds3231.h that
    [up_rtc_settime] uses: the address of the seconds register, the 24-hour
    flag of the hours register and the two century flags of the month
    register. *)
Record rtc_config : Type := mk_rtc_config {
  CONFIG_LIBC_LOCALTIME : bool;
  CONFIG_TIME_EXTENDED : bool;
  CONFIG_DS3231_I2C_FREQUENCY : Z;
  DS3231_TIME_SECR : Z;
  DS3231_TIME_24 : Z;
  DS3231_TIME_1900 : Z;
  DS3231_TIME_2000 : Z
}.

(** The C library's conversions to broken-down time ([None] for a NULL
    result) and the value the I2C transfer returns. *)
Record rtc_collaborators : Type := mk_rtc_collab {
  localtime_r : Z -> option tm;
  gmtime_r : Z -> option tm;
  i2c_transfer : list i2c_msg_s -> Z
}.

Section Ds3231.

Variable cfg : rtc_config.
Variable ext : rtc_collaborators.

(** Lines 374-394: the time to set, rounded to the nearest second, as
    broken-down time. *)
Definition settime_newtm (tp : timespec) : option tm :=
  let newtime := to_time_t (tv_sec tp) in
  let newtime :=
    if 500000000 <=? tv_nsec tp then to_time_t (newtime + 1) else newtime in
  if CONFIG_LIBC_LOCALTIME cfg then localtime_r ext newtime
  else gmtime_r ext newtime.

(** [up_rtc_settime(tp)]: the value returned and the calls made on the
    bus.  [CONFIG_DEBUG_RTC] is off ([rtc_dumptime] expands to nothing). *)
Definition up_rtc_settime (fuel : nat) (tp : timespec)
  : result (Z * list i2c_call) :=
  match settime_newtm tp with
  | None => Done (- EINVAL, [])
  | Some newtm =>
      sec <- rtc_bin2bcd fuel (tm_sec newtm) ;;
      min <- rtc_bin2bcd fuel (tm_min newtm) ;;
      hour <- rtc_bin2bcd fuel (tm_hour newtm) ;;
      wday <-
        (if CONFIG_LIBC_LOCALTIME cfg || CONFIG_TIME_EXTENDED cfg
         then (d <- to_int (tm_wday newtm + 1) ;; rtc_bin2bcd fuel d)
         else Done 1) ;;
      mday <- rtc_bin2bcd fuel (tm_mday newtm) ;;
      '(century, year) <-
        (if tm_year newtm <? 100
         then Done (to_uint8 (DS3231_TIME_1900 cfg), to_uint8 (tm_year newtm))
         else (y <- to_int (tm_year newtm - 100) ;;
               Done (to_uint8 (DS3231_TIME_2000 cfg), to_uint8 y))) ;;
      m <- to_int (tm_mon newtm + 1) ;;
      mon <- rtc_bin2bcd fuel m ;;
      let buffer :=
        [ to_uint8 (DS3231_TIME_SECR cfg);
          sec;
          min;
          to_uint8 (Z.lor hour (DS3231_TIME_24 cfg));
          wday;
          mday;
          to_uint8 (Z.lor mon century);
          year ] in
      let msg := mk_i2c_msg DS3231_I2C_ADDRESS 0 buffer 8 in
      let ret := i2c_transfer ext [msg] in
      Done (ret, [I2C_SETFREQUENCY (CONFIG_DS3231_I2C_FREQUENCY cfg);
                  I2C_TRANSFER [msg]])
  end.

End Ds3231.

(** A clock for the examples: UTC build, the conversion answers the same
    broken-down time whatever the seconds, the bus accepts everything, and
    the register flags are those of the DS3231 data sheet. *)
Definition rtc_scenario_cfg : rtc_config :=
  {| CONFIG_LIBC_LOCALTIME := false;
     CONFIG_TIME_EXTENDED := true;
     CONFIG_DS3231_I2C_FREQUENCY := 400000;
     DS3231_TIME_SECR := 0x00;
     DS3231_TIME_24 := 0x00;
     DS3231_TIME_1900 := 0x00;
     DS3231_TIME_2000 := 0x80 |}.

Definition rtc_scenario_ext (t : option tm) : rtc_collaborators :=
  {| localtime_r := fun _ => t;
     gmtime_r := fun _ => t;
     i2c_transfer := fun _ => 0 |}.

(** 23:59:58 on Saturday 31 December 2016. *)
Definition rtc_scenario_tm : tm :=
  {| tm_sec := 58; tm_min := 59; tm_hour := 23; tm_mday := 31;
     tm_mon := 11; tm_year := 116; tm_wday := 6 |}.

(** * USB host enumeration (drivers/usbhost/usbhost_enumerate.c) *)

(** errno.h. *)
Definition ENOENT : Z := 2.
Definition ENOMEM : Z := 12.

(** ** Little-endian 16-bit values *)

(** [usbhost_getle16(val)]; [val] points at two bytes. *)
Definition usbhost_getle16 (val : bytes) : Z :=
  to_uint16 (Z.lor (Z.shiftl (to_uint8 (val 1)) 8) (to_uint8 (val 0))).

(** [usbhost_putle16(dest, val)], [val] a [uint16_t]: the bytes behind
    [dest] after the call. *)
Definition usbhost_putle16 (dest : bytes) (val : Z) : bytes :=
  let val := to_uint16 val in
  let dest := poke dest 0 (Z.land val 0xff) in
  poke dest 1 (Z.shiftr val 8).

(** ** The ID information *)

(** [struct usbhost_id_s] (nuttx/usb/usbhost.h): three [uint8_t] and two
    [uint16_t]. *)
Record usbhost_id_s : Type := mk_usbhost_id {
  id_base : Z;
  id_subclass : Z;
  id_proto : Z;
  id_vid : Z;
  id_pid : Z
}.

(** The fields of [struct usb_devdesc_s] (nuttx/usb/usb.h) that
    [usbhost_devdesc] reads; [vendor] and [product] are two bytes each. *)
Record usb_devdesc_s : Type := mk_usb_devdesc {
  dev_class : Z;
  dev_subclass : Z;
  dev_protocol : Z;
  dev_vendor : bytes;
  dev_product : bytes
}.

(** [usbhost_devdesc(devdesc, desclen, id)]: the value returned and [*id]
    after the call. *)
Definition usbhost_devdesc (devdesc : usb_devdesc_s) (desclen : Z)
  : Z * usbhost_id_s :=
  (* memset(id, 0, sizeof(struct usbhost_id_s)) *)
  let id := mk_usbhost_id 0 0 0 0 0 in
  let id :=
    if 7 <=? desclen then
      let id := mk_usbhost_id (to_uint8 (dev_class devdesc))
                  (to_uint8 (dev_subclass devdesc))
                  (to_uint8 (dev_protocol devdesc))
                  (id_vid id) (id_pid id) in
      if 12 <=? desclen then
        mk_usbhost_id (id_base id) (id_subclass id) (id_proto id)
          (usbhost_getle16 (dev_vendor devdesc))
          (usbhost_getle16 (dev_product devdesc))
      else id
    else id in
  (OK, id).

(** ** Walking the configuration descriptor *)

(** nuttx/usb/usb.h: the descriptor types, [sizeof(struct usb_desc_s)], and
    the offsets of [len] and [type] in every descriptor and of [totallen] in
    [struct usb_cfgdesc_s]. *)
Definition USB_DESC_TYPE_CONFIG : Z := 0x02.
Definition USB_DESC_TYPE_INTERFACE : Z := 0x04.
Definition sizeof_usb_desc_s : Z := 2.
Definition desc_len_off : Z := 0.
Definition desc_type_off : Z := 1.
Definition cfgdesc_totallen_off : Z := 2.

(** The [while] loop of [usbhost_configdesc], [configdesc] being [pos]
    bytes into the buffer; [remaining], an [int], is compared as a
    [size_t].  Line 197 has cleared the first bytes of the parameter [id]
    itself, so the stores of lines 212-214 go through a pointer that is no
    longer the caller's: the embedding stops there. *)
Fixpoint usbhost_configdesc_loop (fuel : nat) (configdesc : bytes)
    (pos remaining : Z) : result Z :=
  if sizeof_usb_desc_s <=? to_size_t remaining then
    match fuel with
    | O => OutOfFuel
    | S fuel' =>
        if to_uint8 (configdesc (pos + desc_type_off)) =? USB_DESC_TYPE_INTERFACE
        then Fault
        else
          let len := to_uint8 (configdesc (pos + desc_len_off)) in
          remaining <- to_int (remaining - len) ;;
          usbhost_configdesc_loop fuel' configdesc (pos + len) remaining
    end
  else Done (- ENOENT).

(** [usbhost_configdesc(configdesc, desclen, id)]: the value returned.
    [DEBUGASSERT] is compiled out, and [desclen] is not used otherwise. *)
Definition usbhost_configdesc (fuel : nat) (configdesc : bytes) (desclen : Z)
  : result Z :=
  if negb (to_uint8 (configdesc desc_type_off) =? USB_DESC_TYPE_CONFIG)
  then Done (- EINVAL)
  else
    let remaining :=
      usbhost_getle16 (fun i => configdesc (cfgdesc_totallen_off + i)) in
    let len := to_uint8 (configdesc desc_len_off) in
    remaining <- to_int (remaining - len) ;;
    usbhost_configdesc_loop fuel configdesc len remaining.

(** Descriptors of types other than INTERFACE laid end to end from [pos]
    on, [remaining] bytes in all: [n] of them, each at least one byte long
    and none longer than what remains, until fewer than two bytes are
    left. *)
Inductive plain_descriptors (configdesc : bytes) : Z -> Z -> nat -> Prop :=
| plain_end (pos remaining : Z) :
    0 <= remaining < sizeof_usb_desc_s ->
    plain_descriptors configdesc pos remaining 0
| plain_next (pos remaining : Z) (n : nat) :
    sizeof_usb_desc_s <= remaining < 2 ^ 31 ->
    to_uint8 (configdesc (pos + desc_type_off)) <> USB_DESC_TYPE_INTERFACE ->
    0 < to_uint8 (configdesc (pos + desc_len_off)) <= remaining ->
    plain_descriptors configdesc
      (pos + to_uint8 (configdesc (pos + desc_len_off)))
      (remaining - to_uint8 (configdesc (pos + desc_len_off))) n ->
    plain_descriptors configdesc pos remaining (S n).

(** ** Binding a class *)

Section Classbind.

(** Registry entries and class instances, and what is done with them:
    [usbhost_findclass], and the [CLASS_CREATE], [CLASS_CONNECT] and
    [CLASS_DISCONNECTED] methods ([None] for a NULL result). *)
Variable registry : Type.
Variable class_inst : Type.

Record usbhost_classes : Type := mk_usbhost_classes {
  usbhost_findclass : usbhost_id_s -> option registry;
  CLASS_CREATE : registry -> usbhost_id_s -> option class_inst;
  CLASS_CONNECT : class_inst -> bytes -> Z -> Z
}.

Inductive class_call : Type :=
| created (c : class_inst)
| connected (c : class_inst)
| disconnected (c : class_inst).

Variable ext : usbhost_classes.

(** [usbhost_classbind(drvr, configdesc, desclen, id, class)]: the value
    returned, [*class] after the call, and the calls made on class
    instances. *)
Definition usbhost_classbind (configdesc : bytes) (desclen : Z)
    (id : usbhost_id_s) (class : option class_inst)
  : Z * option class_inst * list class_call :=
  match usbhost_findclass ext id with
  | None => (- EINVAL, class, [])
  | Some reg =>
      match CLASS_CREATE ext reg id with
      | None => (- ENOMEM, class, [])
      | Some devclass =>
          let ret := CLASS_CONNECT ext devclass configdesc desclen in
          if negb (ret =? OK)
          then (ret, class, [created devclass; connected devclass;
                             disconnected devclass])
          else (ret, Some devclass, [created devclass; connected devclass])
      end
  end.

End Classbind.

Arguments usbhost_classbind {registry class_inst} ext configdesc desclen id class.
Arguments created {class_inst} c.
Arguments connected {class_inst} c.
Arguments disconnected {class_inst} c.

(** Descriptors for the examples: a 9-byte configuration descriptor that
    announces [total] bytes, followed by a descriptor of type [ty] and
    length [len] repeated to the end of the buffer. *)
Definition usb_scenario_config (total ty len : Z) : bytes :=
  fun i =>
    if i =? 0 then 9
    else if i =? 1 then USB_DESC_TYPE_CONFIG
    else if i =? 2 then Z.land total 0xff
    else if i =? 3 then Z.shiftr total 8
    else if i <? 9 then 0
    else if (i - 9) mod (Z.max len 1) =? 0 then len
    else if (i - 9) mod (Z.max len 1) =? 1 then ty
    else 0.

(** A registry that knows class 8 only, creates an instance for it, and
    whose instances accept a connection exactly when [desclen] is
    positive. *)
Definition usb_scenario_classes : usbhost_classes unit Z :=
  {| usbhost_findclass := fun id => if id_base id =? 8 then Some tt else None;
     CLASS_CREATE := fun _ id => Some (id_subclass id);
     CLASS_CONNECT := fun _ _ desclen => if 0 <? desclen then OK else - EINVAL |}.

(** ** What the properties talk about *)

Section Properties.

Variable cfg : config.
Variable ext : collaborators.

Local Abbreviation FRAMELEN := (CONFIG_NET_6LOWPAN_FRAMELEN cfg).
Local Abbreviation BUFSIZE := (CONFIG_IOB_BUFSIZE cfg).

(** The frame and the scratch that [sixlowpan_compress_ipv6hdr] leaves when
    the cursors do not wrap and the headers fit the buffer. *)
Definition dispatch_frame (ipv6hdr : bytes) (g : scratch) (fptr : bytes) : bytes :=
  let f := blit (poke fptr (g_frame_hdrlen g) SIXLOWPAN_DISPATCH_IPV6)
             (g_frame_hdrlen g + 1) ipv6hdr 0 IPv6_HDRLEN in
  match protosize_of cfg ipv6hdr with
  | None => f
  | Some protosize =>
      blit f (g_frame_hdrlen g + 1 + IPv6_HDRLEN) ipv6hdr
        (g_uncomp_hdrlen g + IPv6_HDRLEN) protosize
  end.

Definition dispatch_protosize (ipv6hdr : bytes) : Z :=
  match protosize_of cfg ipv6hdr with Some p => p | None => 0 end.

Definition dispatch_scratch (ipv6hdr : bytes) (g : scratch) : scratch :=
  mk_scratch (g_uncomp_hdrlen g + IPv6_HDRLEN + dispatch_protosize ipv6hdr)
    (g_frame_hdrlen g + 1 + IPv6_HDRLEN + dispatch_protosize ipv6hdr)
    (g_pktattrs g) (g_pktaddrs g).

(** [fragn_hdrlen] and [paysize] as the loop body computes them from
    [frag1_hdrlen] and [outlen]. *)
Definition fragn_hdrlen_of (f1h : Z) : Z :=
  to_uint16 (to_uint16 (f1h - SIXLOWPAN_FRAG1_HDR_LEN) + SIXLOWPAN_FRAGN_HDR_LEN).

Definition fragn_quantum (f1h : Z) : Z :=
  to_uint16 (Z.land (FRAMELEN - fragn_hdrlen_of f1h) SIXLOWPAN_DISPATCH_FRAG_MASK).

Definition fragn_paysize (f1h buflen outlen : Z) : Z :=
  if to_size_t (buflen - outlen) <? fragn_quantum f1h
  then to_uint16 (to_size_t (buflen - outlen))
  else fragn_quantum f1h.

(** The facts about one FRAGN frame built when [outlen] was [o]. *)
Definition fragn_frame_ok (mac pktlen tag f1h : Z) (buf : bytes) (buflen : Z)
    (o : Z) (f : iob_s) : Prop :=
  let fh := fragn_hdrlen_of f1h in
  let p := fragn_paysize f1h buflen o in
  io_len f = to_uint16 (p + fh) /\
  (0 <= mac /\ mac + 5 <= BUFSIZE) /\
  (0 <= o /\ 0 <= p /\ o + p <= buflen /\ fh + p <= BUFSIZE) /\
  (mac + 5 <= fh ->
   frag_word mac f =
     to_uint16 (Z.lor (Z.shiftl SIXLOWPAN_DISPATCH_FRAGN 8) pktlen) /\
   frag_tag mac f = to_uint16 tag /\
   frag_offset mac f = to_uint8 (Z.shiftr o 3)) /\
  (forall i, 0 <= i < p -> io_data f (fh + i) = buf (o + i)).

(** The frames a completed FRAGN loop has appended, from the value of
    [outlen] at its entry to the value at its exit. *)
Inductive fragn_run (mac pktlen tag f1h : Z) (buf : bytes) (buflen : Z)
  : Z -> list iob_s -> Z -> Prop :=
| run_exit (o : Z) :
    ~ o < buflen -> fragn_run mac pktlen tag f1h buf buflen o [] o
| run_pass (o : Z) (f : iob_s) (fs : list iob_s) (o' : Z) :
    o < buflen ->
    fragn_frame_ok mac pktlen tag f1h buf buflen o f ->
    fragn_run mac pktlen tag f1h buf buflen
      (to_uint16 (o + fragn_paysize f1h buflen o)) fs o' ->
    fragn_run mac pktlen tag f1h buf buflen o (f :: fs) o'.

(** [frag1_hdrlen], [pktlen] and the first [outlen] in terms of the scratch
    at the fragmentation test. *)
Definition frag1_hdrlen_of (g : scratch) : Z :=
  to_uint8 (g_frame_hdrlen g + SIXLOWPAN_FRAG1_HDR_LEN).

Definition pktlen_of (g : scratch) (buflen : Z) : Z :=
  to_uint16 (buflen + g_uncomp_hdrlen g).

Definition frag1_paysize (g : scratch) : Z :=
  to_uint16 (Z.land (FRAMELEN - frag1_hdrlen_of g) (Z.lnot 7)).

(** The facts about the FRAG1 frame. *)
Definition frag1_frame_ok (mac : Z) (g : scratch) (tag : Z) (buf : bytes)
    (buflen : Z) (f1 : iob_s) : Prop :=
  let f1h := frag1_hdrlen_of g in
  let p := frag1_paysize g in
  io_len f1 = to_uint16 (p + f1h) /\
  (0 <= mac /\ mac + 4 <= BUFSIZE) /\
  (p <= buflen /\ f1h + p <= BUFSIZE) /\
  (mac + 4 <= f1h ->
   frag_word mac f1 =
     to_uint16 (Z.lor (Z.shiftl SIXLOWPAN_DISPATCH_FRAG1 8) (pktlen_of g buflen)) /\
   frag_tag mac f1 = to_uint16 tag) /\
  (forall i, 0 <= i < p -> io_data f1 (f1h + i) = buf i).

(** The value [sixlowpan_send_hdrlen] returns in this call. *)
Definition framer_hdrlen_query (st : netstate) (destip : bytes)
    (destmac : option rimeaddr_s) : Z :=
  let '(_, _, dest_panid, st1) := queue_setup cfg ext st destip destmac in
  sixlowpan_send_hdrlen ext (net_scratch st1) (net_ieee st1) dest_panid.

(** The MAC header length, the frame header length and the uncompressed
    header length when the compression step is over. *)
Definition headers_of (st : netstate) (destip : bytes) (buflen : Z)
    (destmac : option rimeaddr_s) : option (Z * Z * Z) :=
  match queue_headers cfg ext st destip buflen destmac with
  | Done (inr (_, _, mac, st1)) =>
      Some (mac, g_frame_hdrlen (net_scratch st1), g_uncomp_hdrlen (net_scratch st1))
  | _ => None
  end.

(** Whether the call takes the branch of line 338. *)
Definition send_fragments (st : netstate) (destip : bytes) (buflen : Z)
    (destmac : option rimeaddr_s) : bool :=
  match queue_headers cfg ext st destip buflen destmac with
  | Done (inr (_, _, _, st1)) => needs_fragmentation cfg buflen (net_scratch st1)
  | _ => false
  end.

(** Payload lengths of the frames of a fragmented datagram, FRAG1 first. *)
Definition frame_payloads (hdr : Z) (frames : list iob_s) : list Z :=
  match frames with
  | [] => []
  | f1 :: fs => frag1_payload hdr f1 :: map (fragn_payload hdr) fs
  end.

(** The condition of lines 313-332 under which the headers go out
    uncompressed. *)
Definition ipv6_dispatch_selected (buflen : Z) : Prop :=
  CONFIG_NET_6LOWPAN_COMPRESSION_IPv6 cfg = true \/
  buflen < CONFIG_NET_6LOWPAN_COMPRESSION_THRESHOLD cfg.

(** * Properties *)

(** ** Machine-integer facts *)

Lemma to_uint8_small (x : Z) : 0 <= x <= 255 -> to_uint8 x = x.
Proof. intros H. unfold to_uint8. apply Z.mod_small. lia. Qed.

Lemma to_uint16_small (x : Z) : 0 <= x <= 65535 -> to_uint16 x = x.
Proof. intros H. unfold to_uint16. apply Z.mod_small. lia. Qed.

Lemma to_size_t_small (x : Z) : 0 <= x < 2 ^ 32 -> to_size_t x = x.
Proof. intros H. unfold to_size_t. apply Z.mod_small. lia. Qed.

Lemma to_uint8_range (x : Z) : 0 <= to_uint8 x <= 255.
Proof. unfold to_uint8. pose proof (Z.mod_pos_bound x (2 ^ 8)). lia. Qed.

Lemma to_uint16_range (x : Z) : 0 <= to_uint16 x <= 65535.
Proof. unfold to_uint16. pose proof (Z.mod_pos_bound x (2 ^ 16)). lia. Qed.

Lemma to_size_t_range (x : Z) : 0 <= to_size_t x < 2 ^ 32.
Proof. unfold to_size_t. apply Z.mod_pos_bound. lia. Qed.

Lemma to_uint16_le (x : Z) : 0 <= x -> to_uint16 x <= x.
Proof. intros H. unfold to_uint16. apply Z.mod_le; lia. Qed.

Lemma to_uint8_le (x : Z) : 0 <= x -> to_uint8 x <= x.
Proof. intros H. unfold to_uint8. apply Z.mod_le; lia. Qed.

Lemma to_size_t_le (x : Z) : 0 <= x -> to_size_t x <= x.
Proof. intros H. unfold to_size_t. apply Z.mod_le; lia. Qed.

(** [x & ~7] clears the three low bits. *)
Lemma land_lnot7 (x : Z) : Z.land x (Z.lnot 7) = x - x mod 8.
Proof.
  rewrite <- Z.ldiff_land.
  change 7 with (Z.ones 3).
  rewrite Z.ldiff_ones_r by lia.
  rewrite Z.shiftr_div_pow2, Z.shiftl_mul_pow2 by lia.
  change (2 ^ 3) with 8.
  pose proof (Z.div_mod x 8). lia.
Qed.

Lemma mod256_mod8 (x : Z) : (x mod 256) mod 8 = x mod 8.
Proof. apply Z.mod_mod_divide. exists 32. reflexivity. Qed.

(** [x & 0xf8] keeps bits 3..7. *)
Lemma land_f8 (x : Z) : Z.land x 0xf8 = x mod 256 - x mod 8.
Proof.
  change 0xf8 with (Z.land (Z.ones 8) (Z.lnot 7)).
  rewrite Z.land_assoc, Z.land_ones by lia.
  rewrite land_lnot7.
  change (2 ^ 8) with 256.
  rewrite mod256_mod8. reflexivity.
Qed.

Lemma land_lnot7_bounds (x : Z) :
  x - 7 <= Z.land x (Z.lnot 7) <= x /\ Z.land x (Z.lnot 7) mod 8 = 0.
Proof.
  rewrite land_lnot7.
  pose proof (Z.mod_pos_bound x 8).
  split; [lia|].
  rewrite (Z.div_mod x 8) at 1 by lia.
  replace (8 * (x / 8) + x mod 8 - x mod 8) with ((x / 8) * 8) by lia.
  apply Z.mod_mul. lia.
Qed.

Lemma land_f8_bounds (x : Z) :
  0 <= Z.land x 0xf8 <= 248 /\ Z.land x 0xf8 mod 8 = 0 /\
  (0 <= x -> Z.land x 0xf8 <= x).
Proof.
  rewrite land_f8.
  pose proof (Z.mod_pos_bound x 8).
  pose proof (Z.mod_pos_bound x 256).
  pose proof (mod256_mod8 x) as M.
  pose proof (Z.div_mod (x mod 256) 8 ltac:(lia)) as E.
  rewrite M in E.
  assert (D : 0 <= x mod 256 / 8 < 32).
  { split; [apply Z.div_pos; lia|].
    apply Z.div_lt_upper_bound; lia. }
  repeat split; try lia.
  - replace (x mod 256 - x mod 8) with ((x mod 256 / 8) * 8) by lia.
    apply Z.mod_mul. lia.
  - intros Hx. pose proof (Z.mod_le x 256). lia.
Qed.

(** ** Byte-region facts *)

Lemma in_object_true (cap off n : Z) :
  in_object cap off n = true <-> 0 <= off /\ 0 <= n /\ off + n <= cap.
Proof. unfold in_object. rewrite !andb_true_iff, !Z.leb_le. tauto. Qed.

Lemma store_inv (cap : Z) (d : bytes) (off v : Z) (d' : bytes) :
  store cap d off v = Done d' -> 0 <= off < cap /\ d' = poke d off v.
Proof.
  unfold store. destruct (in_object cap off 1) eqn:E; [|discriminate].
  apply in_object_true in E. intros [= <-]. split; [lia|reflexivity].
Qed.

Lemma store_ok (cap : Z) (d : bytes) (off v : Z) :
  0 <= off < cap -> store cap d off v = Done (poke d off v).
Proof.
  intros H. unfold store.
  replace (in_object cap off 1) with true; [reflexivity|].
  symmetry. apply in_object_true. lia.
Qed.

Lemma memcpy_inv (dcap : Z) (d : bytes) (doff scap : Z) (s : bytes) (soff n : Z)
    (d' : bytes) :
  memcpy dcap d doff scap s soff n = Done d' ->
  (0 <= doff /\ 0 <= n /\ doff + n <= dcap) /\
  (0 <= soff /\ soff + n <= scap) /\
  d' = blit d doff s soff n.
Proof.
  unfold memcpy.
  destruct (in_object dcap doff n) eqn:E1; [|discriminate].
  destruct (in_object scap soff n) eqn:E2; [|discriminate].
  apply in_object_true in E1. apply in_object_true in E2.
  intros [= <-]. repeat split; lia.
Qed.

Lemma memcpy_ok (dcap : Z) (d : bytes) (doff scap : Z) (s : bytes) (soff n : Z) :
  0 <= doff -> 0 <= n -> doff + n <= dcap -> 0 <= soff -> soff + n <= scap ->
  memcpy dcap d doff scap s soff n = Done (blit d doff s soff n).
Proof.
  intros. unfold memcpy.
  replace (in_object dcap doff n) with true
    by (symmetry; apply in_object_true; lia).
  replace (in_object scap soff n) with true
    by (symmetry; apply in_object_true; lia).
  reflexivity.
Qed.

Lemma memcpy_from_inv (dcap : Z) (d : bytes) (doff : Z) (s : bytes) (soff n : Z)
    (d' : bytes) :
  memcpy_from dcap d doff s soff n = Done d' ->
  (0 <= doff /\ 0 <= n /\ doff + n <= dcap) /\ d' = blit d doff s soff n.
Proof.
  unfold memcpy_from.
  destruct (in_object dcap doff n) eqn:E1; [|discriminate].
  apply in_object_true in E1. intros [= <-]. split; [lia|reflexivity].
Qed.

Lemma memcpy_from_ok (dcap : Z) (d : bytes) (doff : Z) (s : bytes) (soff n : Z) :
  0 <= doff -> 0 <= n -> doff + n <= dcap ->
  memcpy_from dcap d doff s soff n = Done (blit d doff s soff n).
Proof.
  intros. unfold memcpy_from.
  replace (in_object dcap doff n) with true
    by (symmetry; apply in_object_true; lia).
  reflexivity.
Qed.

Lemma poke_eq (d : bytes) (i v : Z) : poke d i v i = to_uint8 v.
Proof. unfold poke. rewrite Z.eqb_refl. reflexivity. Qed.

Lemma poke_neq (d : bytes) (i v j : Z) : j <> i -> poke d i v j = d j.
Proof. intros H. unfold poke. apply Z.eqb_neq in H. rewrite H. reflexivity. Qed.

Lemma blit_in (d : bytes) (doff : Z) (s : bytes) (soff n j : Z) :
  doff <= j < doff + n -> blit d doff s soff n j = s (soff + (j - doff)).
Proof.
  intros H. unfold blit.
  replace (doff <=? j) with true by (symmetry; apply Z.leb_le; lia).
  replace (j <? doff + n) with true by (symmetry; apply Z.ltb_lt; lia).
  reflexivity.
Qed.

Lemma blit_out (d : bytes) (doff : Z) (s : bytes) (soff n j : Z) :
  j < doff \/ doff + n <= j -> blit d doff s soff n j = d j.
Proof.
  intros H. unfold blit.
  destruct (Z.leb_spec doff j); [|reflexivity].
  destruct (Z.ltb_spec j (doff + n)); [lia|reflexivity].
Qed.

(** A 16-bit value is the join of its two bytes. *)
Lemma join_split16 (v : Z) :
  0 <= v <= 65535 ->
  Z.lor (Z.shiftl (Z.land (Z.shiftr v 8) 255) 8) (Z.land v 255) = v.
Proof.
  intros Hv.
  assert (Hm : v = v mod 2 ^ 16) by (symmetry; apply Z.mod_small; lia).
  apply Z.bits_inj'. intros n Hn.
  rewrite Z.lor_spec, Z.land_spec.
  change 255 with (Z.ones 8).
  destruct (Z.lt_ge_cases n 8) as [L|G].
  - rewrite Z.shiftl_spec_low by lia.
    rewrite Z.ones_spec_low by lia.
    rewrite andb_true_r. reflexivity.
  - rewrite Z.shiftl_spec by lia.
    rewrite Z.land_spec, Z.shiftr_spec by lia.
    rewrite (Z.ones_spec_high 8 n) by lia.
    rewrite andb_false_r, orb_false_r.
    replace (n - 8 + 8) with n by lia.
    destruct (Z.lt_ge_cases n 16) as [L|G'].
    + rewrite Z.ones_spec_low by lia. apply andb_true_r.
    + rewrite Z.ones_spec_high by lia. rewrite andb_false_r.
      rewrite Hm. symmetry. apply Z.mod_pow2_bits_high. lia.
Qed.

Lemma land255_range (x : Z) : 0 <= Z.land x 255 <= 255.
Proof.
  change 255 with (Z.ones 8) at 1 2. rewrite Z.land_ones by lia.
  pose proof (Z.mod_pos_bound x (2 ^ 8)). lia.
Qed.

Lemma PUTINT16_inv (cap : Z) (d : bytes) (p i v : Z) (d' : bytes) :
  PUTINT16 cap d p i v = Done d' ->
  (0 <= p + i /\ p + i + 2 <= cap) /\
  GETINT16 d' p i = to_uint16 v /\
  (forall j, j < p + i \/ p + i + 2 <= j -> d' j = d j).
Proof.
  unfold PUTINT16. intros H.
  destruct (store cap d (p + i) _) as [d1| |] eqn:E1; simpl in H; try discriminate.
  apply store_inv in E1. destruct E1 as [B1 ->].
  apply store_inv in H. destruct H as [B2 ->].
  split; [lia|]. split.
  - unfold GETINT16.
    rewrite poke_eq, poke_neq, poke_eq by lia.
    repeat rewrite (to_uint8_small (Z.land _ 255)) by apply land255_range.
    apply join_split16. apply to_uint16_range.
  - intros j Hj. rewrite !poke_neq by lia. reflexivity.
Qed.

Lemma PUTINT16_ok (cap : Z) (d : bytes) (p i v : Z) :
  0 <= p + i -> p + i + 2 <= cap ->
  exists d', PUTINT16 cap d p i v = Done d'.
Proof.
  intros H1 H2. unfold PUTINT16.
  rewrite store_ok by lia. simpl.
  rewrite store_ok by lia. eexists. reflexivity.
Qed.

Lemma GETINT16_ext (d d' : bytes) (p i : Z) :
  (forall j, p + i <= j < p + i + 2 -> d' j = d j) ->
  GETINT16 d' p i = GETINT16 d p i.
Proof. intros H. unfold GETINT16. rewrite !H by lia. reflexivity. Qed.

(** Both fragment dispatches leave the low 11 bits of the size word to the
    datagram size. *)
Lemma frag_word_size (dispatch pktlen : Z) :
  dispatch = SIXLOWPAN_DISPATCH_FRAG1 \/ dispatch = SIXLOWPAN_DISPATCH_FRAGN ->
  0 <= pktlen <= 65535 ->
  Z.land (to_uint16 (Z.lor (Z.shiftl dispatch 8) pktlen)) 0x7ff =
  Z.land pktlen 0x7ff.
Proof.
  intros Hd Hp.
  unfold to_uint16. rewrite <- Z.land_ones by lia.
  rewrite <- Z.land_assoc.
  change (Z.land (Z.ones 16) 0x7ff) with 0x7ff.
  rewrite Z.land_lor_distr_l.
  destruct Hd as [-> | ->]; reflexivity.
Qed.

(** ** The IPv6 dispatch writer *)

Lemma tcp_protosize_range (t : Z) :
  0 <= t <= 255 -> 0 <= Z.shiftl (Z.shiftr t 4) 2 <= 60.
Proof.
  intros H.
  rewrite Z.shiftr_div_pow2, Z.shiftl_mul_pow2 by lia.
  change (2 ^ 4) with 16. change (2 ^ 2) with 4.
  assert (0 <= t / 16 < 16).
  { split; [apply Z.div_pos; lia|apply Z.div_lt_upper_bound; lia]. }
  lia.
Qed.

Lemma protosize_of_range (ipv6hdr : bytes) (protosize : Z) :
  protosize_of cfg ipv6hdr = Some protosize -> 0 <= protosize <= 60.
Proof.
  unfold protosize_of. cbv zeta.
  destruct (CONFIG_NET_TCP cfg && _).
  - intros E.
    pose proof (tcp_protosize_range _
                  (to_uint8_range (ipv6hdr (IPv6_HDRLEN + tcp_tcpoffset_off)))).
    assert (E' : to_uint16 (Z.shiftl (Z.shiftr
                   (to_uint8 (ipv6hdr (IPv6_HDRLEN + tcp_tcpoffset_off))) 4) 2)
                 = protosize) by congruence.
    rewrite <- E'. rewrite to_uint16_small by lia. lia.
  - destruct (CONFIG_NET_UDP cfg && _); [intros [= <-]; unfold UDP_HDRLEN; lia|].
    destruct (CONFIG_NET_ICMPv6 cfg && _); [|discriminate].
    intros [= <-]. unfold ICMPv6_HDRLEN. lia.
Qed.

Lemma dispatch_protosize_range (ipv6hdr : bytes) :
  0 <= dispatch_protosize ipv6hdr <= 60.
Proof.
  unfold dispatch_protosize.
  destruct (protosize_of cfg ipv6hdr) eqn:E; [|lia].
  eapply protosize_of_range; eauto.
Qed.

Lemma compress_ipv6hdr_run (ipv6hdr : bytes) (g : scratch) (fptr : bytes) :
  let protosize := dispatch_protosize ipv6hdr in
  0 <= g_frame_hdrlen g ->
  g_frame_hdrlen g + 1 + IPv6_HDRLEN + protosize <= 255 ->
  g_frame_hdrlen g + 1 + IPv6_HDRLEN + protosize <= BUFSIZE ->
  0 <= g_uncomp_hdrlen g ->
  g_uncomp_hdrlen g + IPv6_HDRLEN + protosize <= 255 ->
  sixlowpan_compress_ipv6hdr cfg ipv6hdr g fptr =
  Done (dispatch_scratch ipv6hdr g, dispatch_frame ipv6hdr g fptr).
Proof.
  intros protosize H0 H1 H2 H3 H4.
  pose proof (dispatch_protosize_range ipv6hdr) as Hp.
  fold protosize in Hp.
  unfold dispatch_scratch, dispatch_frame. fold protosize.
  unfold dispatch_protosize in protosize.
  unfold IPv6_HDRLEN in *.
  unfold sixlowpan_compress_ipv6hdr.
  rewrite store_ok by lia. cbn [bind].
  unfold SIXLOWPAN_IPV6_HDR_LEN, IPv6_HDRLEN.
  cbn [set_frame_hdrlen set_uncomp_hdrlen g_frame_hdrlen g_uncomp_hdrlen
       g_pktattrs g_pktaddrs].
  rewrite (to_uint8_small (g_frame_hdrlen g + 1)) by lia.
  rewrite memcpy_from_ok by lia. cbn [bind].
  rewrite (to_uint8_small (g_frame_hdrlen g + 1 + 40)) by lia.
  rewrite (to_uint8_small (g_uncomp_hdrlen g + 40)) by lia.
  subst protosize.
  destruct (protosize_of cfg ipv6hdr) as [p|] eqn:E.
  - rewrite memcpy_from_ok by lia. cbn [bind].
    unfold set_uncomp_hdrlen, set_frame_hdrlen.
    cbn [g_frame_hdrlen g_uncomp_hdrlen g_pktattrs g_pktaddrs].
    rewrite !to_uint8_small by lia. reflexivity.
  - rewrite !Z.add_0_r.
    unfold set_uncomp_hdrlen, set_frame_hdrlen.
    cbn [g_frame_hdrlen g_uncomp_hdrlen g_pktattrs g_pktaddrs].
    rewrite !to_uint8_small by lia. reflexivity.
Qed.

(** ** The frame queuer, piece by piece *)

Ltac bind_inv H :=
  match type of H with
  | bind ?e _ = Done _ =>
      let E := fresh "E" in
      destruct e eqn:E; cbn [bind] in H; [ | discriminate H | discriminate H ]
  end.

(** What a completed [queue_frag1] has done. *)
Lemma queue_frag1_inv (st : netstate) (iob : iob_s) (mac panid : Z)
    (buf : bytes) (buflen : Z) (st' : netstate) (pktlen outlen : Z)
    (frame1 : bytes) (f1h : Z) :
  queue_frag1 cfg ext st iob mac panid buf buflen =
    Done (st', pktlen, outlen, frame1, f1h) ->
  let g := net_scratch st in
  let ieee := net_ieee st in
  exists f1,
    st' = mk_net (set_frame_hdrlen g (g_frame_hdrlen g + SIXLOWPAN_FRAG1_HDR_LEN))
            (set_framelist ieee [f1]) (net_iobs st) /\
    io_data f1 = frame1 /\
    io_len f1 = to_uint16 (outlen + f1h) /\
    io_pktlen f1 = io_len f1 /\
    f1h = to_uint8 (g_frame_hdrlen g + SIXLOWPAN_FRAG1_HDR_LEN) /\
    pktlen = to_uint16 (buflen + g_uncomp_hdrlen g) /\
    outlen = to_uint16 (Z.land (FRAMELEN - f1h) (Z.lnot 7)) /\
    (0 <= mac /\ mac + 4 <= BUFSIZE) /\
    (outlen <= buflen /\ f1h + outlen <= BUFSIZE) /\
    (mac + 4 <= f1h ->
     frag_word mac f1 =
       to_uint16 (Z.lor (Z.shiftl SIXLOWPAN_DISPATCH_FRAG1 8) pktlen) /\
     frag_tag mac f1 = to_uint16 (i_dgramtag ieee)) /\
    (forall i, 0 <= i < outlen -> frame1 (f1h + i) = buf i).
Proof.
  unfold queue_frag1. intros H.
  destruct (sixlowpan_framecreate ext _ _ _ _) as [fptr verify].
  bind_inv H. bind_inv H. bind_inv H. bind_inv H.
  injection H as <- <- <- <- <-.
  apply memcpy_inv in E as (_ & _ & ->).
  apply PUTINT16_inv in E0 as (B0 & W0 & F0).
  apply PUTINT16_inv in E1 as (B1 & W1 & F1).
  apply memcpy_inv in E2 as (B2 & B3 & ->).
  unfold RIME_FRAG_DISPATCH_SIZE, RIME_FRAG_TAG in *.
  cbn [set_frame_hdrlen g_frame_hdrlen g_uncomp_hdrlen] in *.
  eexists. split; [reflexivity|].
  cbn [set_io_pktlen set_io_len set_io_data io_data io_len io_pktlen].
  set (f1h := to_uint8 _) in *.
  set (outlen := to_uint16 (Z.land _ _)) in *.
  split; [reflexivity|]. split; [reflexivity|].
  split; [apply to_uint16_small, to_uint16_range|].
  split; [reflexivity|]. split; [reflexivity|]. split; [reflexivity|].
  split; [lia|]. split; [lia|]. split.
  - intros Hm. unfold frag_word, frag_tag, RIME_FRAG_DISPATCH_SIZE, RIME_FRAG_TAG.
    cbn [set_io_pktlen set_io_len set_io_data io_data io_len io_pktlen].
    rewrite <- W0, <- W1. split.
    + etransitivity; [|apply GETINT16_ext; intros; apply F1; lia].
      apply GETINT16_ext. intros j Hj. apply blit_out. lia.
    + apply GETINT16_ext. intros j Hj. apply blit_out. lia.
  - intros i Hi. rewrite blit_in by lia. f_equal. lia.
Qed.

(** What a completed pass through the loop body has done. *)
Lemma queue_fragn_inv (st : netstate) (mac pktlen outlen : Z) (frame1 : bytes)
    (f1h : Z) (buf : bytes) (buflen : Z) (st' : netstate) (outlen' : Z) :
  queue_fragn cfg ext st mac pktlen outlen frame1 f1h buf buflen =
    Done (st', outlen') ->
  let ieee := net_ieee st in
  let fh := fragn_hdrlen_of f1h in
  let p := fragn_paysize f1h buflen outlen in
  exists f,
    st' = mk_net (set_pktattr (net_scratch st) PACKETBUF_ATTR_MAC_SEQNO 0)
            (set_framelist ieee
               (add_head_pktlen (i_framelist ieee ++ [f]) (io_len f)))
            (S (net_iobs st)) /\
    outlen' = to_uint16 (outlen + p) /\
    io_len f = to_uint16 (p + fh) /\
    (0 <= mac /\ mac + 5 <= BUFSIZE) /\
    (0 <= outlen /\ 0 <= p /\ outlen + p <= buflen /\ fh + p <= BUFSIZE) /\
    (mac + 5 <= fh ->
     frag_word mac f =
       to_uint16 (Z.lor (Z.shiftl SIXLOWPAN_DISPATCH_FRAGN 8) pktlen) /\
     frag_tag mac f = to_uint16 (i_dgramtag ieee) /\
     frag_offset mac f = to_uint8 (Z.shiftr outlen 3)) /\
    (forall i, 0 <= i < p -> io_data f (fh + i) = buf (outlen + i)).
Proof.
  unfold queue_fragn. intros H.
  cbn [new_iob net_scratch net_ieee net_iobs] in H.
  destruct (sixlowpan_framecreate ext _ _ _ _) as [fptr verify].
  bind_inv H. bind_inv H. bind_inv H. bind_inv H. bind_inv H.
  injection H as <- <-.
  apply memcpy_inv in E as (_ & _ & ->).
  apply PUTINT16_inv in E0 as (B0 & W0 & F0).
  apply PUTINT16_inv in E1 as (B1 & W1 & F1).
  apply store_inv in E2 as (B2 & ->).
  apply memcpy_inv in E3 as (B3 & B4 & ->).
  unfold RIME_FRAG_DISPATCH_SIZE, RIME_FRAG_TAG, RIME_FRAG_OFFSET in *.
  fold (fragn_hdrlen_of f1h) in *.
  fold (fragn_quantum f1h) in *.
  fold (fragn_paysize f1h buflen outlen) in *.
  set (fh := fragn_hdrlen_of f1h) in *.
  set (p := fragn_paysize f1h buflen outlen) in *.
  match goal with
  | |- exists f, mk_net _ (set_framelist _ (add_head_pktlen (_ ++ [?x]) _)) _ = _ /\ _ =>
      exists x
  end.
  split; [reflexivity|].
  cbn [set_io_pktlen set_io_len set_io_data io_data io_len io_pktlen].
  split; [reflexivity|]. split; [reflexivity|].
  split; [lia|]. split; [lia|]. split.
  - intros Hm.
    unfold frag_word, frag_tag, frag_offset,
      RIME_FRAG_DISPATCH_SIZE, RIME_FRAG_TAG, RIME_FRAG_OFFSET.
    cbn [set_io_pktlen set_io_len set_io_data io_data io_len io_pktlen].
    rewrite <- W0, <- W1. repeat split.
    + etransitivity; [|apply GETINT16_ext; intros; apply F1; lia].
      apply GETINT16_ext. intros j Hj.
      rewrite blit_out by lia. apply poke_neq. lia.
    + apply GETINT16_ext. intros j Hj.
      rewrite blit_out by lia. apply poke_neq. lia.
    + rewrite blit_out by lia. rewrite poke_eq.
      unfold to_uint8. apply Z.mod_mod. lia.
  - intros i Hi. rewrite blit_in by lia. f_equal. lia.
Qed.

Lemma add_head_pktlen_cons (h : iob_s) (t : list iob_s) (len : Z) :
  exists h', add_head_pktlen (h :: t) len = h' :: t /\
             io_len h' = io_len h /\ io_data h' = io_data h.
Proof. eexists. split; [reflexivity|]. split; reflexivity. Qed.

Lemma queue_fragn_loop_inv (mac pktlen : Z) (frame1 : bytes) (f1h : Z)
    (buf : bytes) (buflen : Z) (fuel : nat) :
  forall (st : netstate) (outlen : Z) (st' : netstate) (outlen' : Z)
         (h : iob_s) (t : list iob_s),
  queue_fragn_loop cfg ext fuel st mac pktlen outlen frame1 f1h buf buflen =
    Done (st', outlen') ->
  i_framelist (net_ieee st) = h :: t ->
  exists h' fs,
    i_framelist (net_ieee st') = h' :: t ++ fs /\
    io_len h' = io_len h /\ io_data h' = io_data h /\
    i_dgramtag (net_ieee st') = i_dgramtag (net_ieee st) /\
    g_frame_hdrlen (net_scratch st') = g_frame_hdrlen (net_scratch st) /\
    g_uncomp_hdrlen (net_scratch st') = g_uncomp_hdrlen (net_scratch st) /\
    net_iobs st' = (net_iobs st + length fs)%nat /\
    fragn_run mac pktlen (i_dgramtag (net_ieee st)) f1h buf buflen outlen fs outlen'.
Proof.
  induction fuel as [|fuel IH]; intros st outlen st' outlen' h t H L;
    cbn [queue_fragn_loop] in H.
  - destruct (outlen <? buflen) eqn:C; [discriminate|].
    injection H as <- <-. exists h, []. rewrite app_nil_r, Nat.add_0_r.
    repeat split; try assumption.
    apply run_exit. apply Z.ltb_ge in C. lia.
  - destruct (outlen <? buflen) eqn:C.
    + bind_inv H. destruct a as [st1 o1].
      apply queue_fragn_inv in E.
      destruct E as (f & -> & -> & Hlen & Hmac & Hp & Hw & Hb).
      cbn [net_ieee net_scratch net_iobs set_framelist i_framelist] in *.
      rewrite L in H. change ((h :: t) ++ [f]) with (h :: (t ++ [f])) in H.
      destruct (add_head_pktlen_cons h (t ++ [f]) (io_len f)) as (h1 & E1 & L1 & D1).
      eapply IH in H; [|cbn [net_ieee set_framelist i_framelist]; exact E1].
      destruct H as (h' & fs & Hl & Hl' & Hd & Ht & Hg & Hu & Hn & Hr).
      cbn [net_ieee net_scratch net_iobs set_framelist set_pktattr
           i_framelist i_dgramtag g_frame_hdrlen g_uncomp_hdrlen] in *.
      exists h', (f :: fs).
      rewrite <- app_assoc in Hl. cbn [app] in Hl.
      repeat split; try congruence.
      * rewrite Hn. cbn [length]. lia.
      * apply run_pass; [apply Z.ltb_lt; exact C| |exact Hr].
        unfold fragn_frame_ok. repeat split; try lia; try apply Hw; try assumption.
    + injection H as <- <-. exists h, []. rewrite app_nil_r, Nat.add_0_r.
      repeat split; try assumption.
      apply run_exit. apply Z.ltb_ge in C. lia.
Qed.

(** What a completed fragmented path has done. *)
Lemma queue_fragments_inv (fuel : nat) (st : netstate) (iob : iob_s)
    (mac panid : Z) (buf : bytes) (buflen : Z) (st' : netstate) (outlen' : Z) :
  queue_fragments cfg ext fuel st iob mac panid buf buflen = Done (st', outlen') ->
  let g := net_scratch st in
  let tag := i_dgramtag (net_ieee st) in
  exists f1 fs,
    i_framelist (net_ieee st') = f1 :: fs /\
    frag1_frame_ok mac g tag buf buflen f1 /\
    fragn_run mac (pktlen_of g buflen) tag (frag1_hdrlen_of g) buf buflen
      (frag1_paysize g) fs outlen' /\
    i_dgramtag (net_ieee st') = to_uint16 (tag + 1) /\
    net_iobs st' = (net_iobs st + length fs)%nat.
Proof.
  unfold queue_fragments. intros H.
  bind_inv H. destruct a as [[[[st1 pktlen] outlen] frame1] f1h].
  bind_inv H. destruct a as [st2 o2].
  injection H as <- <-.
  apply queue_frag1_inv in E.
  destruct E as (f1 & -> & Hd & Hl & Hpk & -> & -> & -> & Hm & Hb & Hw & Hc).
  eapply queue_fragn_loop_inv in E0;
    [|cbn [net_ieee set_framelist i_framelist]; reflexivity].
  destruct E0 as (h' & fs & L & Ll & Ld & Ht & _ & _ & Hn & Hr).
  cbn [net_ieee net_scratch net_iobs set_framelist set_dgramtag set_frame_hdrlen
       i_framelist i_dgramtag g_frame_hdrlen g_uncomp_hdrlen app] in *.
  exists h', fs.
  split; [exact L|].
  split.
  { unfold frag1_frame_ok.
    fold (frag1_hdrlen_of (net_scratch st)) in *.
    fold (frag1_paysize (net_scratch st)) in *.
    fold (pktlen_of (net_scratch st) buflen) in *.
    unfold frag_word, frag_tag in *. rewrite Ll, Ld.
    split; [exact Hl|]. split; [exact Hm|]. split; [exact Hb|].
    split; [exact Hw|].
    intros i Hi. rewrite Hd. apply Hc. exact Hi. }
  split; [exact Hr|].
  split; [rewrite Ht; reflexivity|exact Hn].
Qed.

(** What a completed single-frame path has done. *)
Lemma queue_single_inv (st : netstate) (iob : iob_s) (panid : Z)
    (buf : bytes) (buflen : Z) (st' : netstate) :
  queue_single cfg ext st iob panid buf buflen = Done st' ->
  let g := net_scratch st in
  exists f,
    st' = mk_net g (set_framelist (net_ieee st) [f]) (net_iobs st) /\
    io_len f = to_uint16 (buflen + g_frame_hdrlen g) /\
    io_pktlen f = io_len f /\
    (0 <= g_frame_hdrlen g /\ 0 <= buflen /\ g_frame_hdrlen g + buflen <= BUFSIZE) /\
    (forall i, 0 <= i < buflen -> io_data f (g_frame_hdrlen g + i) = buf i) /\
    (forall j, j < g_frame_hdrlen g ->
       io_data f j =
       fst (sixlowpan_framecreate ext g (net_ieee st) (io_data iob) panid) j).
Proof.
  unfold queue_single. intros H.
  destruct (sixlowpan_framecreate ext _ _ _ _) as [fptr verify] eqn:F.
  bind_inv H. injection H as <-.
  apply memcpy_inv in E as (B0 & B1 & ->).
  eexists. split; [reflexivity|].
  cbn [set_io_pktlen set_io_len set_io_data io_data io_len io_pktlen fst].
  split; [reflexivity|].
  split; [apply to_uint16_small, to_uint16_range|].
  split; [lia|]. split.
  - intros i Hi. rewrite blit_in by lia. f_equal. lia.
  - intros j Hj. apply blit_out. lia.
Qed.

Lemma reset_scratch_cursors (destip : bytes) :
  g_uncomp_hdrlen (reset_scratch cfg destip) = 0 /\
  g_frame_hdrlen (reset_scratch cfg destip) = 0.
Proof.
  unfold reset_scratch.
  destruct (_ =? IP_PROTO_TCP); [|split; reflexivity].
  destruct (_ && _); [split; reflexivity|].
  destruct (_ =? TCP_FIN); split; reflexivity.
Qed.

Lemma queue_setup_frame (st : netstate) (destip : bytes)
    (destmac : option rimeaddr_s) :
  let '(iob, _, _, st1) := queue_setup cfg ext st destip destmac in
  net_ieee st1 = net_ieee st /\ net_iobs st1 = S (net_iobs st) /\
  g_uncomp_hdrlen (net_scratch st1) = 0 /\
  io_data iob = iob_alloc ext (net_iobs st).
Proof.
  unfold queue_setup. cbn.
  repeat split; try reflexivity. apply reset_scratch_cursors.
Qed.

Lemma queue_headers_inv (st : netstate) (destip : bytes) (buflen : Z)
    (destmac : option rimeaddr_s)
    (r : Z * netstate + iob_s * Z * Z * netstate) :
  queue_headers cfg ext st destip buflen destmac = Done r ->
  match r with
  | inl (e, st1) =>
      e = framer_hdrlen_query st destip destmac /\ e < 0 /\
      net_ieee st1 = net_ieee st /\ net_iobs st1 = S (net_iobs st)
  | inr (_, _, mac, st1) =>
      mac = framer_hdrlen_query st destip destmac /\ 0 <= mac /\
      net_ieee st1 = net_ieee st /\ net_iobs st1 = S (net_iobs st)
  end.
Proof.
  unfold queue_headers, framer_hdrlen_query.
  pose proof (queue_setup_frame st destip destmac) as S.
  destruct (queue_setup cfg ext st destip destmac) as [[[iob dm] panid] s1].
  destruct S as (Si & Sn & _).
  destruct (_ <? 0) eqn:C.
  - intros [= <-]. apply Z.ltb_lt in C. repeat split; assumption.
  - intros H. bind_inv H. destruct a as [g fptr]. injection H as <-.
    apply Z.ltb_ge in C. cbn [net_ieee net_iobs]. repeat split; assumption.
Qed.

(** The three ways out of [sixlowpan_queue_frames] once the headers are in
    place. *)
Lemma queue_frames_cases (fuel : nat) (st : netstate) (destip buf : bytes)
    (buflen : Z) (destmac : option rimeaddr_s)
    (iob : iob_s) (panid mac : Z) (st1 : netstate) (rc : Z) (st' : netstate) :
  queue_headers cfg ext st destip buflen destmac = Done (inr (iob, panid, mac, st1)) ->
  sixlowpan_queue_frames cfg ext fuel st destip buf buflen destmac = Done (rc, st') ->
  (needs_fragmentation cfg buflen (net_scratch st1) = true /\
   CONFIG_NET_6LOWPAN_FRAG cfg = true /\ rc = OK /\
   exists o, queue_fragments cfg ext fuel st1 iob mac panid buf buflen = Done (st', o))
  \/
  (needs_fragmentation cfg buflen (net_scratch st1) = true /\
   CONFIG_NET_6LOWPAN_FRAG cfg = false /\ rc = - E2BIG /\ st' = st1)
  \/
  (needs_fragmentation cfg buflen (net_scratch st1) = false /\ rc = OK /\
   queue_single cfg ext st1 iob panid buf buflen = Done st').
Proof.
  intros Hh H. unfold sixlowpan_queue_frames in H. rewrite Hh in H.
  cbn [bind] in H.
  destruct (needs_fragmentation cfg buflen (net_scratch st1)).
  - destruct (CONFIG_NET_6LOWPAN_FRAG cfg).
    + bind_inv H. destruct a as [s o]. injection H as <- <-.
      left. repeat split. exists o. reflexivity.
    + injection H as <- <-. right. left. repeat split.
  - bind_inv H. injection H as <- <-. right. right. repeat split.
Qed.

(** ** Header lengths and payload sizes without wrap-around *)

Lemma frag1_hdrlen_of_val (g : scratch) :
  0 <= g_frame_hdrlen g -> g_frame_hdrlen g + 4 <= 255 ->
  frag1_hdrlen_of g = g_frame_hdrlen g + 4.
Proof.
  intros. unfold frag1_hdrlen_of, SIXLOWPAN_FRAG1_HDR_LEN.
  apply to_uint8_small. lia.
Qed.

Lemma frag1_hdrlen_of_le (g : scratch) :
  0 <= g_frame_hdrlen g ->
  0 <= frag1_hdrlen_of g <= g_frame_hdrlen g + 4 /\ frag1_hdrlen_of g <= 255.
Proof.
  intros. unfold frag1_hdrlen_of, SIXLOWPAN_FRAG1_HDR_LEN.
  pose proof (to_uint8_range (g_frame_hdrlen g + 4)).
  pose proof (to_uint8_le (g_frame_hdrlen g + 4)). lia.
Qed.

(** [fragn_hdrlen] is one more than [frag1_hdrlen], also when the
    intermediate subtraction wraps. *)
Lemma fragn_hdrlen_of_val (f1h : Z) :
  0 <= f1h <= 255 -> fragn_hdrlen_of f1h = f1h + 1.
Proof.
  intros H. unfold fragn_hdrlen_of, to_uint16,
    SIXLOWPAN_FRAG1_HDR_LEN, SIXLOWPAN_FRAGN_HDR_LEN.
  rewrite Zplus_mod_idemp_l.
  replace (f1h - 4 + 5) with (f1h + 1) by lia.
  apply Z.mod_small. lia.
Qed.

Lemma fragn_quantum_val (f1h : Z) :
  fragn_quantum f1h =
  Z.land (FRAMELEN - fragn_hdrlen_of f1h) SIXLOWPAN_DISPATCH_FRAG_MASK.
Proof.
  unfold fragn_quantum, SIXLOWPAN_DISPATCH_FRAG_MASK.
  pose proof (land_f8_bounds (FRAMELEN - fragn_hdrlen_of f1h)).
  apply to_uint16_small. lia.
Qed.

Lemma fragn_quantum_bounds (f1h : Z) :
  0 <= fragn_quantum f1h <= 248 /\ fragn_quantum f1h mod 8 = 0 /\
  (fragn_hdrlen_of f1h <= FRAMELEN ->
   fragn_quantum f1h <= FRAMELEN - fragn_hdrlen_of f1h).
Proof.
  rewrite fragn_quantum_val. unfold SIXLOWPAN_DISPATCH_FRAG_MASK.
  pose proof (land_f8_bounds (FRAMELEN - fragn_hdrlen_of f1h)) as (A & B & C).
  split; [exact A|]. split; [exact B|]. intros H. apply C. lia.
Qed.

Lemma fragn_paysize_le (f1h buflen o : Z) :
  0 <= fragn_paysize f1h buflen o <= fragn_quantum f1h.
Proof.
  unfold fragn_paysize.
  pose proof (fragn_quantum_bounds f1h) as (A & _).
  destruct (Z.ltb_spec (to_size_t (buflen - o)) (fragn_quantum f1h)); [|lia].
  pose proof (to_size_t_range (buflen - o)).
  pose proof (to_uint16_range (to_size_t (buflen - o))).
  pose proof (to_uint16_le (to_size_t (buflen - o))). lia.
Qed.

(** The last fragment takes what is left, every other one the quantum. *)
Lemma fragn_paysize_val (f1h buflen o : Z) :
  0 <= o < buflen -> buflen < 2 ^ 32 ->
  fragn_paysize f1h buflen o = Z.min (buflen - o) (fragn_quantum f1h).
Proof.
  intros Ho Hb. unfold fragn_paysize.
  pose proof (fragn_quantum_bounds f1h) as (A & _).
  rewrite to_size_t_small by lia.
  destruct (Z.ltb_spec (buflen - o) (fragn_quantum f1h)).
  - rewrite to_uint16_small by lia. lia.
  - lia.
Qed.

Lemma to_uint16_mod8 (x : Z) : to_uint16 x mod 8 = x mod 8.
Proof. unfold to_uint16. apply Z.mod_mod_divide. exists 8192. reflexivity. Qed.

Lemma frag1_paysize_bounds (g : scratch) :
  frag1_paysize g mod 8 = 0 /\ 0 <= frag1_paysize g /\
  (frag1_hdrlen_of g <= FRAMELEN ->
   frag1_paysize g <= FRAMELEN - frag1_hdrlen_of g).
Proof.
  unfold frag1_paysize.
  pose proof (land_lnot7_bounds (FRAMELEN - frag1_hdrlen_of g)) as (A & B).
  pose proof (to_uint16_range (Z.land (FRAMELEN - frag1_hdrlen_of g) (Z.lnot 7))).
  split; [rewrite to_uint16_mod8; exact B|].
  split; [lia|].
  intros H0.
  assert (0 <= Z.land (FRAMELEN - frag1_hdrlen_of g) (Z.lnot 7)).
  { apply Z.land_nonneg. left. lia. }
  pose proof (to_uint16_le (Z.land (FRAMELEN - frag1_hdrlen_of g) (Z.lnot 7))).
  lia.
Qed.

(** ** Properties of the frame list *)

Lemma queue_frames_ok_headers (fuel : nat) (st : netstate) (destip buf : bytes)
    (buflen : Z) (destmac : option rimeaddr_s) (rc : Z) (st' : netstate) :
  sixlowpan_queue_frames cfg ext fuel st destip buf buflen destmac = Done (rc, st') ->
  (exists st1, queue_headers cfg ext st destip buflen destmac = Done (inl (rc, st1))
               /\ st' = st1) \/
  (exists iob panid mac st1,
     queue_headers cfg ext st destip buflen destmac = Done (inr (iob, panid, mac, st1))).
Proof.
  intros H. unfold sixlowpan_queue_frames in H.
  destruct (queue_headers cfg ext st destip buflen destmac) as [r| |] eqn:E;
    try discriminate.
  destruct r as [[e s1]|[[[iob panid] mac] s1]].
  - cbn [bind] in H. injection H as <- <-. left. exists s1. split; reflexivity.
  - right. exists iob, panid, mac, s1. reflexivity.
Qed.

(** C5: after a successful send the interface's datagram tag is one more
    than at entry, modulo 2^16, when the datagram was fragmented, and is
    the tag at entry when it went out in one frame. *)
Theorem dgramtag_after_send (fuel : nat) (st : netstate) (destip buf : bytes)
    (buflen : Z) (destmac : option rimeaddr_s) (st' : netstate) :
  sixlowpan_queue_frames cfg ext fuel st destip buf buflen destmac = Done (OK, st') ->
  i_dgramtag (net_ieee st') =
    if send_fragments st destip buflen destmac
    then (i_dgramtag (net_ieee st) + 1) mod 2 ^ 16
    else i_dgramtag (net_ieee st).
Proof.
  intros H. unfold send_fragments.
  destruct (queue_frames_ok_headers _ _ _ _ _ _ _ _ H)
    as [(s1 & E & _)|(iob & panid & mac & s1 & E)].
  - apply queue_headers_inv in E. unfold OK in E. lia.
  - rewrite E.
    pose proof (queue_headers_inv _ _ _ _ _ E) as (_ & _ & Hi & _).
    destruct (queue_frames_cases _ _ _ _ _ _ _ _ _ _ _ _ E H)
      as [(N & _ & _ & o & F)|[(_ & _ & C & _)|(N & _ & S)]].
    + rewrite N. apply queue_fragments_inv in F.
      destruct F as (f1 & fs & _ & _ & _ & T & _).
      rewrite T, Hi. reflexivity.
    + discriminate C.
    + rewrite N. apply queue_single_inv in S.
      destruct S as (f & -> & _). cbn. rewrite Hi. reflexivity.
Qed.

(** C10: a failed MAC header-size query is returned as it is, and whatever
    failure the queuer returns, the interface (frame list and datagram tag
    included) is as it was at entry while one buffer has left the pool and
    is in no list. *)
Theorem failure_leaves_interface (fuel : nat) (st : netstate) (destip buf : bytes)
    (buflen : Z) (destmac : option rimeaddr_s) :
  (framer_hdrlen_query st destip destmac < 0 ->
   exists st',
     sixlowpan_queue_frames cfg ext fuel st destip buf buflen destmac =
       Done (framer_hdrlen_query st destip destmac, st')) /\
  (forall rc st',
     sixlowpan_queue_frames cfg ext fuel st destip buf buflen destmac = Done (rc, st') ->
     rc <> OK ->
     (rc = framer_hdrlen_query st destip destmac \/ rc = - E2BIG) /\
     net_ieee st' = net_ieee st /\
     i_framelist (net_ieee st') = i_framelist (net_ieee st) /\
     i_dgramtag (net_ieee st') = i_dgramtag (net_ieee st) /\
     net_iobs st' = S (net_iobs st)).
Proof.
  split.
  - intros Hq. unfold sixlowpan_queue_frames, queue_headers.
    unfold framer_hdrlen_query in *.
    destruct (queue_setup cfg ext st destip destmac) as [[[iob dm] panid] s1].
    apply Z.ltb_lt in Hq. rewrite Hq. cbn [bind]. eexists. reflexivity.
  - intros rc st' H Hrc.
    destruct (queue_frames_ok_headers _ _ _ _ _ _ _ _ H)
      as [(s1 & E & ->)|(iob & panid & mac & s1 & E)].
    + apply queue_headers_inv in E. destruct E as (-> & _ & Hi & Hn).
      rewrite Hi. repeat split; try reflexivity; try assumption. left. reflexivity.
    + pose proof (queue_headers_inv _ _ _ _ _ E) as (_ & _ & Hi & Hn).
      destruct (queue_frames_cases _ _ _ _ _ _ _ _ _ _ _ _ E H)
        as [(_ & _ & C & _)|[(_ & _ & C & ->)|(_ & C & _)]];
        try contradiction.
      rewrite Hi. repeat split; try reflexivity; try assumption. right. exact C.
Qed.

(** C8, amended: with fragmentation compiled out, when the frame header
    length does not exceed the frame capacity, a datagram whose [buflen]
    exceeds the capacity minus the frame header length is refused with
    -E2BIG and the interface's frame list is left as it was. *)
Theorem oversize_without_frag (fuel : nat) (st : netstate) (destip buf : bytes)
    (buflen : Z) (destmac : option rimeaddr_s) (mac hdr unc : Z) :
  CONFIG_NET_6LOWPAN_FRAG cfg = false ->
  headers_of st destip buflen destmac = Some (mac, hdr, unc) ->
  hdr <= FRAMELEN ->
  FRAMELEN - hdr < buflen ->
  exists st',
    sixlowpan_queue_frames cfg ext fuel st destip buf buflen destmac =
      Done (- E2BIG, st') /\
    i_framelist (net_ieee st') = i_framelist (net_ieee st) /\
    net_ieee st' = net_ieee st.
Proof.
  intros Hf Hh Hfit Hbig. unfold headers_of in Hh.
  destruct (queue_headers cfg ext st destip buflen destmac) as [r| |] eqn:E;
    try discriminate.
  destruct r as [[e s1]|[[[iob panid] mac'] s1]]; [discriminate|].
  injection Hh as -> <- <-.
  pose proof (queue_headers_inv _ _ _ _ _ E) as (_ & _ & Hi & _).
  unfold sixlowpan_queue_frames. rewrite E. cbn [bind].
  replace (needs_fragmentation cfg buflen (net_scratch s1)) with true.
  - rewrite Hf. exists s1. rewrite Hi. repeat split.
  - symmetry. unfold needs_fragmentation. apply Z.ltb_lt.
    pose proof (to_size_t_le (FRAMELEN - g_frame_hdrlen (net_scratch s1))). lia.
Qed.

Lemma fragn_run_len_bound (mac pktlen tag f1h : Z) (buf : bytes) (buflen : Z)
    (o : Z) (fs : list iob_s) (o' : Z) :
  fragn_run mac pktlen tag f1h buf buflen o fs o' ->
  fragn_hdrlen_of f1h <= FRAMELEN ->
  Forall (fun f => io_len f <= FRAMELEN) fs.
Proof.
  intros R Hh. induction R as [o _|o f fs o' _ Hf _ IH]; constructor.
  - destruct Hf as (-> & _ & (_ & Hp & _) & _).
    pose proof (fragn_paysize_le f1h buflen o).
    pose proof (fragn_quantum_bounds f1h) as (_ & _ & Q).
    assert (0 <= fragn_hdrlen_of f1h) by (apply to_uint16_range).
    pose proof (to_uint16_le (fragn_paysize f1h buflen o + fragn_hdrlen_of f1h)).
    specialize (Q Hh). lia.
  - exact IH.
Qed.

(** C2, amended: every frame of a successful send has [io_len] at most the
    link frame capacity, provided the MAC header and the compressed headers
    fit the capacity and, when the datagram is fragmented, still fit it with
    the 5-byte FRAGN header added. *)
Theorem frames_fit_capacity (fuel : nat) (st : netstate) (destip buf : bytes)
    (buflen : Z) (destmac : option rimeaddr_s) (mac hdr unc : Z) (st' : netstate) :
  headers_of st destip buflen destmac = Some (mac, hdr, unc) ->
  0 <= hdr ->
  (if send_fragments st destip buflen destmac
   then hdr + SIXLOWPAN_FRAGN_HDR_LEN <= FRAMELEN
   else hdr <= FRAMELEN) ->
  sixlowpan_queue_frames cfg ext fuel st destip buf buflen destmac = Done (OK, st') ->
  Forall (fun f => io_len f <= FRAMELEN) (i_framelist (net_ieee st')).
Proof.
  intros Hh H0 Hfit H. unfold headers_of, send_fragments in *.
  destruct (queue_headers cfg ext st destip buflen destmac) as [r| |] eqn:E;
    try discriminate.
  destruct r as [[e s1]|[[[iob panid] mac'] s1]]; [discriminate|].
  injection Hh as -> <- <-.
  unfold SIXLOWPAN_FRAGN_HDR_LEN in Hfit.
  destruct (queue_frames_cases _ _ _ _ _ _ _ _ _ _ _ _ E H)
    as [(N & _ & _ & o & F)|[(_ & _ & C & _)|(N & _ & S)]].
  - rewrite N in Hfit. apply queue_fragments_inv in F.
    destruct F as (f1 & fs & -> & F1 & R & _).
    pose proof (frag1_hdrlen_of_le (net_scratch s1) H0) as (L0 & L1).
    constructor.
    + destruct F1 as (-> & _).
      pose proof (frag1_paysize_bounds (net_scratch s1)) as (_ & P0 & P1).
      pose proof (to_uint16_le (frag1_paysize (net_scratch s1) +
                                frag1_hdrlen_of (net_scratch s1))).
      specialize (P1 ltac:(lia)). lia.
    + eapply fragn_run_len_bound; [exact R|].
      rewrite fragn_hdrlen_of_val by lia. lia.
  - discriminate C.
  - rewrite N in Hfit. apply queue_single_inv in S.
    destruct S as (f & -> & L & _ & (_ & B & _) & _).
    cbn. constructor; [|constructor]. rewrite L.
    unfold needs_fragmentation in N. apply Z.ltb_ge in N.
    pose proof (to_size_t_small (FRAMELEN - g_frame_hdrlen (net_scratch s1))).
    pose proof (to_size_t_range (FRAMELEN - g_frame_hdrlen (net_scratch s1))).
    pose proof (to_size_t_le (FRAMELEN - g_frame_hdrlen (net_scratch s1))).
    pose proof (to_uint16_le (buflen + g_frame_hdrlen (net_scratch s1))).
    lia.
Qed.

Lemma land_7ff_mod (x : Z) : Z.land (to_uint16 x) 0x7ff = x mod 2 ^ 11.
Proof.
  change 0x7ff with (Z.ones 11). rewrite Z.land_ones by lia.
  unfold to_uint16. apply Z.mod_mod_divide. exists (2 ^ 5). reflexivity.
Qed.

Lemma frag_size_of_word (mac : Z) (f : iob_s) (dispatch x : Z) :
  dispatch = SIXLOWPAN_DISPATCH_FRAG1 \/ dispatch = SIXLOWPAN_DISPATCH_FRAGN ->
  frag_word mac f = to_uint16 (Z.lor (Z.shiftl dispatch 8) (to_uint16 x)) ->
  frag_size mac f = x mod 2 ^ 11.
Proof.
  intros Hd Hw. unfold frag_size. rewrite Hw.
  rewrite frag_word_size by (auto using to_uint16_range).
  apply land_7ff_mod.
Qed.

Lemma fragn_run_fields (mac pktlen tag f1h : Z) (buf : bytes) (buflen : Z)
    (o : Z) (fs : list iob_s) (o' : Z) :
  fragn_run mac pktlen tag f1h buf buflen o fs o' ->
  mac + 5 <= fragn_hdrlen_of f1h ->
  Forall (fun f =>
            frag_word mac f =
              to_uint16 (Z.lor (Z.shiftl SIXLOWPAN_DISPATCH_FRAGN 8) pktlen) /\
            frag_tag mac f = to_uint16 tag) fs.
Proof.
  intros R Hm. induction R as [o _|o f fs o' _ Hf _ IH]; constructor.
  - destruct Hf as (_ & _ & _ & Hw & _). specialize (Hw Hm). tauto.
  - exact IH.
Qed.

(** C3: in a fragmented output every frame, FRAG1 and FRAGN alike, carries
    the same 11-bit datagram size, the low 11 bits of
    [buflen + uncomp_hdrlen], and the same 16-bit tag, the interface's tag
    at entry.  The 8-bit header cursor is assumed not to wrap. *)
Theorem fragments_share_size_and_tag (fuel : nat) (st : netstate)
    (destip buf : bytes) (buflen : Z) (destmac : option rimeaddr_s)
    (mac hdr unc : Z) (st' : netstate) :
  headers_of st destip buflen destmac = Some (mac, hdr, unc) ->
  mac <= hdr -> hdr + SIXLOWPAN_FRAG1_HDR_LEN <= 255 ->
  send_fragments st destip buflen destmac = true ->
  sixlowpan_queue_frames cfg ext fuel st destip buf buflen destmac = Done (OK, st') ->
  i_framelist (net_ieee st') <> [] /\
  Forall (fun f =>
            frag_size mac f = (buflen + unc) mod 2 ^ 11 /\
            frag_tag mac f = i_dgramtag (net_ieee st) mod 2 ^ 16)
    (i_framelist (net_ieee st')).
Proof.
  intros Hh Hm Hw Hs H. unfold headers_of, send_fragments in *.
  destruct (queue_headers cfg ext st destip buflen destmac) as [r| |] eqn:E;
    try discriminate.
  destruct r as [[e s1]|[[[iob panid] mac'] s1]]; [discriminate|].
  injection Hh as -> <- <-.
  unfold SIXLOWPAN_FRAG1_HDR_LEN in Hw.
  pose proof (queue_headers_inv _ _ _ _ _ E) as (_ & M0 & Hi & _).
  destruct (queue_frames_cases _ _ _ _ _ _ _ _ _ _ _ _ E H)
    as [(N & _ & _ & o & F)|[(_ & _ & C & _)|(N & _ & S)]];
    [|discriminate C|congruence].
  apply queue_fragments_inv in F.
  destruct F as (f1 & fs & -> & F1 & R & _).
  split; [discriminate|].
  rewrite Hi in *.
  pose proof (frag1_hdrlen_of_val (net_scratch s1) ltac:(lia) ltac:(lia)) as V.
  constructor.
  - destruct F1 as (_ & _ & _ & W & _).
    destruct (W ltac:(lia)) as (W1 & W2). split.
    + eapply frag_size_of_word; [left; reflexivity|exact W1].
    + exact W2.
  - apply fragn_run_fields in R;
      [|rewrite fragn_hdrlen_of_val by lia; lia].
    eapply Forall_impl; [|exact R].
    intros f (W1 & W2). split.
    + eapply frag_size_of_word; [right; reflexivity|exact W1].
    + exact W2.
Qed.

(** Where the FRAGN frames of a completed loop take their payload from,
    when neither the header cursor nor [outlen] wraps. *)
Lemma fragn_run_layout (mac pktlen tag hdr : Z) (buf : bytes) (buflen : Z)
    (o : Z) (fs : list iob_s) (o' : Z) :
  fragn_run mac pktlen tag (hdr + 4) buf buflen o fs o' ->
  0 <= mac <= hdr -> hdr + 4 <= 255 -> 0 <= o <= buflen -> buflen <= 65535 ->
  o' = o + sumZ (map (fragn_payload hdr) fs) /\
  o' = buflen /\
  forall k f,
    nth_error fs k = Some f ->
    let start := o + sumZ (firstn k (map (fragn_payload hdr) fs)) in
    0 <= start < buflen /\
    0 <= fragn_payload hdr f /\
    frag_offset mac f = to_uint8 (Z.shiftr start 3) /\
    ((S k < length fs)%nat -> fragn_payload hdr f mod 8 = 0) /\
    (forall i, 0 <= i < fragn_payload hdr f ->
       io_data f (hdr + 5 + i) = buf (start + i)).
Proof.
  intros R Hm Hh Ho Hb.
  remember (hdr + 4) as f1h eqn:Ef.
  induction R as [o X|o f fs o' Hlt Hf R IH].
  - cbn. split; [lia|]. split; [lia|]. intros [|k] f; discriminate.
  - assert (Hfh : fragn_hdrlen_of f1h = hdr + 5).
    { rewrite fragn_hdrlen_of_val by lia. lia. }
    destruct Hf as (Hl & _ & (_ & P0 & P1 & _) & Hw & Hc).
    rewrite Hfh in *.
    pose proof (fragn_paysize_le f1h buflen o) as Pq.
    pose proof (fragn_quantum_bounds f1h) as (Q0 & Q8 & _).
    assert (Hpay : fragn_payload hdr f = fragn_paysize f1h buflen o).
    { unfold fragn_payload, SIXLOWPAN_FRAGN_HDR_LEN. rewrite Hl.
      rewrite to_uint16_small by lia. lia. }
    rewrite (to_uint16_small (o + fragn_paysize f1h buflen o)) in * by lia.
    destruct (IH ltac:(lia)) as (S1 & S2 & S3).
    cbn [map sumZ fold_right]. fold (sumZ (map (fragn_payload hdr) fs)).
    rewrite Hpay.
    split; [lia|]. split; [exact S2|].
    intros [|k] g Hg.
    + cbn in Hg. injection Hg as <-. cbn [firstn sumZ fold_right].
      rewrite Z.add_0_r, Hpay.
      split; [lia|]. split; [lia|].
      split; [apply Hw; lia|]. split.
      * intros Hk. cbn [length] in Hk.
        assert (Hnext : o + fragn_paysize f1h buflen o < buflen).
        { inversion R; subst; [cbn in Hk; lia|assumption]. }
        rewrite fragn_paysize_val in * by lia.
        replace (Z.min (buflen - o) (fragn_quantum f1h))
          with (fragn_quantum f1h) by lia.
        exact Q8.
      * exact Hc.
    + cbn [nth_error] in Hg. cbn [firstn sumZ fold_right].
      fold (sumZ (firstn k (map (fragn_payload hdr) fs))).
      specialize (S3 k g Hg). cbn zeta in S3.
      replace (o + (fragn_paysize f1h buflen o +
                    sumZ (firstn k (map (fragn_payload hdr) fs))))
        with (o + fragn_paysize f1h buflen o +
              sumZ (firstn k (map (fragn_payload hdr) fs))) by lia.
      destruct S3 as (T1 & T2 & T3 & T4 & T5).
      split; [exact T1|]. split; [exact T2|]. split; [exact T3|].
      split; [|exact T5].
      intros Hk. apply T4. cbn [length] in Hk. lia.
Qed.

Lemma frag1_payload_val (mac : Z) (g : scratch) (tag : Z) (buf : bytes)
    (buflen : Z) (f1 : iob_s) :
  frag1_frame_ok mac g tag buf buflen f1 ->
  0 <= g_frame_hdrlen g -> g_frame_hdrlen g + 4 <= 255 -> buflen <= 65535 - 255 ->
  frag1_payload (g_frame_hdrlen g) f1 = frag1_paysize g /\
  0 <= frag1_paysize g <= buflen /\ frag1_paysize g mod 8 = 0.
Proof.
  intros (Hl & _ & (Hp & _) & _) H0 H1 Hb.
  pose proof (frag1_paysize_bounds g) as (P8 & P0 & _).
  rewrite frag1_hdrlen_of_val in Hl by lia.
  unfold frag1_payload, SIXLOWPAN_FRAG1_HDR_LEN.
  rewrite Hl, to_uint16_small by lia.
  split; [lia|]. split; [lia|exact P8].
Qed.

(** A FRAGN loop that comes to its end was given a datagram that the 16-bit
    [outlen] can reach. *)
Lemma fragn_run_buflen (mac pktlen tag f1h : Z) (buf : bytes) (buflen : Z)
    (o : Z) (fs : list iob_s) (o' : Z) :
  fragn_run mac pktlen tag f1h buf buflen o fs o' ->
  o <= 65535 -> buflen <= 65535.
Proof.
  intros R. induction R as [o X|o f fs o' _ _ _ IH]; intros Ho.
  - lia.
  - apply IH. apply to_uint16_range.
Qed.

(** Every FRAGN frame but the last carries the whole quantum, so its length
    and the FRAGN header length leave the same remainder by 8. *)
Lemma fragn_run_aligned (mac pktlen tag f1h : Z) (buf : bytes) (buflen : Z)
    (o : Z) (fs : list iob_s) (o' : Z) :
  fragn_run mac pktlen tag f1h buf buflen o fs o' ->
  buflen <= 65535 ->
  forall k f,
    nth_error fs k = Some f -> (S k < length fs)%nat ->
    io_len f mod 8 = fragn_hdrlen_of f1h mod 8.
Proof.
  intros R Hb. induction R as [o X|o f fs o' Hlt Hf R IH].
  - intros [|k] f; discriminate.
  - intros [|k] g Hg Hk.
    + cbn in Hg. injection Hg as <-.
      destruct Hf as (Hl & _ & (O0 & P0 & P1 & _) & _).
      pose proof (fragn_quantum_bounds f1h) as (_ & Q8 & _).
      assert (Hnext : to_uint16 (o + fragn_paysize f1h buflen o) < buflen).
      { inversion R; subst; [cbn in Hk; lia|assumption]. }
      rewrite to_uint16_small in Hnext by lia.
      assert (Hq : fragn_paysize f1h buflen o = fragn_quantum f1h).
      { rewrite fragn_paysize_val in * by lia. lia. }
      rewrite Hl, Hq, to_uint16_mod8.
      rewrite <- Zplus_mod_idemp_l, Q8. reflexivity.
    + cbn [nth_error] in Hg. cbn [length] in Hk. apply (IH k g Hg). lia.
Qed.

(** The 8-bit and 16-bit header cursors keep the remainder by 8 of the
    header lengths they stand for. *)
Lemma frag_hdrlen_mod8 (g : scratch) :
  frag1_hdrlen_of g mod 8 = (g_frame_hdrlen g + 4) mod 8 /\
  fragn_hdrlen_of (frag1_hdrlen_of g) mod 8 = (g_frame_hdrlen g + 5) mod 8.
Proof.
  assert (A : frag1_hdrlen_of g mod 8 = (g_frame_hdrlen g + 4) mod 8).
  { unfold frag1_hdrlen_of, to_uint8, SIXLOWPAN_FRAG1_HDR_LEN.
    apply mod256_mod8. }
  split; [exact A|].
  unfold fragn_hdrlen_of, SIXLOWPAN_FRAG1_HDR_LEN, SIXLOWPAN_FRAGN_HDR_LEN.
  rewrite to_uint16_mod8.
  rewrite <- Zplus_mod_idemp_l, to_uint16_mod8.
  rewrite Zplus_mod_idemp_l.
  replace (frag1_hdrlen_of g - 4 + 5) with (frag1_hdrlen_of g + 1) by lia.
  rewrite <- Zplus_mod_idemp_l, A, Zplus_mod_idemp_l.
  f_equal. lia.
Qed.

(** C4, amended: in a fragmented output every fragment but the last carries
    a multiple of 8 payload bytes; and when the datagram has at most 2048
    payload bytes and the 8-bit header cursor does not wrap (the MAC header
    is no longer than the frame header, which with the FRAG1 header stays
    within 255), the offset byte of every FRAGN is the number of payload
    bytes carried by the fragments before it, divided by 8. *)
Theorem fragment_alignment_and_offsets (fuel : nat) (st : netstate)
    (destip buf : bytes) (buflen : Z) (destmac : option rimeaddr_s)
    (mac hdr unc : Z) (st' : netstate) :
  headers_of st destip buflen destmac = Some (mac, hdr, unc) ->
  send_fragments st destip buflen destmac = true ->
  sixlowpan_queue_frames cfg ext fuel st destip buf buflen destmac = Done (OK, st') ->
  let frames := i_framelist (net_ieee st') in
  let pays := frame_payloads hdr frames in
  forall k f,
    nth_error frames k = Some f ->
    ((S k < length frames)%nat -> nth k pays 0 mod 8 = 0) /\
    ((0 < k)%nat ->
     mac <= hdr -> hdr + SIXLOWPAN_FRAG1_HDR_LEN <= 255 -> buflen <= 2048 ->
     frag_offset mac f = sumZ (firstn k pays) / 8).
Proof.
  intros Hh Hs H. unfold headers_of, send_fragments in *.
  destruct (queue_headers cfg ext st destip buflen destmac) as [r| |] eqn:E;
    try discriminate.
  destruct r as [[e s1]|[[[iob panid] mac'] s1]]; [discriminate|].
  injection Hh as -> <- <-.
  pose proof (queue_headers_inv _ _ _ _ _ E) as (_ & M0 & Hi & _).
  destruct (queue_frames_cases _ _ _ _ _ _ _ _ _ _ _ _ E H)
    as [(N & _ & _ & o & F)|[(_ & _ & C & _)|(N & _ & S)]];
    [|discriminate C|congruence].
  apply queue_fragments_inv in F.
  destruct F as (f1 & fs & -> & F1 & R & _).
  pose proof (frag_hdrlen_mod8 (net_scratch s1)) as (M1 & Mn).
  assert (Hb16 : buflen <= 65535).
  { apply (fragn_run_buflen _ _ _ _ _ _ _ _ _ R).
    unfold frag1_paysize. apply to_uint16_range. }
  pose proof (frag1_paysize_bounds (net_scratch s1)) as (P8 & _).
  intros [|k] f Hf; split.
  - intros _. cbn [frame_payloads nth]. unfold frag1_payload.
    destruct F1 as (Hl & _). rewrite Hl.
    rewrite Zminus_mod, to_uint16_mod8.
    rewrite <- Zplus_mod_idemp_l, P8. cbn [Z.add].
    unfold SIXLOWPAN_FRAG1_HDR_LEN. rewrite M1, Z.sub_diag. reflexivity.
  - lia.
  - intros Hk. cbn [nth_error] in Hf. cbn [frame_payloads nth length] in *.
    rewrite (nth_error_nth _ _ 0 (map_nth_error _ _ _ Hf)).
    unfold fragn_payload, SIXLOWPAN_FRAGN_HDR_LEN.
    rewrite Zminus_mod.
    rewrite (fragn_run_aligned _ _ _ _ _ _ _ _ _ R Hb16 k f Hf) by lia.
    rewrite Mn, Z.sub_diag. reflexivity.
  - intros _ Hm Hw Hb. unfold SIXLOWPAN_FRAG1_HDR_LEN in Hw.
    destruct (frag1_payload_val _ _ _ _ _ _ F1) as (V & P & _); try lia.
    rewrite frag1_hdrlen_of_val in R by lia.
    destruct (fragn_run_layout _ _ _ _ _ _ _ _ _ R) as (_ & _ & L); try lia.
    cbn [nth_error] in Hf. specialize (L k f Hf). cbn zeta in L.
    destruct L as (L1 & L2 & L3 & _).
    cbn [frame_payloads firstn sumZ fold_right].
    fold (sumZ (firstn k (map (fragn_payload (g_frame_hdrlen (net_scratch s1))) fs))).
    rewrite V, L3.
    rewrite Z.shiftr_div_pow2 by lia. change (2 ^ 3) with 8.
    apply to_uint8_small.
    set (start := frag1_paysize (net_scratch s1) + _) in *.
    split; [apply Z.div_pos; lia|].
    assert (start / 8 < 256); [|lia].
    apply Z.div_lt_upper_bound; lia.
Qed.

(** ** The fragmented path runs to completion *)

Lemma queue_frag1_total (st : netstate) (iob : iob_s) (mac panid : Z)
    (buf : bytes) (buflen : Z) :
  let g := net_scratch st in
  0 <= mac <= g_frame_hdrlen g ->
  g_frame_hdrlen g + 4 <= 255 ->
  g_frame_hdrlen g + 4 <= FRAMELEN ->
  FRAMELEN <= BUFSIZE ->
  FRAMELEN - g_frame_hdrlen g < buflen ->
  exists r, queue_frag1 cfg ext st iob mac panid buf buflen = Done r.
Proof.
  intros g Hm Hw Hf Hc Hb. subst g. unfold queue_frag1.
  destruct (sixlowpan_framecreate ext _ _ _ _) as [fptr verify].
  unfold SIXLOWPAN_FRAG1_HDR_LEN, RIME_FRAG_DISPATCH_SIZE, RIME_FRAG_TAG.
  rewrite to_size_t_small by lia.
  rewrite memcpy_ok by lia. cbn [bind].
  edestruct PUTINT16_ok as (d1 & ->); [| |cbn [bind]]; try lia.
  edestruct PUTINT16_ok as (d2 & ->); [| |cbn [bind]]; try lia.
  cbn [set_frame_hdrlen g_frame_hdrlen].
  rewrite (to_uint8_small (g_frame_hdrlen (net_scratch st) + 4)) by lia.
  pose proof (land_lnot7_bounds (FRAMELEN - (g_frame_hdrlen (net_scratch st) + 4)))
    as (B & _).
  assert (0 <= Z.land (FRAMELEN - (g_frame_hdrlen (net_scratch st) + 4)) (Z.lnot 7)).
  { apply Z.land_nonneg. left. lia. }
  pose proof (to_uint16_range
    (Z.land (FRAMELEN - (g_frame_hdrlen (net_scratch st) + 4)) (Z.lnot 7))).
  pose proof (to_uint16_le
    (Z.land (FRAMELEN - (g_frame_hdrlen (net_scratch st) + 4)) (Z.lnot 7))).
  rewrite memcpy_ok by lia. cbn [bind].
  eexists. reflexivity.
Qed.

Lemma queue_fragn_total (st : netstate) (mac pktlen outlen : Z) (frame1 : bytes)
    (hdr : Z) (buf : bytes) (buflen : Z) :
  0 <= mac <= hdr -> hdr + 4 <= 255 ->
  hdr + 5 <= FRAMELEN -> 0 < fragn_quantum (hdr + 4) -> FRAMELEN <= BUFSIZE ->
  0 <= outlen < buflen -> buflen <= 65535 ->
  exists r,
    queue_fragn cfg ext st mac pktlen outlen frame1 (hdr + 4) buf buflen = Done r.
Proof.
  intros Hm Hw Hf Hq Hc Ho Hb. unfold queue_fragn.
  cbn [new_iob net_scratch net_ieee net_iobs].
  destruct (sixlowpan_framecreate ext _ _ _ _) as [fptr verify].
  assert (Hfh : fragn_hdrlen_of (hdr + 4) = hdr + 5).
  { rewrite fragn_hdrlen_of_val by lia. lia. }
  pose proof (fragn_quantum_bounds (hdr + 4)) as (Q0 & Q8 & Q1).
  rewrite Hfh in Q1. specialize (Q1 Hf).
  assert (Q : 8 <= fragn_quantum (hdr + 4)).
  { pose proof (Z.div_mod (fragn_quantum (hdr + 4)) 8 ltac:(lia)). lia. }
  pose proof (fragn_paysize_val (hdr + 4) buflen outlen ltac:(lia) ltac:(lia)) as P.
  fold (fragn_hdrlen_of (hdr + 4)).
  fold (fragn_quantum (hdr + 4)).
  fold (fragn_paysize (hdr + 4) buflen outlen).
  rewrite Hfh, P.
  unfold SIXLOWPAN_FRAG1_HDR_LEN, SIXLOWPAN_FRAGN_HDR_LEN,
    RIME_FRAG_DISPATCH_SIZE, RIME_FRAG_TAG, RIME_FRAG_OFFSET.
  rewrite to_size_t_small by lia.
  rewrite memcpy_ok by lia. cbn [bind].
  edestruct PUTINT16_ok as (d1 & ->); [| |cbn [bind]]; try lia.
  edestruct PUTINT16_ok as (d2 & ->); [| |cbn [bind]]; try lia.
  rewrite store_ok by lia. cbn [bind].
  rewrite memcpy_ok by lia. cbn [bind].
  eexists. reflexivity.
Qed.

Lemma queue_fragn_loop_total (mac pktlen : Z) (frame1 : bytes) (hdr : Z)
    (buf : bytes) (buflen : Z) :
  0 <= mac <= hdr -> hdr + 4 <= 255 ->
  hdr + 5 <= FRAMELEN -> 0 < fragn_quantum (hdr + 4) -> FRAMELEN <= BUFSIZE ->
  buflen <= 65535 ->
  forall (fuel : nat) (st : netstate) (outlen : Z),
  0 <= outlen <= buflen ->
  (Z.to_nat (buflen - outlen) <= fuel)%nat ->
  exists r,
    queue_fragn_loop cfg ext fuel st mac pktlen outlen frame1 (hdr + 4) buf buflen =
    Done r.
Proof.
  intros Hm Hw Hf Hq Hc Hb.
  induction fuel as [|fuel IH]; intros st outlen Ho Hfuel;
    cbn [queue_fragn_loop].
  - destruct (Z.ltb_spec outlen buflen); [lia|]. eexists. reflexivity.
  - destruct (Z.ltb_spec outlen buflen); [|eexists; reflexivity].
    destruct (queue_fragn_total st mac pktlen outlen frame1 hdr buf buflen)
      as ([st1 o1] & E); try lia.
    rewrite E. cbn [bind].
    apply queue_fragn_inv in E. destruct E as (f & _ & -> & _ & _ & P & _).
    pose proof (fragn_paysize_val (hdr + 4) buflen outlen ltac:(lia) ltac:(lia)) as V.
    rewrite to_uint16_small by lia.
    apply IH; lia.
Qed.


Lemma needs_fragmentation_true (buflen : Z) (g : scratch) :
  g_frame_hdrlen g <= FRAMELEN -> FRAMELEN - g_frame_hdrlen g < buflen ->
  needs_fragmentation cfg buflen g = true.
Proof.
  intros H0 H1. unfold needs_fragmentation. apply Z.ltb_lt.
  pose proof (to_size_t_le (FRAMELEN - g_frame_hdrlen g)). lia.
Qed.

Lemma queue_fragments_total (fuel : nat) (st : netstate) (iob : iob_s)
    (mac panid : Z) (buf : bytes) (buflen : Z) :
  let hdr := g_frame_hdrlen (net_scratch st) in
  0 <= mac <= hdr -> hdr + 4 <= 255 ->
  hdr + 5 <= FRAMELEN -> 0 < fragn_quantum (hdr + 4) -> FRAMELEN <= BUFSIZE ->
  FRAMELEN - hdr < buflen -> buflen <= 65535 - 255 ->
  (Z.to_nat buflen <= fuel)%nat ->
  exists st',
    queue_fragments cfg ext fuel st iob mac panid buf buflen = Done (st', buflen).
Proof.
  intros hdr Hm Hw Hf Hq Hc Hbig Hb Hfuel. subst hdr.
  destruct (queue_frag1_total st iob mac panid buf buflen)
    as ([[[[st1 pktlen] o1] frame1] f1h] & E1); try lia.
  pose proof (queue_frag1_inv _ _ _ _ _ _ _ _ _ _ _ E1) as I1.
  destruct I1 as (f1 & Est & Hd & Hl & _ & Ef & _ & Eo & _ & (Ho & _) & _).
  unfold SIXLOWPAN_FRAG1_HDR_LEN in Ef.
  rewrite to_uint8_small in Ef by lia. subst f1h.
  assert (0 <= o1) by (rewrite Eo; apply to_uint16_range).
  destruct (queue_fragn_loop_total mac pktlen frame1
              (g_frame_hdrlen (net_scratch st)) buf buflen
              Hm Hw Hf Hq Hc ltac:(lia) fuel st1 o1)
    as ([st2 o2] & E2); try lia.
  pose proof E2 as I2.
  eapply queue_fragn_loop_inv in I2;
    [|rewrite Est; cbn [net_ieee set_framelist i_framelist]; reflexivity].
  destruct I2 as (h' & fs & _ & _ & _ & _ & _ & _ & _ & R).
  apply fragn_run_layout in R; try lia.
  destruct R as (_ & -> & _).
  unfold queue_fragments. rewrite E1. cbn [bind]. rewrite E2. cbn [bind].
  eexists. reflexivity.
Qed.


(** ** Sends through the IPv6 dispatch *)

Lemma queue_compress_dispatch (ieee : ieee802154_driver_s) (destip : bytes)
    (buflen : Z) (destmac : rimeaddr_s) (g : scratch) (fptr : bytes) :
  ipv6_dispatch_selected buflen ->
  queue_compress cfg ext ieee destip buflen destmac g fptr =
  sixlowpan_compress_ipv6hdr cfg destip g fptr.
Proof.
  intros [H|H]; unfold queue_compress.
  - rewrite H. reflexivity.
  - replace (CONFIG_NET_6LOWPAN_COMPRESSION_THRESHOLD cfg <=? buflen) with false
      by (symmetry; apply Z.leb_gt; exact H).
    rewrite andb_false_r. reflexivity.
Qed.

(** The header stage of a send through the IPv6 dispatch. *)
Lemma queue_headers_dispatch (st : netstate) (destip : bytes) (buflen : Z)
    (destmac : option rimeaddr_s) :
  let mac := framer_hdrlen_query st destip destmac in
  let ps := dispatch_protosize destip in
  ipv6_dispatch_selected buflen ->
  0 <= mac -> mac + 1 + IPv6_HDRLEN + ps <= 255 ->
  mac + 1 + IPv6_HDRLEN + ps <= BUFSIZE ->
  exists iob panid st1,
    queue_headers cfg ext st destip buflen destmac = Done (inr (iob, panid, mac, st1)) /\
    g_frame_hdrlen (net_scratch st1) = mac + 1 + IPv6_HDRLEN + ps /\
    g_uncomp_hdrlen (net_scratch st1) = IPv6_HDRLEN + ps /\
    io_data iob mac = SIXLOWPAN_DISPATCH_IPV6 /\
    (forall i, 0 <= i < IPv6_HDRLEN -> io_data iob (mac + 1 + i) = destip i) /\
    (forall i, 0 <= i < ps ->
       io_data iob (mac + 1 + IPv6_HDRLEN + i) = destip (IPv6_HDRLEN + i)).
Proof.
  intros mac ps Hsel H0 H1 H2.
  pose proof (dispatch_protosize_range destip) as Hp. fold ps in Hp.
  unfold IPv6_HDRLEN in *.
  subst mac. unfold queue_headers, framer_hdrlen_query in *.
  pose proof (queue_setup_frame st destip destmac) as S.
  destruct (queue_setup cfg ext st destip destmac) as [[[iob dm] panid] s1].
  destruct S as (_ & _ & Su & _).
  set (mac := sixlowpan_send_hdrlen ext (net_scratch s1) (net_ieee s1) panid) in *.
  replace (mac <? 0) with false by (symmetry; apply Z.ltb_ge; lia).
  rewrite queue_compress_dispatch by exact Hsel.
  set (g0 := set_frame_hdrlen (net_scratch s1) mac).
  assert (G0 : g_frame_hdrlen g0 = mac).
  { subst g0. cbn. apply to_uint8_small. lia. }
  assert (U0 : g_uncomp_hdrlen g0 = 0) by (subst g0; cbn; exact Su).
  rewrite compress_ipv6hdr_run;
    fold ps; rewrite ?G0, ?U0; unfold IPv6_HDRLEN; try lia.
  cbn [bind]. do 3 eexists. split; [reflexivity|].
  cbn [net_scratch dispatch_scratch g_frame_hdrlen g_uncomp_hdrlen
       set_io_data io_data].
  rewrite G0, U0. fold ps. unfold IPv6_HDRLEN.
  split; [reflexivity|]. split; [reflexivity|].
  unfold dispatch_frame. rewrite G0, U0. unfold IPv6_HDRLEN.
  fold (dispatch_protosize destip) in ps.
  assert (Eps : ps = match protosize_of cfg destip with Some p => p | None => 0 end)
    by reflexivity.
  destruct (protosize_of cfg destip) as [p|].
  - subst p. split; [|split].
    + rewrite !blit_out by lia. rewrite poke_eq. reflexivity.
    + intros i Hi. rewrite blit_out by lia. rewrite blit_in by lia.
      f_equal. lia.
    + intros i Hi. rewrite blit_in by lia. f_equal. lia.
  - split; [|split].
    + rewrite blit_out by lia. rewrite poke_eq. reflexivity.
    + intros i Hi. rewrite blit_in by lia. f_equal. lia.
    + intros i Hi. lia.
Qed.

Lemma queue_single_total (st : netstate) (iob : iob_s) (panid : Z)
    (buf : bytes) (buflen : Z) :
  let g := net_scratch st in
  0 <= g_frame_hdrlen g -> 0 <= buflen ->
  g_frame_hdrlen g + buflen <= BUFSIZE ->
  exists st', queue_single cfg ext st iob panid buf buflen = Done st'.
Proof.
  intros g H0 H1 H2. subst g. unfold queue_single.
  destruct (sixlowpan_framecreate ext _ _ _ _) as [fptr verify].
  rewrite memcpy_ok by lia. cbn [bind]. eexists. reflexivity.
Qed.

(** A send succeeds whenever the headers leave room: the whole datagram in
    one frame, or, with fragmentation compiled in, a non-zero FRAGN payload
    quantum. *)
Lemma queue_frames_total (fuel : nat) (st : netstate) (destip buf : bytes)
    (buflen : Z) (destmac : option rimeaddr_s) (mac hdr unc : Z) :
  headers_of st destip buflen destmac = Some (mac, hdr, unc) ->
  mac <= hdr -> FRAMELEN <= BUFSIZE -> BUFSIZE <= 65535 ->
  0 <= buflen <= 65535 - 255 ->
  buflen <= FRAMELEN - hdr \/
  (CONFIG_NET_6LOWPAN_FRAG cfg = true /\ hdr + 4 <= 255 /\ hdr + 5 <= FRAMELEN /\
   0 < Z.land (FRAMELEN - (hdr + 5)) SIXLOWPAN_DISPATCH_FRAG_MASK) ->
  (Z.to_nat buflen <= fuel)%nat ->
  exists st',
    sixlowpan_queue_frames cfg ext fuel st destip buf buflen destmac = Done (OK, st').
Proof.
  intros Hh Hm Hc Hc' Hb Hroom Hfuel. unfold headers_of in Hh.
  destruct (queue_headers cfg ext st destip buflen destmac) as [r| |] eqn:E;
    try discriminate.
  destruct r as [[e s1]|[[[iob panid] mac'] s1]]; [discriminate|].
  injection Hh as -> <- <-.
  pose proof (queue_headers_inv _ _ _ _ _ E) as (_ & M0 & _).
  set (g := net_scratch s1) in *.
  unfold sixlowpan_queue_frames. rewrite E. cbn [bind]. fold g.
  destruct (needs_fragmentation cfg buflen g) eqn:N.
  - unfold needs_fragmentation in N. apply Z.ltb_lt in N.
    destruct Hroom as [Hfit|(Hfrag & Hw & Hf & Hq)].
    + rewrite to_size_t_small in N by lia. lia.
    + rewrite to_size_t_small in N by lia.
      rewrite Hfrag.
      destruct (queue_fragments_total fuel s1 iob mac panid buf buflen)
        as (st' & F); try (fold g; lia).
      { fold g. rewrite fragn_quantum_val, fragn_hdrlen_of_val by lia.
        replace (g_frame_hdrlen g + 4 + 1) with (g_frame_hdrlen g + 5) by lia.
        exact Hq. }
      rewrite F. cbn [bind]. eexists. reflexivity.
  - unfold needs_fragmentation in N. apply Z.ltb_ge in N.
    assert (Hfit : g_frame_hdrlen g + buflen <= FRAMELEN).
    { destruct Hroom as [Hfit|(_ & _ & Hf & _)]; [lia|].
      pose proof (to_size_t_le (FRAMELEN - g_frame_hdrlen g)). lia. }
    destruct (queue_single_total s1 iob panid buf buflen) as (st' & S);
      try (fold g; lia).
    rewrite S. cbn [bind]. eexists. reflexivity.
Qed.

(** The one frame of a send through the IPv6 dispatch that needs no
    fragmentation: MAC header, dispatch byte, IPv6 header, protocol header,
    payload.  The frame encoder is taken to write the MAC header only. *)
Lemma single_frame_layout (fuel : nat) (st : netstate) (destip buf : bytes)
    (buflen : Z) (destmac : option rimeaddr_s) :
  let mac := framer_hdrlen_query st destip destmac in
  let ps := dispatch_protosize destip in
  let hdr := mac + 1 + IPv6_HDRLEN + ps in
  ipv6_dispatch_selected buflen ->
  (forall g ieee d panid j,
     mac <= j -> fst (sixlowpan_framecreate ext g ieee d panid) j = d j) ->
  0 <= mac -> hdr <= 255 -> FRAMELEN <= BUFSIZE -> BUFSIZE <= 65535 ->
  0 <= buflen <= FRAMELEN - hdr ->
  exists st' f,
    sixlowpan_queue_frames cfg ext fuel st destip buf buflen destmac = Done (OK, st') /\
    i_framelist (net_ieee st') = [f] /\
    i_dgramtag (net_ieee st') = i_dgramtag (net_ieee st) /\
    io_len f = hdr + buflen /\ io_pktlen f = hdr + buflen /\
    io_data f mac = SIXLOWPAN_DISPATCH_IPV6 /\
    (forall i, 0 <= i < IPv6_HDRLEN -> io_data f (mac + 1 + i) = destip i) /\
    (forall i, 0 <= i < ps ->
       io_data f (mac + 1 + IPv6_HDRLEN + i) = destip (IPv6_HDRLEN + i)) /\
    (forall i, 0 <= i < buflen -> io_data f (hdr + i) = buf i).
Proof.
  intros mac ps hdr Hsel Henc H0 H1 Hc Hc' Hb.
  pose proof (dispatch_protosize_range destip) as Hp. fold ps in Hp.
  destruct (queue_headers_dispatch st destip buflen destmac Hsel)
    as (iob & panid & s1 & E & G & U & D0 & D1 & D2);
    fold mac; fold ps; fold hdr; try lia.
  fold mac ps in E, G, U, D0, D1, D2. fold hdr in G.
  assert (Hhdr : mac + 41 <= hdr) by (unfold hdr, IPv6_HDRLEN; lia).
  pose proof (queue_headers_inv _ _ _ _ _ E) as (_ & _ & Hi & _).
  assert (N : needs_fragmentation cfg buflen (net_scratch s1) = false).
  { unfold needs_fragmentation. rewrite G. apply Z.ltb_ge.
    rewrite to_size_t_small by lia. lia. }
  destruct (queue_single_total s1 iob panid buf buflen) as (st' & S);
    try (rewrite ?G; lia).
  pose proof (queue_single_inv _ _ _ _ _ _ S) as I.
  destruct I as (f & -> & L & K & _ & C & B). rewrite G in *.
  exists (mk_net (net_scratch s1) (set_framelist (net_ieee s1) [f]) (net_iobs s1)), f.
  split.
  { unfold sixlowpan_queue_frames. rewrite E. cbn [bind]. rewrite N, S.
    reflexivity. }
  cbn [net_ieee set_framelist i_framelist i_dgramtag].
  rewrite to_uint16_small in L by lia.
  replace (buflen + hdr) with (hdr + buflen) in L by lia.
  split; [reflexivity|]. split; [rewrite Hi; reflexivity|].
  split; [exact L|]. split; [rewrite K; exact L|].
  unfold IPv6_HDRLEN in *.
  split; [rewrite B, Henc by lia; exact D0|].
  split; [intros i Hr; rewrite B, Henc by lia; apply D1; exact Hr|].
  split; [intros i Hr; rewrite B, Henc by lia; apply D2; exact Hr|].
  exact C.
Qed.

Lemma protosize_of_tcp (ipv6hdr : bytes) :
  CONFIG_NET_TCP cfg = true ->
  to_uint8 (ipv6hdr ipv6_proto_off) = IP_PROTO_TCP ->
  protosize_of cfg ipv6hdr =
  Some (Z.shiftl (Z.shiftr (to_uint8 (ipv6hdr (IPv6_HDRLEN + tcp_tcpoffset_off))) 4) 2).
Proof.
  intros Hc Hp. unfold protosize_of. cbv zeta. rewrite Hc, Hp.
  cbn [andb Z.eqb IP_PROTO_TCP Pos.eqb]. f_equal.
  apply to_uint16_small.
  pose proof (tcp_protosize_range _
                (to_uint8_range (ipv6hdr (IPv6_HDRLEN + tcp_tcpoffset_off)))).
  lia.
Qed.

Lemma protosize_of_udp (ipv6hdr : bytes) :
  CONFIG_NET_UDP cfg = true ->
  to_uint8 (ipv6hdr ipv6_proto_off) = IP_PROTO_UDP ->
  protosize_of cfg ipv6hdr = Some UDP_HDRLEN.
Proof.
  intros Hc Hp. unfold protosize_of. cbv zeta. rewrite Hc, Hp.
  cbn. rewrite andb_false_r. reflexivity.
Qed.

Lemma protosize_of_icmp6 (ipv6hdr : bytes) :
  CONFIG_NET_ICMPv6 cfg = true ->
  to_uint8 (ipv6hdr ipv6_proto_off) = IP_PROTO_ICMP6 ->
  protosize_of cfg ipv6hdr = Some ICMPv6_HDRLEN.
Proof.
  intros Hc Hp. unfold protosize_of. cbv zeta. rewrite Hc, Hp.
  cbn. rewrite !andb_false_r. reflexivity.
Qed.

Lemma protosize_of_other (ipv6hdr : bytes) :
  to_uint8 (ipv6hdr ipv6_proto_off) <> IP_PROTO_TCP ->
  to_uint8 (ipv6hdr ipv6_proto_off) <> IP_PROTO_UDP ->
  to_uint8 (ipv6hdr ipv6_proto_off) <> IP_PROTO_ICMP6 ->
  protosize_of cfg ipv6hdr = None.
Proof.
  intros H1 H2 H3. unfold protosize_of. cbv zeta.
  apply Z.eqb_neq in H1, H2, H3. rewrite H1, H2, H3.
  rewrite !andb_false_r. reflexivity.
Qed.

(** C7: for TCP, UDP and ICMPv6 the writer puts the dispatch byte 0x41 at
    [frame_hdrlen], the 40 bytes of the IPv6 header right after it and then
    [protosize] bytes of the input from where the IPv6 header ends (the
    protocol header: the queuer calls with [uncomp_hdrlen = 0]), with
    [protosize = (tcpoffset >> 4) << 2] for TCP and 8 for UDP and ICMPv6;
    [frame_hdrlen] advances by [1 + 40 + protosize] and [uncomp_hdrlen] by
    [40 + protosize].  The cursors are assumed not to wrap and the headers
    to fit the buffer. *)
Theorem compress_ipv6hdr_known_proto (ipv6hdr : bytes) (g : scratch)
    (fptr : bytes) (protosize : Z) :
  let proto := to_uint8 (ipv6hdr ipv6_proto_off) in
  let tcpoffset := to_uint8 (ipv6hdr (IPv6_HDRLEN + tcp_tcpoffset_off)) in
  (CONFIG_NET_TCP cfg = true /\ proto = IP_PROTO_TCP /\
   protosize = Z.shiftl (Z.shiftr tcpoffset 4) 2) \/
  (CONFIG_NET_UDP cfg = true /\ proto = IP_PROTO_UDP /\ protosize = 8) \/
  (CONFIG_NET_ICMPv6 cfg = true /\ proto = IP_PROTO_ICMP6 /\ protosize = 8) ->
  0 <= g_frame_hdrlen g ->
  g_frame_hdrlen g + 1 + 40 + protosize <= 255 ->
  g_frame_hdrlen g + 1 + 40 + protosize <= BUFSIZE ->
  0 <= g_uncomp_hdrlen g ->
  g_uncomp_hdrlen g + 40 + protosize <= 255 ->
  exists g' fptr',
    sixlowpan_compress_ipv6hdr cfg ipv6hdr g fptr = Done (g', fptr') /\
    fptr' (g_frame_hdrlen g) = 0x41 /\
    (forall i, 0 <= i < 40 -> fptr' (g_frame_hdrlen g + 1 + i) = ipv6hdr i) /\
    (forall i, 0 <= i < protosize ->
       fptr' (g_frame_hdrlen g + 1 + 40 + i) = ipv6hdr (g_uncomp_hdrlen g + 40 + i)) /\
    (forall j, j < g_frame_hdrlen g \/ g_frame_hdrlen g + 1 + 40 + protosize <= j ->
       fptr' j = fptr j) /\
    g_frame_hdrlen g' = g_frame_hdrlen g + (1 + 40 + protosize) /\
    g_uncomp_hdrlen g' = g_uncomp_hdrlen g + (40 + protosize).
Proof.
  intros proto tcpoffset Hproto H0 H1 H2 H3 H4.
  assert (Hps : protosize_of cfg ipv6hdr = Some protosize).
  { destruct Hproto as [(C & P & ->)|[(C & P & ->)|(C & P & ->)]].
    - apply protosize_of_tcp; assumption.
    - apply protosize_of_udp; assumption.
    - apply protosize_of_icmp6; assumption. }
  pose proof (protosize_of_range _ _ Hps) as Hr.
  pose proof (compress_ipv6hdr_run ipv6hdr g fptr) as R. cbv zeta in R.
  unfold dispatch_protosize, IPv6_HDRLEN in R. rewrite Hps in R.
  specialize (R H0 H1 H2 H3 H4).
  do 2 eexists. split; [exact R|].
  unfold dispatch_frame, dispatch_scratch, dispatch_protosize, IPv6_HDRLEN.
  rewrite Hps. cbn [g_frame_hdrlen g_uncomp_hdrlen].
  split; [rewrite !blit_out by lia; rewrite poke_eq; reflexivity|].
  split; [intros i Hi; rewrite blit_out by lia; rewrite blit_in by lia;
          f_equal; lia|].
  split; [intros i Hi; rewrite blit_in by lia; f_equal; lia|].
  split; [intros j Hj; rewrite !blit_out by lia; apply poke_neq; lia|].
  split; lia.
Qed.

(** C9: for a protocol other than TCP, UDP and ICMPv6 the writer stores the
    dispatch byte and the 40-byte IPv6 header and nothing else
    ([uncomp_hdrlen] ends at 40 from 0), and the queuer, sending through the
    IPv6 dispatch, still completes and returns OK: in one frame when the
    datagram fits, in fragments when fragmentation is compiled in and the
    headers leave a non-zero FRAGN payload quantum. *)
Theorem unknown_proto_still_sent (fuel : nat) (st : netstate)
    (destip buf : bytes) (buflen : Z) (destmac : option rimeaddr_s) :
  let proto := to_uint8 (destip ipv6_proto_off) in
  let mac := framer_hdrlen_query st destip destmac in
  let hdr := mac + 1 + 40 in
  proto <> IP_PROTO_TCP -> proto <> IP_PROTO_UDP -> proto <> IP_PROTO_ICMP6 ->
  (forall g fptr,
     0 <= g_frame_hdrlen g -> g_frame_hdrlen g + 1 + 40 <= 255 ->
     g_frame_hdrlen g + 1 + 40 <= BUFSIZE -> g_uncomp_hdrlen g = 0 ->
     exists g' fptr',
       sixlowpan_compress_ipv6hdr cfg destip g fptr = Done (g', fptr') /\
       fptr' (g_frame_hdrlen g) = 0x41 /\
       (forall i, 0 <= i < 40 -> fptr' (g_frame_hdrlen g + 1 + i) = destip i) /\
       (forall j, j < g_frame_hdrlen g \/ g_frame_hdrlen g + 1 + 40 <= j ->
          fptr' j = fptr j) /\
       g_frame_hdrlen g' = g_frame_hdrlen g + 1 + 40 /\
       g_uncomp_hdrlen g' = 40) /\
  (ipv6_dispatch_selected buflen ->
   0 <= mac -> hdr + 4 <= 255 ->
   FRAMELEN <= BUFSIZE -> BUFSIZE <= 65535 ->
   0 <= buflen <= 65535 - 255 ->
   buflen <= FRAMELEN - hdr \/
   (CONFIG_NET_6LOWPAN_FRAG cfg = true /\ hdr + 5 <= FRAMELEN /\
    0 < Z.land (FRAMELEN - (hdr + 5)) SIXLOWPAN_DISPATCH_FRAG_MASK) ->
   (Z.to_nat buflen <= fuel)%nat ->
   headers_of st destip buflen destmac = Some (mac, hdr, 40) /\
   exists st',
     sixlowpan_queue_frames cfg ext fuel st destip buf buflen destmac = Done (OK, st')).
Proof.
  intros proto mac hdr P1 P2 P3.
  pose proof (protosize_of_other destip P1 P2 P3) as Hps.
  assert (Hd : dispatch_protosize destip = 0)
    by (unfold dispatch_protosize; rewrite Hps; reflexivity).
  split.
  - intros g fptr H0 H1 H2 H3.
    pose proof (compress_ipv6hdr_run destip g fptr) as R. cbv zeta in R.
    rewrite Hd in R. unfold IPv6_HDRLEN in R.
    specialize (R H0 ltac:(lia) ltac:(lia) ltac:(lia) ltac:(lia)).
    do 2 eexists. split; [exact R|].
    unfold dispatch_frame, dispatch_scratch, IPv6_HDRLEN.
    rewrite Hps, Hd. cbn [g_frame_hdrlen g_uncomp_hdrlen].
    split; [rewrite blit_out by lia; rewrite poke_eq; reflexivity|].
    split; [intros i Hi; rewrite blit_in by lia; f_equal; lia|].
    split; [intros j Hj; rewrite blit_out by lia; apply poke_neq; lia|].
    split; lia.
  - intros Hsel H0 Hw Hc Hc' Hb Hroom Hfuel.
    assert (Hfit : hdr <= FRAMELEN) by (destruct Hroom; lia).
    destruct (queue_headers_dispatch st destip buflen destmac Hsel)
      as (iob & panid & s1 & E & G & U & _);
      fold mac; rewrite ?Hd; unfold IPv6_HDRLEN; try (subst hdr; lia).
    fold mac in E, G, U. rewrite Hd in G, U. unfold IPv6_HDRLEN in G, U.
    assert (Hh : headers_of st destip buflen destmac = Some (mac, hdr, 40)).
    { unfold headers_of. rewrite E, G, U. subst hdr. do 3 f_equal. lia. }
    split; [exact Hh|].
    eapply queue_frames_total; try exact Hh; try lia.
    destruct Hroom as [F|(F1 & F2 & F3)]; [left; exact F|right].
    repeat split; try assumption.
Qed.

(** C6, amended: with a frame capacity of 127, an 11-byte MAC header and the
    IPv6 dispatch, a UDP datagram whose [buf] holds the 20 payload bytes
    alone (the IPv6 and UDP headers being those behind the header pointer)
    goes out as one frame of 80 bytes with [io_pktlen] 80: after the MAC
    header come the dispatch byte 0x41, the 40-byte IPv6 header, the 8-byte
    UDP header and the 20 bytes of [buf], with no fragment header, and the
    datagram tag is not consumed.  The frame encoder is taken to write the
    11 bytes of MAC header only. *)
Theorem udp_20_bytes_one_frame (fuel : nat) (st : netstate)
    (destip buf : bytes) (destmac : option rimeaddr_s) :
  FRAMELEN = 127 -> 127 <= BUFSIZE -> BUFSIZE <= 65535 ->
  ipv6_dispatch_selected 20 ->
  CONFIG_NET_UDP cfg = true ->
  to_uint8 (destip ipv6_proto_off) = IP_PROTO_UDP ->
  framer_hdrlen_query st destip destmac = 11 ->
  (forall g ieee d panid j,
     11 <= j -> fst (sixlowpan_framecreate ext g ieee d panid) j = d j) ->
  exists st' f,
    sixlowpan_queue_frames cfg ext fuel st destip buf 20 destmac = Done (OK, st') /\
    i_framelist (net_ieee st') = [f] /\
    io_len f = 80 /\ io_pktlen f = 80 /\
    i_dgramtag (net_ieee st') = i_dgramtag (net_ieee st) /\
    io_data f 11 = 0x41 /\
    (forall i, 0 <= i < 40 -> io_data f (12 + i) = destip i) /\
    (forall i, 0 <= i < 8 -> io_data f (52 + i) = destip (40 + i)) /\
    (forall i, 0 <= i < 20 -> io_data f (60 + i) = buf i).
Proof.
  intros HF Hc Hc' Hsel Hudp Hproto Hmac Henc.
  pose proof (protosize_of_udp destip Hudp Hproto) as Hps.
  assert (Hd : dispatch_protosize destip = 8)
    by (unfold dispatch_protosize; rewrite Hps; reflexivity).
  pose proof (single_frame_layout fuel st destip buf 20 destmac) as L.
  cbv zeta in L. rewrite Hmac, Hd, HF in L. unfold IPv6_HDRLEN in L.
  destruct (L Hsel Henc) as (st' & f & R & Fl & T & Ln & Pk & D0 & D1 & D2 & D3);
    try lia.
  exists st', f.
  split; [exact R|]. split; [exact Fl|].
  split; [rewrite Ln; reflexivity|]. split; [rewrite Pk; reflexivity|].
  split; [exact T|]. split; [exact D0|].
  split; [intros i Hi; rewrite <- D1 by lia; f_equal; lia|].
  split; [intros i Hi; rewrite <- D2 by lia; f_equal; lia|].
  intros i Hi. rewrite <- D3 by lia. f_equal.
Qed.

(** ** When the headers leave no room

    With [(FRAMELEN - fragn_hdrlen) & 0xf8 = 0] a pass through the loop
    body copies nothing and leaves [outlen] where it was: the loop never
    reaches [outlen >= buflen]. *)

Lemma zero_quantum_loop_never_ends (mac pktlen : Z) (frame1 : bytes) (f1h : Z)
    (buf : bytes) (buflen : Z) :
  fragn_quantum f1h = 0 ->
  forall (fuel : nat) (st : netstate) (outlen : Z) (r : netstate * Z),
  0 <= outlen <= 65535 -> outlen < buflen ->
  queue_fragn_loop cfg ext fuel st mac pktlen outlen frame1 f1h buf buflen <> Done r.
Proof.
  intros Hq. induction fuel as [|fuel IH]; intros st outlen r Ho Hlt;
    cbn [queue_fragn_loop];
    replace (outlen <? buflen) with true by (symmetry; apply Z.ltb_lt; exact Hlt).
  - discriminate.
  - destruct (queue_fragn cfg ext st mac pktlen outlen frame1 f1h buf buflen)
      as [[st1 o1]| |] eqn:E; cbn [bind]; try discriminate.
    apply queue_fragn_inv in E. destruct E as (f & _ & -> & _).
    assert (P : fragn_paysize f1h buflen outlen = 0).
    { unfold fragn_paysize. rewrite Hq.
      pose proof (to_size_t_range (buflen - outlen)).
      destruct (Z.ltb_spec (to_size_t (buflen - outlen)) 0); [lia|reflexivity]. }
    rewrite P, Z.add_0_r, to_uint16_small by lia.
    apply IH; assumption.
Qed.

Lemma zero_quantum_never_sent (st : netstate) (destip buf : bytes) (buflen : Z)
    (destmac : option rimeaddr_s) (mac hdr unc : Z) :
  CONFIG_NET_6LOWPAN_FRAG cfg = true ->
  headers_of st destip buflen destmac = Some (mac, hdr, unc) ->
  0 <= hdr -> hdr + 4 <= 255 -> hdr + 4 <= FRAMELEN ->
  FRAMELEN - hdr < buflen ->
  Z.land (FRAMELEN - (hdr + 5)) SIXLOWPAN_DISPATCH_FRAG_MASK = 0 ->
  forall fuel r,
    sixlowpan_queue_frames cfg ext fuel st destip buf buflen destmac <> Done r.
Proof.
  intros Hfrag Hh H0 Hw Hf Hbig Hq fuel [rc st'] H. unfold headers_of in Hh.
  destruct (queue_headers cfg ext st destip buflen destmac) as [r| |] eqn:E;
    try discriminate.
  destruct r as [[e s1]|[[[iob panid] mac'] s1]]; [discriminate|].
  injection Hh as -> <- <-.
  set (g := net_scratch s1) in *.
  pose proof (needs_fragmentation_true buflen g ltac:(lia) Hbig) as N.
  destruct (queue_frames_cases _ _ _ _ _ _ _ _ _ _ _ _ E H)
    as [(_ & _ & _ & o & F)|[(_ & C & _)|(C & _)]];
    [|congruence|fold g in C; congruence].
  unfold queue_fragments in F.
  bind_inv F. destruct a as [[[[st1 pktlen] o1] frame1] f1h].
  bind_inv F. destruct a as [st2 o2].
  apply queue_frag1_inv in E0.
  destruct E0 as (f1 & _ & _ & _ & _ & Ef & _ & Eo & _).
  fold g in Ef, Eo. unfold SIXLOWPAN_FRAG1_HDR_LEN in Ef.
  rewrite to_uint8_small in Ef by lia. subst f1h.
  pose proof (land_lnot7_bounds (FRAMELEN - (g_frame_hdrlen g + 4))) as (B & _).
  assert (0 <= Z.land (FRAMELEN - (g_frame_hdrlen g + 4)) (Z.lnot 7)).
  { apply Z.land_nonneg. left. lia. }
  pose proof (to_uint16_range
    (Z.land (FRAMELEN - (g_frame_hdrlen g + 4)) (Z.lnot 7))).
  pose proof (to_uint16_le
    (Z.land (FRAMELEN - (g_frame_hdrlen g + 4)) (Z.lnot 7))).
  eapply zero_quantum_loop_never_ends; [| | |exact E1]; try lia.
  rewrite fragn_quantum_val, fragn_hdrlen_of_val by lia.
  replace (g_frame_hdrlen g + 4 + 1) with (g_frame_hdrlen g + 5) by lia.
  exact Hq.
Qed.

End Properties.

(** * The properties at work on the concrete link *)



(** The 200-byte datagram again: four frames, none longer than 127. *)
Lemma frames_fit_capacity_witness :
  exists st',
    sixlowpan_queue_frames scenario_cfg (scenario_ext 11) 200 scenario_state
      udp_datagram_hdr scenario_payload 200 None = Done (OK, st') /\
    Forall (fun f => io_len f <= 127) (i_framelist (net_ieee st')).
Proof.
  assert (L : outcome_lengths
                (sixlowpan_queue_frames scenario_cfg (scenario_ext 11) 200
                   scenario_state udp_datagram_hdr scenario_payload 200 None) =
              Some (OK, [120; 121; 121; 97])) by (vm_compute; reflexivity).
  destruct (sixlowpan_queue_frames scenario_cfg (scenario_ext 11) 200
              scenario_state udp_datagram_hdr scenario_payload 200 None)
    as [[rc st']| |] eqn:E; [|discriminate L|discriminate L].
  cbn in L. injection L as -> _.
  exists st'. split; [reflexivity|].
  apply (frames_fit_capacity scenario_cfg (scenario_ext 11) 200 scenario_state
           udp_datagram_hdr scenario_payload 200 None 11 60 48 st').
  - vm_compute. reflexivity.
  - lia.
  - vm_compute. intros C. discriminate C.
  - exact E.
Defined.

(** C2 as stated fails with a 22-byte MAC header and a TCP header of 60
    bytes: the headers take 123 of the 127 bytes, within the capacity, yet
    the FRAGN frame is 138 bytes long. *)
Lemma frames_fit_capacity_counterexample :
  outcome_lengths
    (sixlowpan_queue_frames scenario_cfg (scenario_ext 22) 10 scenario_state
       (tcp_datagram_hdr 0xf0) scenario_payload 10 None) = Some (OK, [127; 138]) /\
  ~ (forall mac hdr unc st',
       headers_of scenario_cfg (scenario_ext 22) scenario_state
         (tcp_datagram_hdr 0xf0) 10 None = Some (mac, hdr, unc) ->
       hdr <= CONFIG_NET_6LOWPAN_FRAMELEN scenario_cfg ->
       sixlowpan_queue_frames scenario_cfg (scenario_ext 22) 10 scenario_state
         (tcp_datagram_hdr 0xf0) scenario_payload 10 None = Done (OK, st') ->
       Forall (fun f => io_len f <= CONFIG_NET_6LOWPAN_FRAMELEN scenario_cfg)
         (i_framelist (net_ieee st'))).
Proof.
  assert (L : outcome_lengths
                (sixlowpan_queue_frames scenario_cfg (scenario_ext 22) 10
                   scenario_state (tcp_datagram_hdr 0xf0) scenario_payload 10 None) =
              Some (OK, [127; 138])) by (vm_compute; reflexivity).
  split; [exact L|].
  intros H.
  destruct (sixlowpan_queue_frames scenario_cfg (scenario_ext 22) 10
              scenario_state (tcp_datagram_hdr 0xf0) scenario_payload 10 None)
    as [[rc st']| |] eqn:E; [|discriminate L|discriminate L].
  cbn in L. injection L as -> Hl.
  specialize (H 22 123 100 st').
  assert (F : Forall (fun f => io_len f <= 127) (i_framelist (net_ieee st'))).
  { apply H; [vm_compute; reflexivity|simpl; lia|reflexivity]. }
  apply (proj2 (Forall_map io_len (fun x => x <= 127) _)) in F.
  rewrite Hl in F. inversion F as [|? ? _ F']. inversion F' as [|? ? Hbad _]. lia.
Qed.

(** The four frames of the 200-byte datagram all carry size 248 and tag 7. *)
Lemma fragments_share_size_and_tag_witness :
  exists st',
    sixlowpan_queue_frames scenario_cfg (scenario_ext 11) 200 scenario_state
      udp_datagram_hdr scenario_payload 200 None = Done (OK, st') /\
    Forall (fun f => frag_size 11 f = 248 /\ frag_tag 11 f = 7)
      (i_framelist (net_ieee st')).
Proof.
  assert (L : outcome_lengths
                (sixlowpan_queue_frames scenario_cfg (scenario_ext 11) 200
                   scenario_state udp_datagram_hdr scenario_payload 200 None) =
              Some (OK, [120; 121; 121; 97])) by (vm_compute; reflexivity).
  destruct (sixlowpan_queue_frames scenario_cfg (scenario_ext 11) 200
              scenario_state udp_datagram_hdr scenario_payload 200 None)
    as [[rc st']| |] eqn:E; [|discriminate L|discriminate L].
  cbn in L. injection L as -> _.
  exists st'. split; [reflexivity|].
  apply (fragments_share_size_and_tag scenario_cfg (scenario_ext 11) 200
           scenario_state udp_datagram_hdr scenario_payload 200 None 11 60 48 st').
  - vm_compute. reflexivity.
  - lia.
  - simpl. lia.
  - vm_compute. reflexivity.
  - exact E.
Defined.

(** In the 200-byte datagram the third of the four frames carries a
    multiple of 8 payload bytes and starts 112 bytes into the payload:
    offset byte 14. *)
Lemma fragment_alignment_and_offsets_witness :
  exists st' f,
    sixlowpan_queue_frames scenario_cfg (scenario_ext 11) 200 scenario_state
      udp_datagram_hdr scenario_payload 200 None = Done (OK, st') /\
    nth_error (i_framelist (net_ieee st')) 2 = Some f /\
    nth 2 (frame_payloads 60 (i_framelist (net_ieee st'))) 0 mod 8 = 0 /\
    frag_offset 11 f =
      sumZ (firstn 2 (frame_payloads 60 (i_framelist (net_ieee st')))) / 8.
Proof.
  assert (L : outcome_lengths
                (sixlowpan_queue_frames scenario_cfg (scenario_ext 11) 200
                   scenario_state udp_datagram_hdr scenario_payload 200 None) =
              Some (OK, [120; 121; 121; 97])) by (vm_compute; reflexivity).
  destruct (sixlowpan_queue_frames scenario_cfg (scenario_ext 11) 200
              scenario_state udp_datagram_hdr scenario_payload 200 None)
    as [[rc st']| |] eqn:E; [|discriminate L|discriminate L].
  cbn in L. injection L as -> Hl.
  assert (Hn : length (i_framelist (net_ieee st')) = 4%nat).
  { apply (f_equal (@length Z)) in Hl. rewrite length_map in Hl. exact Hl. }
  destruct (nth_error (i_framelist (net_ieee st')) 2) as [f|] eqn:N.
  - exists st', f. split; [reflexivity|]. split; [exact N|].
    destruct (fragment_alignment_and_offsets scenario_cfg (scenario_ext 11)
                200 scenario_state udp_datagram_hdr scenario_payload 200 None
                11 60 48 st') with (k := 2%nat) (f := f) as (A & O).
    + vm_compute. reflexivity.
    + vm_compute. reflexivity.
    + exact E.
    + exact N.
    + split.
      * apply A. rewrite Hn. lia.
      * apply O; [lia|lia|simpl; lia|lia].
  - exfalso. apply nth_error_None in N. lia.
Defined.

(** C4 as stated fails for a UDP datagram of 2100 payload bytes: the frame
    of index 37 starts 2072 bytes into the payload, 259 units of 8, and its
    offset byte is 3. *)
Lemma fragment_alignment_and_offsets_counterexample :
  outcome_offset 11 60 37
    (sixlowpan_queue_frames scenario_cfg (scenario_ext 11) 100 scenario_state
       udp_datagram_hdr scenario_payload 2100 None) = Some (3, 259) /\
  ~ (forall mac hdr unc st',
       headers_of scenario_cfg (scenario_ext 11) scenario_state
         udp_datagram_hdr 2100 None = Some (mac, hdr, unc) ->
       send_fragments scenario_cfg (scenario_ext 11) scenario_state
         udp_datagram_hdr 2100 None = true ->
       sixlowpan_queue_frames scenario_cfg (scenario_ext 11) 100 scenario_state
         udp_datagram_hdr scenario_payload 2100 None = Done (OK, st') ->
       let frames := i_framelist (net_ieee st') in
       let pays := frame_payloads hdr frames in
       forall k f,
         nth_error frames k = Some f ->
         ((S k < length frames)%nat -> nth k pays 0 mod 8 = 0) /\
         ((0 < k)%nat -> frag_offset mac f = sumZ (firstn k pays) / 8)).
Proof.
  assert (L : outcome_offset 11 60 37
                (sixlowpan_queue_frames scenario_cfg (scenario_ext 11) 100
                   scenario_state udp_datagram_hdr scenario_payload 2100 None) =
              Some (3, 259)) by (vm_compute; reflexivity).
  assert (R : option_map fst (outcome_lengths
                (sixlowpan_queue_frames scenario_cfg (scenario_ext 11) 100
                   scenario_state udp_datagram_hdr scenario_payload 2100 None)) =
              Some OK) by (vm_compute; reflexivity).
  split; [exact L|].
  intros H.
  destruct (sixlowpan_queue_frames scenario_cfg (scenario_ext 11) 100
              scenario_state udp_datagram_hdr scenario_payload 2100 None)
    as [[rc st']| |] eqn:E; [|discriminate L|discriminate L].
  cbn in R. injection R as ->.
  specialize (H 11 60 48 st').
  unfold outcome_offset in L.
  destruct (nth_error (i_framelist (net_ieee st')) 37) as [f|] eqn:N;
    [|discriminate L].
  destruct (H ltac:(vm_compute; reflexivity) ltac:(vm_compute; reflexivity)
              eq_refl 37%nat f N) as (_ & O).
  specialize (O ltac:(lia)).
  set (a := sumZ (firstn 37 (frame_payloads 60 (i_framelist (net_ieee st')))) / 8)
    in O.
  change (Some (frag_offset 11 f, a) = Some (3, 259)) in L.
  rewrite O in L. congruence.
Qed.

(** After the 200-byte datagram the tag has gone from 7 to 8. *)
Lemma dgramtag_after_send_witness :
  exists st',
    sixlowpan_queue_frames scenario_cfg (scenario_ext 11) 200 scenario_state
      udp_datagram_hdr scenario_payload 200 None = Done (OK, st') /\
    i_dgramtag (net_ieee st') = 8.
Proof.
  assert (L : outcome_lengths
                (sixlowpan_queue_frames scenario_cfg (scenario_ext 11) 200
                   scenario_state udp_datagram_hdr scenario_payload 200 None) =
              Some (OK, [120; 121; 121; 97])) by (vm_compute; reflexivity).
  destruct (sixlowpan_queue_frames scenario_cfg (scenario_ext 11) 200
              scenario_state udp_datagram_hdr scenario_payload 200 None)
    as [[rc st']| |] eqn:E; [|discriminate L|discriminate L].
  cbn in L. injection L as -> _.
  exists st'. split; [reflexivity|].
  rewrite (dgramtag_after_send scenario_cfg (scenario_ext 11) 200 scenario_state
             udp_datagram_hdr scenario_payload 200 None st' E).
  vm_compute. reflexivity.
Defined.

(** The scenario of C6 on the concrete link. *)
Lemma udp_20_bytes_one_frame_witness :
  exists st' f,
    sixlowpan_queue_frames scenario_cfg (scenario_ext 11) 0 scenario_state
      udp_datagram_hdr scenario_payload 20 None = Done (OK, st') /\
    i_framelist (net_ieee st') = [f] /\ io_len f = 80 /\ io_pktlen f = 80 /\
    io_data f 11 = 0x41.
Proof.
  destruct (udp_20_bytes_one_frame scenario_cfg (scenario_ext 11) 0 scenario_state
              udp_datagram_hdr scenario_payload None)
    as (st' & f & R & L & Ln & Pk & _ & D & _).
  - reflexivity.
  - simpl. lia.
  - simpl. lia.
  - left. reflexivity.
  - reflexivity.
  - vm_compute. reflexivity.
  - vm_compute. reflexivity.
  - intros g ieee d panid j Hj. simpl. apply blit_out. lia.
  - exists st', f. repeat split; assumption.
Defined.

(** C6 as stated fails: when [buf] and [buflen] take in the IPv6 and UDP
    headers (68 bytes for 20 of payload), the headers written from the
    header pointer and the 68 bytes do not fit one frame, and the datagram
    goes out as a FRAG1 of 120 bytes and a FRAGN of 77. *)
Lemma udp_20_bytes_one_frame_counterexample :
  outcome_lengths
    (sixlowpan_queue_frames scenario_cfg (scenario_ext 11) 100 scenario_state
       udp_datagram_hdr udp_datagram_bytes 68 None) = Some (OK, [120; 77]) /\
  ~ (exists st' f,
       sixlowpan_queue_frames scenario_cfg (scenario_ext 11) 100 scenario_state
         udp_datagram_hdr udp_datagram_bytes 68 None = Done (OK, st') /\
       i_framelist (net_ieee st') = [f] /\ io_len f = 80 /\ io_pktlen f = 80).
Proof.
  assert (L : outcome_lengths
                (sixlowpan_queue_frames scenario_cfg (scenario_ext 11) 100
                   scenario_state udp_datagram_hdr udp_datagram_bytes 68 None) =
              Some (OK, [120; 77])) by (vm_compute; reflexivity).
  split; [exact L|].
  intros (st' & f & E & Hl & _).
  rewrite E in L. cbn in L. rewrite Hl in L. discriminate L.
Qed.

(** A TCP header of 20 bytes ([tcpoffset] 0x50) written behind an 11-byte
    MAC header. *)
Lemma compress_ipv6hdr_known_proto_witness :
  exists g' fptr',
    sixlowpan_compress_ipv6hdr scenario_cfg (tcp_datagram_hdr 0x50)
      (mk_scratch 0 11 (fun _ => 0) (fun _ => [])) (fun _ => 0) = Done (g', fptr') /\
    fptr' 11 = 0x41 /\ g_frame_hdrlen g' = 72 /\ g_uncomp_hdrlen g' = 60.
Proof.
  destruct (compress_ipv6hdr_known_proto scenario_cfg (tcp_datagram_hdr 0x50)
              (mk_scratch 0 11 (fun _ => 0) (fun _ => [])) (fun _ => 0) 20)
    as (g' & fptr' & R & D & _ & _ & _ & G & U).
  - left. split; [reflexivity|]. split; vm_compute; reflexivity.
  - simpl. lia.
  - simpl. lia.
  - simpl. lia.
  - simpl. lia.
  - simpl. lia.
  - exists g', fptr'. split; [exact R|]. split; [exact D|].
    split; [rewrite G; reflexivity|rewrite U; reflexivity].
Defined.

(** Without fragmentation the 200-byte datagram is refused. *)
Lemma oversize_without_frag_witness :
  exists st',
    sixlowpan_queue_frames scenario_nofrag_cfg (scenario_ext 11) 0 scenario_state
      udp_datagram_hdr scenario_payload 200 None = Done (- E2BIG, st') /\
    i_framelist (net_ieee st') = [].
Proof.
  destruct (oversize_without_frag scenario_nofrag_cfg (scenario_ext 11) 0
              scenario_state udp_datagram_hdr scenario_payload 200 None 11 60 48)
    as (st' & R & L & _).
  - reflexivity.
  - vm_compute. reflexivity.
  - simpl. lia.
  - simpl. lia.
  - exists st'. split; [exact R|exact L].
Defined.

(** C8 as stated fails when the headers alone are longer than the frame.
    With fragmentation compiled out, a 30-byte MAC header and a TCP header
    of 60 bytes make 131 bytes of headers for a frame of 127.  A [buflen]
    of 5 exceeds 127 - 131, but line 338 compares it with that difference
    taken as a [size_t]: the call returns OK and queues one frame of 136
    bytes. *)
Lemma oversize_without_frag_counterexample :
  headers_of scenario_nofrag_cfg (scenario_ext 30) scenario_state
    (tcp_datagram_hdr 0xf0) 5 None = Some (30, 131, 100) /\
  outcome_lengths
    (sixlowpan_queue_frames scenario_nofrag_cfg (scenario_ext 30) 0 scenario_state
       (tcp_datagram_hdr 0xf0) scenario_payload 5 None) = Some (OK, [136]) /\
  ~ (forall mac hdr unc,
       CONFIG_NET_6LOWPAN_FRAG scenario_nofrag_cfg = false ->
       headers_of scenario_nofrag_cfg (scenario_ext 30) scenario_state
         (tcp_datagram_hdr 0xf0) 5 None = Some (mac, hdr, unc) ->
       CONFIG_NET_6LOWPAN_FRAMELEN scenario_nofrag_cfg - hdr < 5 ->
       exists st',
         sixlowpan_queue_frames scenario_nofrag_cfg (scenario_ext 30) 0
           scenario_state (tcp_datagram_hdr 0xf0) scenario_payload 5 None =
           Done (- E2BIG, st')).
Proof.
  assert (Hh : headers_of scenario_nofrag_cfg (scenario_ext 30) scenario_state
                 (tcp_datagram_hdr 0xf0) 5 None = Some (30, 131, 100))
    by (vm_compute; reflexivity).
  assert (L : outcome_lengths
                (sixlowpan_queue_frames scenario_nofrag_cfg (scenario_ext 30) 0
                   scenario_state (tcp_datagram_hdr 0xf0) scenario_payload 5 None) =
              Some (OK, [136])) by (vm_compute; reflexivity).
  split; [exact Hh|]. split; [exact L|].
  intros H.
  destruct (H 30 131 100 eq_refl Hh) as (st' & E); [simpl; lia|].
  rewrite E in L. discriminate L.
Qed.

(** Protocol 99, 30 payload bytes: headers of 11 + 1 + 40 bytes and OK. *)
Lemma unknown_proto_still_sent_witness :
  headers_of scenario_cfg (scenario_ext 11) scenario_state
    proto99_datagram_hdr 30 None = Some (11, 52, 40) /\
  exists st',
    sixlowpan_queue_frames scenario_cfg (scenario_ext 11) 30 scenario_state
      proto99_datagram_hdr scenario_payload 30 None = Done (OK, st').
Proof.
  refine (proj2 (unknown_proto_still_sent scenario_cfg (scenario_ext 11) 30
                   scenario_state proto99_datagram_hdr scenario_payload 30 None
                   _ _ _) _ _ _ _ _ _ _ _).
  - vm_compute. intros C. discriminate C.
  - vm_compute. intros C. discriminate C.
  - vm_compute. intros C. discriminate C.
  - left. reflexivity.
  - vm_compute. intros C. discriminate C.
  - vm_compute. intros C. discriminate C.
  - simpl. lia.
  - simpl. lia.
  - lia.
  - left. vm_compute. intros C. discriminate C.
  - simpl. lia.
Defined.

(** A header-size query that fails with -22 comes back as -22 and leaves
    the interface alone. *)
Lemma failure_leaves_interface_witness :
  exists st',
    sixlowpan_queue_frames scenario_cfg (scenario_ext (-22)) 0 scenario_state
      udp_datagram_hdr scenario_payload 200 None = Done (-22, st') /\
    net_ieee st' = net_ieee scenario_state /\ net_iobs st' = 1%nat.
Proof.
  pose proof (failure_leaves_interface scenario_cfg (scenario_ext (-22)) 0
                scenario_state udp_datagram_hdr scenario_payload 200 None)
    as (P & Q).
  destruct P as (st' & R); [vm_compute; reflexivity|].
  exists st'. split; [exact R|].
  destruct (Q _ _ R) as (_ & I & _ & _ & N).
  - vm_compute. intros C. discriminate C.
  - split; [exact I|exact N].
Defined.

(** A 21-byte MAC header and a TCP header of 60 bytes take 122 of the 127
    bytes: FRAG1 carries nothing, the FRAGN quantum is [(127 - 127) & 0xf8],
    and the call never returns. *)
Lemma tcp_full_options_never_sent :
  forall fuel r,
    sixlowpan_queue_frames scenario_cfg (scenario_ext 21) fuel scenario_state
      (tcp_datagram_hdr 0xf0) scenario_payload 10 None <> Done r.
Proof.
  apply (zero_quantum_never_sent scenario_cfg (scenario_ext 21) scenario_state
           (tcp_datagram_hdr 0xf0) scenario_payload 10 None 21 122 100).
  - reflexivity.
  - vm_compute. reflexivity.
  - lia.
  - lia.
  - simpl. lia.
  - simpl. lia.
  - reflexivity.
Qed.

(** * Further properties of the frame queuer *)

Section QueuerAccounting.

Variable cfg : config.
Variable ext : collaborators.

Local Abbreviation FRAMELEN := (CONFIG_NET_6LOWPAN_FRAMELEN cfg).
Local Abbreviation BUFSIZE := (CONFIG_IOB_BUFSIZE cfg).

Ltac bind_step H :=
  match type of H with
  | bind ?e _ = Done _ =>
      let E := fresh "E" in
      destruct e eqn:E; cbn [bind] in H; [ | discriminate H | discriminate H ]
  end.

(** ** What the inversion lemmas above leave out *)

(** The buffer that reaches the fragmentation test is the fresh one: all
    three lengths are still 0. *)
Lemma queue_headers_iob (st : netstate) (destip : bytes) (buflen : Z)
    (destmac : option rimeaddr_s) (iob : iob_s) (panid mac : Z) (st1 : netstate) :
  queue_headers cfg ext st destip buflen destmac = Done (inr (iob, panid, mac, st1)) ->
  io_len iob = 0 /\ io_offset iob = 0 /\ io_pktlen iob = 0.
Proof.
  unfold queue_headers, queue_setup. cbn [new_iob].
  destruct (_ <? 0); [discriminate|].
  intros H. bind_step H. destruct a as [g fptr].
  injection H as <- _ _ _. repeat split.
Qed.

(** The first fragment: its bookkeeping fields, and the compressed headers
    moved up by the four bytes of the FRAG1 header. *)
Lemma queue_frag1_meta (st : netstate) (iob : iob_s) (mac panid : Z)
    (buf : bytes) (buflen : Z) (st' : netstate) (pktlen outlen : Z)
    (frame1 : bytes) (f1h : Z) :
  queue_frag1 cfg ext st iob mac panid buf buflen =
    Done (st', pktlen, outlen, frame1, f1h) ->
  let g := net_scratch st in
  exists f1,
    i_framelist (net_ieee st') = [f1] /\
    io_data f1 = frame1 /\
    io_offset f1 = io_offset iob /\
    io_pktlen f1 = io_len f1 /\
    0 <= io_len f1 <= 65535 /\
    0 <= outlen <= 65535 /\
    g_pktattrs (net_scratch st') = g_pktattrs g /\
    g_pktaddrs (net_scratch st') = g_pktaddrs g /\
    net_iobs st' = net_iobs st /\
    (forall i, 0 <= i < to_size_t (g_frame_hdrlen g - mac) ->
       mac + 4 + i < f1h ->
       frame1 (mac + 4 + i) =
       fst (sixlowpan_framecreate ext g (net_ieee st) (io_data iob) panid) (mac + i)).
Proof.
  unfold queue_frag1. intros H.
  destruct (sixlowpan_framecreate ext _ _ _ _) as [fptr verify].
  bind_step H. bind_step H. bind_step H. bind_step H.
  injection H as <- <- <- <- <-.
  apply memcpy_inv in E as (_ & _ & ->).
  apply PUTINT16_inv in E0 as (B0 & _ & F0).
  apply PUTINT16_inv in E1 as (B1 & _ & F1).
  apply memcpy_inv in E2 as (B2 & B3 & ->).
  unfold RIME_FRAG_DISPATCH_SIZE, RIME_FRAG_TAG, SIXLOWPAN_FRAG1_HDR_LEN in *.
  cbn [set_frame_hdrlen g_frame_hdrlen g_uncomp_hdrlen g_pktattrs g_pktaddrs] in *.
  eexists. split; [reflexivity|].
  cbn [set_io_pktlen set_io_len set_io_data io_data io_len io_pktlen io_offset
       net_scratch net_iobs g_pktattrs g_pktaddrs fst].
  split; [reflexivity|]. split; [reflexivity|].
  split; [apply to_uint16_small, to_uint16_range|].
  split; [apply to_uint16_range|]. split; [apply to_uint16_range|].
  split; [reflexivity|]. split; [reflexivity|]. split; [reflexivity|].
  intros i Hi Hlt.
  rewrite blit_out by lia.
  rewrite F1 by lia. rewrite F0 by lia.
  rewrite blit_in by lia. f_equal. lia.
Qed.

(** One pass through the loop body: the bookkeeping fields of the new
    frame, and the bytes it takes over from the first frame. *)
Lemma queue_fragn_meta (st : netstate) (mac pktlen outlen : Z) (frame1 : bytes)
    (f1h : Z) (buf : bytes) (buflen : Z) (st' : netstate) (outlen' : Z) :
  queue_fragn cfg ext st mac pktlen outlen frame1 f1h buf buflen =
    Done (st', outlen') ->
  exists f,
    st' = mk_net (set_pktattr (net_scratch st) PACKETBUF_ATTR_MAC_SEQNO 0)
            (set_framelist (net_ieee st)
               (add_head_pktlen (i_framelist (net_ieee st) ++ [f]) (io_len f)))
            (S (net_iobs st)) /\
    io_pktlen f = 0 /\ io_offset f = 0 /\
    0 <= outlen' <= 65535 /\
    (forall i, 0 <= i < to_size_t (f1h - mac) ->
       mac + 5 + i < fragn_hdrlen_of f1h ->
       io_data f (mac + 5 + i) = frame1 (mac + 4 + i)).
Proof.
  unfold queue_fragn. intros H.
  cbn [new_iob net_scratch net_ieee net_iobs] in H.
  destruct (sixlowpan_framecreate ext _ _ _ _) as [fptr verify].
  bind_step H. bind_step H. bind_step H. bind_step H. bind_step H.
  injection H as <- <-.
  apply memcpy_inv in E as (_ & _ & ->).
  apply PUTINT16_inv in E0 as (B0 & _ & F0).
  apply PUTINT16_inv in E1 as (B1 & _ & F1).
  apply store_inv in E2 as (B2 & ->).
  apply memcpy_inv in E3 as (B3 & B4 & ->).
  unfold RIME_FRAG_DISPATCH_SIZE, RIME_FRAG_TAG, RIME_FRAG_OFFSET,
    SIXLOWPAN_FRAG1_HDR_LEN, SIXLOWPAN_FRAGN_HDR_LEN in *.
  fold SIXLOWPAN_FRAG1_HDR_LEN SIXLOWPAN_FRAGN_HDR_LEN in *.
  fold (fragn_hdrlen_of f1h) in *.
  match goal with
  | |- exists f, mk_net _ (set_framelist _ (add_head_pktlen (_ ++ [?x]) _)) _ = _ /\ _ =>
      exists x
  end.
  split; [reflexivity|].
  cbn [set_io_pktlen set_io_len set_io_data io_data io_len io_pktlen io_offset].
  split; [reflexivity|]. split; [reflexivity|].
  split; [apply to_uint16_range|].
  intros i Hi Hlt.
  unfold SIXLOWPAN_FRAG1_HDR_LEN, SIXLOWPAN_FRAGN_HDR_LEN in *.
  rewrite blit_out by lia.
  rewrite poke_neq by lia.
  rewrite F1 by lia. rewrite F0 by lia.
  rewrite blit_in by lia. f_equal. lia.
Qed.

Lemma to_uint16_add_l (a b : Z) : to_uint16 (to_uint16 a + b) = to_uint16 (a + b).
Proof. unfold to_uint16. apply Zplus_mod_idemp_l. Qed.

(** The loop as a whole. *)
Lemma queue_fragn_loop_meta (mac pktlen : Z) (frame1 : bytes) (f1h : Z)
    (buf : bytes) (buflen : Z) (fuel : nat) :
  forall (st : netstate) (outlen : Z) (st' : netstate) (outlen' : Z)
         (h : iob_s) (t : list iob_s),
  queue_fragn_loop cfg ext fuel st mac pktlen outlen frame1 f1h buf buflen =
    Done (st', outlen') ->
  i_framelist (net_ieee st) = h :: t ->
  0 <= io_pktlen h <= 65535 ->
  exists h' fs,
    i_framelist (net_ieee st') = h' :: t ++ fs /\
    io_len h' = io_len h /\ io_data h' = io_data h /\ io_offset h' = io_offset h /\
    io_pktlen h' = to_uint16 (io_pktlen h + sumZ (map io_len fs)) /\
    Forall (fun f =>
              io_pktlen f = 0 /\ io_offset f = 0 /\
              forall i, 0 <= i < to_size_t (f1h - mac) ->
                mac + 5 + i < fragn_hdrlen_of f1h ->
                io_data f (mac + 5 + i) = frame1 (mac + 4 + i)) fs /\
    g_pktattrs (net_scratch st') PACKETBUF_ATTR_MAX_MAC_TRANSMISSIONS =
      g_pktattrs (net_scratch st) PACKETBUF_ATTR_MAX_MAC_TRANSMISSIONS /\
    g_pktattrs (net_scratch st') PACKETBUF_ATTR_PACKET_TYPE =
      g_pktattrs (net_scratch st) PACKETBUF_ATTR_PACKET_TYPE /\
    g_pktaddrs (net_scratch st') = g_pktaddrs (net_scratch st) /\
    ~ outlen' < buflen /\
    (outlen' = outlen \/ 0 <= outlen' <= 65535).
Proof.
  induction fuel as [|fuel IH]; intros st outlen st' outlen' h t H L Hp;
    cbn [queue_fragn_loop] in H.
  - destruct (Z.ltb_spec outlen buflen); [discriminate|].
    injection H as <- <-. exists h, []. rewrite app_nil_r.
    cbn [map sumZ fold_right]. rewrite Z.add_0_r, to_uint16_small by lia.
    repeat split; try assumption; try reflexivity; try constructor; try lia.
  - destruct (Z.ltb_spec outlen buflen).
    + bind_step H. destruct a as [st1 o1].
      apply queue_fragn_meta in E.
      destruct E as (f & -> & Hk & Ho & Hr & Hc).
      cbn [net_ieee net_scratch net_iobs set_framelist i_framelist] in *.
      rewrite L in H. cbn [app add_head_pktlen] in H.
      eapply IH in H;
        [|cbn [net_ieee set_framelist i_framelist]; reflexivity
         |cbn [set_io_pktlen io_pktlen]; apply to_uint16_range].
      destruct H as (h' & fs & Hl & Hl' & Hd & Hof & Hpk & Hall & A1 & A2 & A3 & X1 & X2).
      cbn [net_ieee net_scratch net_iobs set_framelist set_pktattr set_io_pktlen
           i_framelist io_len io_data io_offset io_pktlen
           g_pktattrs g_pktaddrs packetbuf_attr_eqb] in *.
      exists h', (f :: fs).
      rewrite <- app_assoc in Hl. cbn [app] in Hl.
      split; [exact Hl|]. split; [exact Hl'|]. split; [exact Hd|].
      split; [exact Hof|].
      split.
      { rewrite Hpk, to_uint16_add_l.
        change (sumZ (map io_len (f :: fs))) with (io_len f + sumZ (map io_len fs)).
        f_equal. lia. }
      split; [constructor; [repeat split; assumption|exact Hall]|].
      split; [exact A1|]. split; [exact A2|]. split; [exact A3|].
      split; [exact X1|].
      right. destruct X2 as [-> | X2]; assumption.
    + injection H as <- <-. exists h, []. rewrite app_nil_r.
      cbn [map sumZ fold_right]. rewrite Z.add_0_r, to_uint16_small by lia.
      repeat split; try assumption; try reflexivity; try constructor; try lia.
Qed.

(** The fragmented path as a whole. *)
Lemma queue_fragments_meta (fuel : nat) (st : netstate) (iob : iob_s)
    (mac panid : Z) (buf : bytes) (buflen : Z) (st' : netstate) (outlen' : Z) :
  queue_fragments cfg ext fuel st iob mac panid buf buflen = Done (st', outlen') ->
  let g := net_scratch st in
  let f1h := to_uint8 (g_frame_hdrlen g + SIXLOWPAN_FRAG1_HDR_LEN) in
  exists f1 fs,
    i_framelist (net_ieee st') = f1 :: fs /\
    io_offset f1 = io_offset iob /\
    io_pktlen f1 = to_uint16 (sumZ (map io_len (f1 :: fs))) /\
    (forall i, 0 <= i < to_size_t (g_frame_hdrlen g - mac) ->
       mac + 4 + i < f1h ->
       io_data f1 (mac + 4 + i) =
       fst (sixlowpan_framecreate ext g (net_ieee st) (io_data iob) panid) (mac + i)) /\
    Forall (fun f =>
              io_pktlen f = 0 /\ io_offset f = 0 /\
              forall i, 0 <= i < to_size_t (f1h - mac) ->
                mac + 5 + i < fragn_hdrlen_of f1h ->
                io_data f (mac + 5 + i) = io_data f1 (mac + 4 + i)) fs /\
    g_pktattrs (net_scratch st') PACKETBUF_ATTR_MAX_MAC_TRANSMISSIONS =
      g_pktattrs g PACKETBUF_ATTR_MAX_MAC_TRANSMISSIONS /\
    g_pktattrs (net_scratch st') PACKETBUF_ATTR_PACKET_TYPE =
      g_pktattrs g PACKETBUF_ATTR_PACKET_TYPE /\
    g_pktaddrs (net_scratch st') = g_pktaddrs g /\
    ~ outlen' < buflen /\ 0 <= outlen' <= 65535.
Proof.
  unfold queue_fragments. intros H.
  bind_step H. destruct a as [[[[st1 pktlen] outlen] frame1] f1h].
  bind_step H. destruct a as [st2 o2].
  injection H as <- <-.
  pose proof (queue_frag1_inv _ _ _ _ _ _ _ _ _ _ _ _ _ E)
    as (f0 & _ & _ & _ & _ & Ef & _).
  apply queue_frag1_meta in E.
  destruct E as (f1 & L1 & Hd & Hof & Hpk & Hlen & Ho & A1 & A2 & _ & Hc).
  eapply queue_fragn_loop_meta in E0; [|exact L1|lia].
  destruct E0 as (h' & fs & L & Ll & Ld & Lo & Lp & Hall & B1 & B2 & B3 & X1 & X2).
  cbn [net_ieee net_scratch net_iobs set_dgramtag i_framelist app] in *.
  exists h', fs.
  split; [exact L|]. split; [congruence|].
  split.
  { rewrite Lp, Hpk.
    change (sumZ (map io_len (h' :: fs))) with (io_len h' + sumZ (map io_len fs)).
    rewrite Ll. reflexivity. }
  split.
  { intros i Hi Hlt. rewrite Ld, Hd. apply Hc; [exact Hi|].
    rewrite Ef. exact Hlt. }
  split.
  { eapply Forall_impl; [|exact Hall].
    intros f (K1 & K2 & K3). split; [exact K1|]. split; [exact K2|].
    intros i Hi Hlt. rewrite Ld, Hd. rewrite <- Ef in *. apply K3; assumption. }
  split; [rewrite B1, A1; reflexivity|].
  split; [rewrite B2, A1; reflexivity|].
  split; [rewrite B3, A2; reflexivity|].
  split; [exact X1|]. destruct X2 as [-> | X2]; assumption.
Qed.

(** ** Bookkeeping of the frame list *)

(** X1: after a successful send the head of the frame list records in
    [io_pktlen] the sum of the [io_len] of all frames of the list, modulo
    2^16; every other frame has [io_pktlen] 0, and [io_offset] is 0
    throughout. *)
Theorem head_pktlen_totals (fuel : nat) (st : netstate) (destip buf : bytes)
    (buflen : Z) (destmac : option rimeaddr_s) (st' : netstate) :
  sixlowpan_queue_frames cfg ext fuel st destip buf buflen destmac = Done (OK, st') ->
  exists f1 fs,
    i_framelist (net_ieee st') = f1 :: fs /\
    io_pktlen f1 = sumZ (map io_len (f1 :: fs)) mod 2 ^ 16 /\
    Forall (fun f => io_pktlen f = 0) fs /\
    Forall (fun f => io_offset f = 0) (f1 :: fs).
Proof.
  intros H.
  destruct (queue_frames_ok_headers _ _ _ _ _ _ _ _ _ _ H)
    as [(s1 & E & _)|(iob & panid & mac & s1 & E)].
  - apply queue_headers_inv in E. unfold OK in E. lia.
  - pose proof (queue_headers_iob _ _ _ _ _ _ _ _ E) as (_ & I0 & _).
    destruct (queue_frames_cases _ _ _ _ _ _ _ _ _ _ _ _ _ _ E H)
      as [(_ & _ & _ & o & F)|[(_ & _ & C & _)|(_ & _ & S)]].
    + apply queue_fragments_meta in F.
      destruct F as (f1 & fs & L & Ho & Hp & _ & Hall & _).
      exists f1, fs. split; [exact L|]. split; [exact Hp|]. split.
      * eapply Forall_impl; [|exact Hall]. intros f (K & _). exact K.
      * constructor; [congruence|].
        eapply Forall_impl; [|exact Hall]. intros f (_ & K & _). exact K.
    + discriminate C.
    + unfold queue_single in S.
      destruct (sixlowpan_framecreate ext _ _ _ _) as [fptr verify].
      bind_step S. injection S as <-.
      cbn [net_ieee set_framelist i_framelist].
      do 2 eexists. split; [reflexivity|].
      cbn [set_io_pktlen set_io_len set_io_data io_len io_pktlen io_offset
           map sumZ fold_right].
      rewrite Z.add_0_r.
      split; [reflexivity|].
      split; [constructor|]. constructor; [exact I0|constructor].
Qed.

(** X2: a successful send has taken from the buffer pool exactly as many
    buffers as there are frames in the list it leaves: one per frame, and
    nothing of a list queued before the call is left. *)
Theorem buffers_taken_match_frames (fuel : nat) (st : netstate)
    (destip buf : bytes) (buflen : Z) (destmac : option rimeaddr_s)
    (st' : netstate) :
  sixlowpan_queue_frames cfg ext fuel st destip buf buflen destmac = Done (OK, st') ->
  net_iobs st' = (net_iobs st + length (i_framelist (net_ieee st')))%nat.
Proof.
  intros H.
  destruct (queue_frames_ok_headers _ _ _ _ _ _ _ _ _ _ H)
    as [(s1 & E & _)|(iob & panid & mac & s1 & E)].
  - apply queue_headers_inv in E. unfold OK in E. lia.
  - pose proof (queue_headers_inv _ _ _ _ _ _ _ E) as (_ & _ & _ & Hn).
    destruct (queue_frames_cases _ _ _ _ _ _ _ _ _ _ _ _ _ _ E H)
      as [(_ & _ & _ & o & F)|[(_ & _ & C & _)|(_ & _ & S)]].
    + apply queue_fragments_inv in F.
      destruct F as (f1 & fs & -> & _ & _ & _ & N).
      rewrite N, Hn. cbn [length]. lia.
    + discriminate C.
    + apply queue_single_inv in S. destruct S as (f & -> & _).
      cbn [net_ieee net_iobs set_framelist i_framelist length]. lia.
Qed.

(** ** The compressed headers travel in every fragment *)

(** X3: in a fragmented send the bytes between the MAC header and the
    payload cursor, as the frame encoder left them in the first buffer,
    sit behind the 4-byte FRAG1 header of the first frame and again
    behind the 5-byte FRAGN header of every later frame.  The 8-bit header
    cursor is assumed not to wrap. *)
Theorem fragments_repeat_headers (fuel : nat) (st : netstate)
    (destip buf : bytes) (buflen : Z) (destmac : option rimeaddr_s)
    (iob : iob_s) (panid mac : Z) (st1 st' : netstate) :
  queue_headers cfg ext st destip buflen destmac = Done (inr (iob, panid, mac, st1)) ->
  let hdr := g_frame_hdrlen (net_scratch st1) in
  let encoded :=
    fst (sixlowpan_framecreate ext (net_scratch st1) (net_ieee st1) (io_data iob) panid) in
  mac <= hdr -> hdr + SIXLOWPAN_FRAG1_HDR_LEN <= 255 ->
  needs_fragmentation cfg buflen (net_scratch st1) = true ->
  sixlowpan_queue_frames cfg ext fuel st destip buf buflen destmac = Done (OK, st') ->
  exists f1 fs,
    i_framelist (net_ieee st') = f1 :: fs /\
    (forall i, 0 <= i < hdr - mac ->
       io_data f1 (mac + SIXLOWPAN_FRAG1_HDR_LEN + i) = encoded (mac + i)) /\
    Forall (fun f => forall i, 0 <= i < hdr - mac ->
              io_data f (mac + SIXLOWPAN_FRAGN_HDR_LEN + i) = encoded (mac + i)) fs.
Proof.
  intros E hdr encoded Hm Hw N H.
  unfold SIXLOWPAN_FRAG1_HDR_LEN, SIXLOWPAN_FRAGN_HDR_LEN in *.
  pose proof (queue_headers_inv _ _ _ _ _ _ _ E) as (_ & M0 & _).
  destruct (queue_frames_cases _ _ _ _ _ _ _ _ _ _ _ _ _ _ E H)
    as [(_ & _ & _ & o & F)|[(_ & _ & C & _)|(N' & _)]];
    [|discriminate C|congruence].
  apply queue_fragments_meta in F.
  destruct F as (f1 & fs & L & _ & _ & H1 & Hall & _).
  unfold SIXLOWPAN_FRAG1_HDR_LEN in *. fold hdr in H1, Hall.
  rewrite (to_uint8_small (hdr + 4)) in * by lia.
  rewrite fragn_hdrlen_of_val in Hall by lia.
  rewrite (to_size_t_small (hdr - mac)) in H1 by lia.
  rewrite (to_size_t_small (hdr + 4 - mac)) in Hall by lia.
  exists f1, fs. split; [exact L|].
  assert (A : forall i, 0 <= i < hdr - mac -> io_data f1 (mac + 4 + i) = encoded (mac + i)).
  { intros i Hi. apply H1; lia. }
  split; [exact A|].
  eapply Forall_impl; [|exact Hall].
  intros f (_ & _ & K) i Hi. rewrite K by lia. apply A. exact Hi.
Qed.

(** ** A datagram that fits *)

(** X4: a datagram whose [buflen] is at most the frame capacity minus the
    frame header length goes out in exactly one frame, whatever compressor
    wrote the headers: the call returns OK, the frame is [hdr + buflen]
    bytes long (so at most the capacity), [io_pktlen] says the same, the
    [buflen] bytes of [buf] follow the headers, and the datagram tag is
    not consumed. *)
Theorem datagram_that_fits_is_one_frame (fuel : nat) (st : netstate)
    (destip buf : bytes) (buflen : Z) (destmac : option rimeaddr_s)
    (mac hdr unc : Z) :
  headers_of cfg ext st destip buflen destmac = Some (mac, hdr, unc) ->
  0 <= hdr -> 0 <= buflen <= FRAMELEN - hdr ->
  FRAMELEN <= BUFSIZE -> BUFSIZE <= 65535 ->
  exists st' f,
    sixlowpan_queue_frames cfg ext fuel st destip buf buflen destmac = Done (OK, st') /\
    i_framelist (net_ieee st') = [f] /\
    io_len f = hdr + buflen /\ io_pktlen f = hdr + buflen /\
    io_len f <= FRAMELEN /\
    (forall i, 0 <= i < buflen -> io_data f (hdr + i) = buf i) /\
    i_dgramtag (net_ieee st') = i_dgramtag (net_ieee st).
Proof.
  intros Hh H0 Hb Hc Hc'. unfold headers_of in Hh.
  destruct (queue_headers cfg ext st destip buflen destmac) as [r| |] eqn:E;
    try discriminate.
  destruct r as [[e s1]|[[[iob panid] mac'] s1]]; [discriminate|].
  injection Hh as -> <- <-.
  pose proof (queue_headers_inv _ _ _ _ _ _ _ E) as (_ & _ & Hi & _).
  set (g := net_scratch s1) in *.
  assert (N : needs_fragmentation cfg buflen g = false).
  { unfold needs_fragmentation. apply Z.ltb_ge.
    rewrite to_size_t_small by lia. lia. }
  destruct (queue_single_total cfg ext s1 iob panid buf buflen) as (st' & S);
    try (fold g; lia).
  pose proof (queue_single_inv _ _ _ _ _ _ _ _ S) as I.
  destruct I as (f & -> & L & K & _ & C & _). fold g in L, C.
  rewrite to_uint16_small in L by lia.
  do 2 eexists.
  split.
  { unfold sixlowpan_queue_frames. rewrite E. cbn [bind]. fold g.
    rewrite N, S. reflexivity. }
  cbn [net_ieee set_framelist i_framelist i_dgramtag].
  split; [reflexivity|]. split; [lia|]. split; [lia|]. split; [lia|].
  split; [exact C|]. rewrite Hi. reflexivity.
Qed.

(** ** How many fragments *)



(** ** The packet attributes *)

Lemma compress_ipv6hdr_keeps_attrs (ipv6hdr : bytes) (g : scratch) (fptr : bytes)
    (g' : scratch) (fptr' : bytes) :
  sixlowpan_compress_ipv6hdr cfg ipv6hdr g fptr = Done (g', fptr') ->
  g_pktattrs g' = g_pktattrs g /\ g_pktaddrs g' = g_pktaddrs g.
Proof.
  unfold sixlowpan_compress_ipv6hdr. intros H.
  bind_step H. bind_step H.
  destruct (protosize_of cfg ipv6hdr).
  - bind_step H. injection H as <- _. split; reflexivity.
  - injection H as <- _. split; reflexivity.
Qed.

(** The scratch at the end of the header stage of a send through the IPv6
    dispatch, whether the stage ends in the early return or not. *)
Lemma queue_headers_attrs (st : netstate) (destip : bytes) (buflen : Z)
    (destmac : option rimeaddr_s)
    (r : Z * netstate + iob_s * Z * Z * netstate) :
  ipv6_dispatch_selected cfg buflen ->
  queue_headers cfg ext st destip buflen destmac = Done r ->
  let st1 := match r with inl (_, s) => s | inr (_, _, _, s) => s end in
  g_pktattrs (net_scratch st1) = g_pktattrs (reset_scratch cfg destip) /\
  g_pktaddrs (net_scratch st1) PACKETBUF_ADDR_SENDER = d_mac (net_ieee st) /\
  g_pktaddrs (net_scratch st1) PACKETBUF_ADDR_RECEIVER =
    match destmac with
    | Some a => a
    | None => repeat 0 (RIMEADDR_SIZE cfg)
    end.
Proof.
  intros Hsel. unfold queue_headers, queue_setup. cbn [new_iob net_scratch net_ieee].
  destruct (_ <? 0).
  - intros [= <-]. cbn. repeat split.
  - rewrite queue_compress_dispatch by exact Hsel.
    intros H. bind_step H. destruct a as [g fptr]. injection H as <-.
    apply compress_ipv6hdr_keeps_attrs in E. destruct E as (Ea & Eb).
    cbn [net_scratch]. rewrite Ea, Eb. cbn. repeat split.
Qed.

Lemma land_fin_cases (flags : Z) :
  Z.land flags TCP_FIN = 0 \/ Z.land flags TCP_FIN = TCP_FIN.
Proof.
  unfold TCP_FIN. change 1 with (Z.ones 1). rewrite Z.land_ones by lia.
  change (2 ^ 1) with 2. pose proof (Z.mod_pos_bound flags 2).
  change (Z.ones 1) with 1. lia.
Qed.

(** X6: whatever a send through the IPv6 dispatch returns, it leaves in
    the packet attributes the configured number of MAC transmissions and
    the packet type read off the TCP flags (stream end when FIN is set;
    stream when FIN is clear, unless the control bits are exactly ACK;
    nothing for a bare ACK and for every other protocol), and in the packet
    addresses the interface's own address as sender and [destmac], or the
    all-zero address when [destmac] is NULL, as receiver. *)
Theorem packet_attributes_set (fuel : nat) (st : netstate)
    (destip buf : bytes) (buflen : Z) (destmac : option rimeaddr_s)
    (rc : Z) (st' : netstate) :
  ipv6_dispatch_selected cfg buflen ->
  sixlowpan_queue_frames cfg ext fuel st destip buf buflen destmac = Done (rc, st') ->
  let g := net_scratch st' in
  let flags := to_uint8 (destip (IPv6_HDRLEN + tcp_flags_off)) in
  g_pktattrs g PACKETBUF_ATTR_MAX_MAC_TRANSMISSIONS =
    to_uint16 (CONFIG_NET_6LOWPAN_MAX_MACTRANSMITS cfg) /\
  g_pktattrs g PACKETBUF_ATTR_PACKET_TYPE =
    (if negb (to_uint8 (destip ipv6_proto_off) =? IP_PROTO_TCP) then 0
     else if negb (Z.land flags TCP_FIN =? 0)
          then to_uint16 (PACKETBUF_ATTR_PACKET_TYPE_STREAM_END cfg)
     else if Z.land flags TCP_CTL =? TCP_ACK then 0
     else to_uint16 (PACKETBUF_ATTR_PACKET_TYPE_STREAM cfg)) /\
  g_pktaddrs g PACKETBUF_ADDR_SENDER = d_mac (net_ieee st) /\
  g_pktaddrs g PACKETBUF_ADDR_RECEIVER =
    match destmac with
    | Some a => a
    | None => repeat 0 (RIMEADDR_SIZE cfg)
    end.
Proof.
  intros Hsel H g flags.
  assert (R : g_pktattrs (reset_scratch cfg destip) PACKETBUF_ATTR_MAX_MAC_TRANSMISSIONS =
                to_uint16 (CONFIG_NET_6LOWPAN_MAX_MACTRANSMITS cfg) /\
              g_pktattrs (reset_scratch cfg destip) PACKETBUF_ATTR_PACKET_TYPE =
                (if negb (to_uint8 (destip ipv6_proto_off) =? IP_PROTO_TCP) then 0
                 else if negb (Z.land flags TCP_FIN =? 0)
                      then to_uint16 (PACKETBUF_ATTR_PACKET_TYPE_STREAM_END cfg)
                 else if Z.land flags TCP_CTL =? TCP_ACK then 0
                 else to_uint16 (PACKETBUF_ATTR_PACKET_TYPE_STREAM cfg))).
  { unfold reset_scratch. fold flags.
    destruct (to_uint8 (destip ipv6_proto_off) =? IP_PROTO_TCP);
      [|split; reflexivity].
    cbn [negb].
    destruct (land_fin_cases flags) as [F|F]; rewrite F.
    - cbn [Z.eqb negb andb].
      destruct (Z.land flags TCP_CTL =? TCP_ACK); cbn [negb]; split; reflexivity.
    - cbn [Z.eqb TCP_FIN Pos.eqb negb andb]. split; reflexivity. }
  destruct R as (R1 & R2).
  assert (K : g_pktattrs g PACKETBUF_ATTR_MAX_MAC_TRANSMISSIONS =
                g_pktattrs (reset_scratch cfg destip) PACKETBUF_ATTR_MAX_MAC_TRANSMISSIONS /\
              g_pktattrs g PACKETBUF_ATTR_PACKET_TYPE =
                g_pktattrs (reset_scratch cfg destip) PACKETBUF_ATTR_PACKET_TYPE /\
              g_pktaddrs g PACKETBUF_ADDR_SENDER = d_mac (net_ieee st) /\
              g_pktaddrs g PACKETBUF_ADDR_RECEIVER =
                match destmac with
                | Some a => a
                | None => repeat 0 (RIMEADDR_SIZE cfg)
                end).
  { subst g.
    destruct (queue_frames_ok_headers _ _ _ _ _ _ _ _ _ _ H)
      as [(s1 & E & ->)|(iob & panid & mac & s1 & E)].
    - pose proof (queue_headers_attrs _ _ _ _ _ Hsel E) as (A & B & C).
      cbn zeta in A, B, C. rewrite A. repeat split; assumption.
    - pose proof (queue_headers_attrs _ _ _ _ _ Hsel E) as (A & B & C).
      cbn zeta in A, B, C.
      destruct (queue_frames_cases _ _ _ _ _ _ _ _ _ _ _ _ _ _ E H)
        as [(_ & _ & _ & o & F)|[(_ & _ & _ & ->)|(_ & _ & S)]].
      + apply queue_fragments_meta in F.
        destruct F as (f1 & fs & _ & _ & _ & _ & _ & A1 & A2 & A3 & _).
        rewrite A1, A2, A3, A. repeat split; assumption.
      + rewrite A. repeat split; assumption.
      + apply queue_single_inv in S. destruct S as (f & -> & _).
        cbn [net_scratch]. rewrite A. repeat split; assumption. }
  destruct K as (K1 & K2 & K3 & K4).
  rewrite K1, K2, R1, R2. repeat split; assumption.
Qed.

(** ** Datagrams that are never sent *)

Lemma queue_fragn_idle (st : netstate) (mac pktlen outlen : Z) (frame1 : bytes)
    (hdr : Z) (buf : bytes) (buflen : Z) :
  0 <= mac <= hdr -> hdr + 4 <= 255 -> hdr + 9 <= BUFSIZE ->
  fragn_quantum cfg (hdr + 4) = 0 ->
  0 <= outlen <= 65535 -> outlen <= buflen ->
  exists st',
    queue_fragn cfg ext st mac pktlen outlen frame1 (hdr + 4) buf buflen =
    Done (st', outlen).
Proof.
  intros Hm Hw Hc Hq Ho Hb. unfold queue_fragn.
  cbn [new_iob net_scratch net_ieee net_iobs].
  destruct (sixlowpan_framecreate ext _ _ _ _) as [fptr verify].
  assert (Hfh : fragn_hdrlen_of (hdr + 4) = hdr + 5).
  { rewrite fragn_hdrlen_of_val by lia. lia. }
  assert (P : fragn_paysize cfg (hdr + 4) buflen outlen = 0).
  { unfold fragn_paysize. rewrite Hq.
    pose proof (to_size_t_range (buflen - outlen)).
    destruct (Z.ltb_spec (to_size_t (buflen - outlen)) 0); [lia|reflexivity]. }
  fold (fragn_hdrlen_of (hdr + 4)).
  fold (fragn_quantum cfg (hdr + 4)).
  fold (fragn_paysize cfg (hdr + 4) buflen outlen).
  rewrite Hfh, P.
  unfold SIXLOWPAN_FRAG1_HDR_LEN, SIXLOWPAN_FRAGN_HDR_LEN,
    RIME_FRAG_DISPATCH_SIZE, RIME_FRAG_TAG, RIME_FRAG_OFFSET.
  rewrite to_size_t_small by lia.
  rewrite memcpy_ok by lia. cbn [bind].
  edestruct PUTINT16_ok as (d1 & ->); [| |cbn [bind]]; try lia.
  edestruct PUTINT16_ok as (d2 & ->); [| |cbn [bind]]; try lia.
  rewrite store_ok by lia. cbn [bind].
  rewrite memcpy_ok by lia. cbn [bind].
  rewrite Z.add_0_r, to_uint16_small by lia.
  eexists. reflexivity.
Qed.

Lemma queue_fragn_loop_idle (mac pktlen : Z) (frame1 : bytes) (hdr : Z)
    (buf : bytes) (buflen : Z) :
  0 <= mac <= hdr -> hdr + 4 <= 255 -> hdr + 9 <= BUFSIZE ->
  fragn_quantum cfg (hdr + 4) = 0 ->
  forall (fuel : nat) (st : netstate) (outlen : Z),
  0 <= outlen <= 65535 -> outlen < buflen ->
  queue_fragn_loop cfg ext fuel st mac pktlen outlen frame1 (hdr + 4) buf buflen =
  OutOfFuel.
Proof.
  intros Hm Hw Hc Hq.
  induction fuel as [|fuel IH]; intros st outlen Ho Hlt;
    cbn [queue_fragn_loop];
    replace (outlen <? buflen) with true by (symmetry; apply Z.ltb_lt; exact Hlt).
  - reflexivity.
  - destruct (queue_fragn_idle st mac pktlen outlen frame1 hdr buf buflen)
      as (st1 & ->); try lia.
    cbn [bind]. apply IH; assumption.
Qed.

(** X7: when the MAC and compressed headers leave fewer than 8 bytes
    behind a FRAGN header ([(FRAMELEN - hdr - 5) & 0xf8] is 0), a datagram
    that needs fragmenting is never sent: every pass through the FRAGN
    loop takes a buffer, copies no payload and leaves [outlen] where it
    was, so the call does not return, however long it runs. *)
Theorem no_payload_room_spins (st : netstate) (destip buf : bytes) (buflen : Z)
    (destmac : option rimeaddr_s) (mac hdr unc : Z) :
  CONFIG_NET_6LOWPAN_FRAG cfg = true ->
  headers_of cfg ext st destip buflen destmac = Some (mac, hdr, unc) ->
  mac <= hdr -> hdr + SIXLOWPAN_FRAG1_HDR_LEN <= 255 ->
  hdr + SIXLOWPAN_FRAG1_HDR_LEN <= FRAMELEN ->
  FRAMELEN <= BUFSIZE -> hdr + 9 <= BUFSIZE ->
  FRAMELEN - hdr < buflen ->
  Z.land (FRAMELEN - (hdr + SIXLOWPAN_FRAGN_HDR_LEN)) SIXLOWPAN_DISPATCH_FRAG_MASK = 0 ->
  forall fuel,
    sixlowpan_queue_frames cfg ext fuel st destip buf buflen destmac = OutOfFuel.
Proof.
  intros Hfrag Hh Hm Hw Hf Hc Hc9 Hbig Hq fuel. unfold headers_of in Hh.
  destruct (queue_headers cfg ext st destip buflen destmac) as [r| |] eqn:E;
    try discriminate.
  destruct r as [[e s1]|[[[iob panid] mac'] s1]]; [discriminate|].
  injection Hh as -> <- <-.
  unfold SIXLOWPAN_FRAG1_HDR_LEN, SIXLOWPAN_FRAGN_HDR_LEN in *.
  pose proof (queue_headers_inv _ _ _ _ _ _ _ E) as (_ & M0 & _).
  set (g := net_scratch s1) in *.
  unfold sixlowpan_queue_frames. rewrite E. cbn [bind]. fold g.
  rewrite needs_fragmentation_true by lia. rewrite Hfrag.
  unfold queue_fragments.
  destruct (queue_frag1_total cfg ext s1 iob mac panid buf buflen)
    as ([[[[st1 pktlen] o1] frame1] f1h] & E1); try (fold g; lia).
  rewrite E1. cbn [bind].
  apply queue_frag1_inv in E1.
  destruct E1 as (f1 & _ & _ & _ & _ & Ef & _ & Eo & _ & (Ho & _) & _).
  fold g in Ef, Eo. unfold SIXLOWPAN_FRAG1_HDR_LEN in Ef.
  rewrite to_uint8_small in Ef by lia. subst f1h.
  pose proof (land_lnot7_bounds (FRAMELEN - (g_frame_hdrlen g + 4))) as (B & _).
  assert (0 <= Z.land (FRAMELEN - (g_frame_hdrlen g + 4)) (Z.lnot 7)).
  { apply Z.land_nonneg. left. lia. }
  pose proof (to_uint16_range
    (Z.land (FRAMELEN - (g_frame_hdrlen g + 4)) (Z.lnot 7))).
  pose proof (to_uint16_le
    (Z.land (FRAMELEN - (g_frame_hdrlen g + 4)) (Z.lnot 7))).
  rewrite queue_fragn_loop_idle; try lia; [reflexivity|].
  rewrite fragn_quantum_val, fragn_hdrlen_of_val by lia.
  replace (g_frame_hdrlen g + 4 + 1) with (g_frame_hdrlen g + 5) by lia.
  exact Hq.
Qed.

(** X8: a datagram of 65536 bytes or more is never sent successfully:
    [outlen] is a 16-bit counter that cannot reach [buflen], so the
    fragmenting loop has no exit, and the single-frame copy does not fit
    a buffer. *)
Theorem datagram_of_64k_never_sent (fuel : nat) (st : netstate)
    (destip buf : bytes) (buflen : Z) (destmac : option rimeaddr_s)
    (st' : netstate) :
  65536 <= buflen -> BUFSIZE <= 65535 ->
  sixlowpan_queue_frames cfg ext fuel st destip buf buflen destmac <> Done (OK, st').
Proof.
  intros Hbig Hc H.
  destruct (queue_frames_ok_headers _ _ _ _ _ _ _ _ _ _ H)
    as [(s1 & E & _)|(iob & panid & mac & s1 & E)].
  - apply queue_headers_inv in E. unfold OK in E. lia.
  - destruct (queue_frames_cases _ _ _ _ _ _ _ _ _ _ _ _ _ _ E H)
      as [(_ & _ & _ & o & F)|[(_ & _ & C & _)|(_ & _ & S)]].
    + apply queue_fragments_meta in F.
      destruct F as (f1 & fs & _ & _ & _ & _ & _ & _ & _ & _ & X1 & X2). lia.
    + discriminate C.
    + apply queue_single_inv in S. destruct S as (f & _ & _ & _ & B & _). lia.
Qed.

(** X9: the size test of line 338 compares [buflen] with an [int] that is
    converted to [size_t]: when the MAC and compressed headers alone exceed
    the frame capacity the difference is negative, counts as a number
    close to 2^32, and the datagram is not fragmented (nor refused when
    fragmentation is compiled out) but goes out in one frame that is
    longer than the capacity. *)
Theorem headers_beyond_capacity_skip_size_test (fuel : nat) (st : netstate)
    (destip buf : bytes) (buflen : Z) (destmac : option rimeaddr_s)
    (mac hdr unc : Z) :
  headers_of cfg ext st destip buflen destmac = Some (mac, hdr, unc) ->
  0 <= FRAMELEN < hdr -> 0 <= buflen ->
  hdr + buflen <= BUFSIZE -> BUFSIZE <= 65535 ->
  exists st' f,
    sixlowpan_queue_frames cfg ext fuel st destip buf buflen destmac = Done (OK, st') /\
    i_framelist (net_ieee st') = [f] /\
    io_len f = hdr + buflen /\ FRAMELEN < io_len f.
Proof.
  intros Hh Hover Hb Hc Hc'. unfold headers_of in Hh.
  destruct (queue_headers cfg ext st destip buflen destmac) as [r| |] eqn:E;
    try discriminate.
  destruct r as [[e s1]|[[[iob panid] mac'] s1]]; [discriminate|].
  injection Hh as -> <- <-.
  set (g := net_scratch s1) in *.
  assert (N : needs_fragmentation cfg buflen g = false).
  { unfold needs_fragmentation. apply Z.ltb_ge. unfold to_size_t.
    replace (FRAMELEN - g_frame_hdrlen g)
      with (FRAMELEN - g_frame_hdrlen g + 2 ^ 32 + (-1) * 2 ^ 32) by lia.
    rewrite Z.mod_add by lia. rewrite Z.mod_small by lia. lia. }
  destruct (queue_single_total cfg ext s1 iob panid buf buflen) as (st' & S);
    try (fold g; lia).
  pose proof (queue_single_inv _ _ _ _ _ _ _ _ S) as I.
  destruct I as (f & -> & L & _). fold g in L.
  rewrite to_uint16_small in L by lia.
  do 2 eexists.
  split.
  { unfold sixlowpan_queue_frames. rewrite E. cbn [bind]. fold g.
    rewrite N, S. reflexivity. }
  cbn [net_ieee set_framelist i_framelist].
  split; [reflexivity|]. split; lia.
Qed.

End QueuerAccounting.

(** * Properties of the DS3231 driver *)

(** ** BCD conversion *)

Lemma to_uint8_succ (x : Z) : to_uint8 (to_uint8 x + 1) = to_uint8 (x + 1).
Proof. unfold to_uint8. apply Zplus_mod_idemp_l. Qed.

(** The loop runs [value / 10] times. *)
Lemma rtc_bin2bcd_loop_run (fuel : nat) :
  forall msbcd value,
  0 <= value -> (Z.to_nat (value / 10) <= fuel)%nat ->
  rtc_bin2bcd_loop fuel msbcd value =
  Done (if 10 <=? value then to_uint8 (msbcd + value / 10) else msbcd,
        value mod 10).
Proof.
  induction fuel as [|fuel IH]; intros msbcd value H0 Hf;
    cbn [rtc_bin2bcd_loop].
  - destruct (Z.leb_spec 10 value) as [G|L].
    + assert (1 <= value / 10) by (apply Z.div_le_lower_bound; lia). lia.
    + rewrite Z.mod_small by lia. reflexivity.
  - destruct (Z.leb_spec 10 value) as [G|L].
    + assert (D : value / 10 = (value - 10) / 10 + 1).
      { replace value with (value - 10 + 1 * 10) at 1 by lia.
        apply Z.div_add. lia. }
      assert (M : value mod 10 = (value - 10) mod 10).
      { replace value with (value - 10 + 1 * 10) at 1 by lia.
        apply Z.mod_add. lia. }
      assert (0 <= (value - 10) / 10) by (apply Z.div_pos; lia).
      rewrite IH by lia. rewrite M. f_equal. f_equal.
      destruct (Z.leb_spec 10 (value - 10)) as [G'|L'].
      * unfold to_uint8. rewrite Zplus_mod_idemp_l. f_equal. lia.
      * rewrite (Z.div_small (value - 10) 10) in D by lia.
        rewrite D. reflexivity.
    + rewrite Z.mod_small by lia. reflexivity.
Qed.

(** [(q << k) | r] is [q * 2^k + r] when [r] fits in [k] bits. *)
Lemma lor_shiftl_add (q r k : Z) :
  0 <= k -> 0 <= r < 2 ^ k -> Z.lor (Z.shiftl q k) r = q * 2 ^ k + r.
Proof.
  intros Hk Hr.
  assert (L : Z.land (Z.shiftl q k) r = 0).
  { apply Z.bits_inj'. intros n Hn.
    rewrite Z.land_spec, Z.bits_0.
    destruct (Z.lt_ge_cases n k) as [Lt|Ge].
    - rewrite Z.shiftl_spec_low by lia. reflexivity.
    - rewrite <- (Z.mod_small r (2 ^ k)) by lia.
      rewrite Z.mod_pow2_bits_high by lia. apply andb_false_r. }
  rewrite <- Z.lxor_lor by exact L.
  rewrite <- Z.add_nocarry_lxor by exact L.
  rewrite Z.shiftl_mul_pow2 by lia. reflexivity.
Qed.

(** The two nibbles of [16 * hi + lo]. *)
Lemma nibbles (hi lo : Z) :
  0 <= hi -> 0 <= lo < 16 ->
  Z.shiftr (16 * hi + lo) 4 = hi /\ Z.land (16 * hi + lo) 0x0f = lo.
Proof.
  intros Hh Hl. split.
  - rewrite Z.shiftr_div_pow2 by lia. change (2 ^ 4) with 16.
    symmetry. apply (Z.div_unique _ _ hi lo); lia.
  - change 0x0f with (Z.ones 4). rewrite Z.land_ones by lia.
    change (2 ^ 4) with 16.
    symmetry. apply (Z.mod_unique _ _ hi lo); lia.
Qed.

(** [rtc_bin2bcd] on a non-negative value. *)
Lemma rtc_bin2bcd_run (fuel : nat) (v : Z) :
  0 <= v -> (Z.to_nat (v / 10) <= fuel)%nat ->
  rtc_bin2bcd fuel v = Done (to_uint8 (16 * to_uint8 (v / 10) + v mod 10)).
Proof.
  intros H0 Hf. unfold rtc_bin2bcd.
  rewrite rtc_bin2bcd_loop_run by assumption. cbn [bind].
  pose proof (Z.mod_pos_bound v 10 ltac:(lia)).
  assert (E : (if 10 <=? v then to_uint8 (0 + v / 10) else 0) = to_uint8 (v / 10)).
  { destruct (Z.leb_spec 10 v); [reflexivity|].
    rewrite Z.div_small by lia. reflexivity. }
  rewrite E. rewrite lor_shiftl_add by lia.
  do 2 f_equal. change (2 ^ 4) with 16. lia.
Qed.

(** Below 160 nothing wraps. *)
Lemma rtc_bin2bcd_small (fuel : nat) (v : Z) :
  0 <= v < 160 -> (15 <= fuel)%nat ->
  rtc_bin2bcd fuel v = Done (16 * (v / 10) + v mod 10).
Proof.
  intros H Hf.
  pose proof (Z.mod_pos_bound v 10 ltac:(lia)).
  assert (0 <= v / 10 < 16).
  { split; [apply Z.div_pos; lia|apply Z.div_lt_upper_bound; lia]. }
  rewrite rtc_bin2bcd_run by lia.
  rewrite (to_uint8_small (v / 10)) by lia.
  rewrite to_uint8_small by lia. reflexivity.
Qed.

Lemma rtc_bcd2bin_nibbles (hi lo : Z) :
  0 <= hi < 16 -> 0 <= lo < 16 -> rtc_bcd2bin (16 * hi + lo) = 10 * hi + lo.
Proof.
  intros Hh Hl. unfold rtc_bcd2bin. cbv zeta.
  rewrite to_uint8_small by lia.
  destruct (nibbles hi lo) as (-> & ->); lia.
Qed.

(** X10: for a value from 0 to 159, [rtc_bin2bcd] returns the byte whose
    high nibble is the tens and whose low nibble is the units, and
    [rtc_bcd2bin] takes that byte back to the value. *)
Theorem rtc_bcd_round_trip (fuel : nat) (v : Z) :
  0 <= v < 160 -> (15 <= fuel)%nat ->
  exists b,
    rtc_bin2bcd fuel v = Done b /\
    Z.shiftr b 4 = v / 10 /\ Z.land b 0x0f = v mod 10 /\
    rtc_bcd2bin b = v.
Proof.
  intros H Hf.
  pose proof (Z.mod_pos_bound v 10 ltac:(lia)).
  assert (0 <= v / 10 < 16).
  { split; [apply Z.div_pos; lia|apply Z.div_lt_upper_bound; lia]. }
  exists (16 * (v / 10) + v mod 10).
  split; [apply rtc_bin2bcd_small; assumption|].
  destruct (nibbles (v / 10) (v mod 10)) as (N1 & N2); try lia.
  split; [exact N1|]. split; [exact N2|].
  rewrite rtc_bcd2bin_nibbles by lia.
  pose proof (Z.div_mod v 10 ltac:(lia)). lia.
Qed.

(** X11: a byte decoded by [rtc_bcd2bin] and encoded again by
    [rtc_bin2bcd] comes back unchanged exactly when its low nibble is a
    decimal digit. *)
Theorem rtc_bcd_reencode (fuel : nat) (b : Z) :
  0 <= b <= 255 -> (16 <= fuel)%nat ->
  rtc_bin2bcd fuel (rtc_bcd2bin b) = Done b <-> Z.land b 0x0f <= 9.
Proof.
  intros Hb Hf.
  set (hi := b / 16). set (lo := b mod 16).
  pose proof (Z.mod_pos_bound b 16 ltac:(lia)) as Hlo. fold lo in Hlo.
  assert (Hhi : 0 <= hi < 16).
  { subst hi. split; [apply Z.div_pos; lia|apply Z.div_lt_upper_bound; lia]. }
  assert (Eb : b = 16 * hi + lo).
  { subst hi lo. apply Z.div_mod. lia. }
  rewrite Eb.
  destruct (nibbles hi lo) as (_ & ->); try lia.
  rewrite rtc_bcd2bin_nibbles by lia.
  destruct (Z_le_gt_dec lo 9) as [Dec|Hex].
  - assert (D : (10 * hi + lo) / 10 = hi)
      by (symmetry; apply (Z.div_unique _ _ hi lo); lia).
    assert (M : (10 * hi + lo) mod 10 = lo)
      by (symmetry; apply (Z.mod_unique _ _ hi lo); lia).
    rewrite rtc_bin2bcd_small by lia. rewrite D, M. tauto.
  - assert (D : (10 * hi + lo) / 10 = hi + 1)
      by (symmetry; apply (Z.div_unique _ _ (hi + 1) (lo - 10)); lia).
    assert (M : (10 * hi + lo) mod 10 = lo - 10)
      by (symmetry; apply (Z.mod_unique _ _ (hi + 1) (lo - 10)); lia).
    rewrite rtc_bin2bcd_run by (rewrite ?D; lia).
    rewrite D, M. split; [|lia].
    intros E. exfalso.
    assert (E' : to_uint8 (16 * to_uint8 (hi + 1) + (lo - 10)) = 16 * hi + lo)
      by congruence.
    rewrite (to_uint8_small (hi + 1)) in E' by lia.
    unfold to_uint8 in E'. change (2 ^ 8) with 256 in E'.
    pose proof (Z.div_mod (16 * (hi + 1) + (lo - 10)) 256 ltac:(lia)). lia.
Qed.

(** X12: [rtc_bin2bcd] returns for every [int]: a value below 10, negative
    ones included, skips the loop and comes back as its low byte; any other
    takes one pass per ten and comes back as tens and units packed into
    one byte, the tens modulo 16 (160 gives 0x00). *)
Theorem rtc_bin2bcd_any_value (fuel : nat) (v : Z) :
  (v < 10 -> rtc_bin2bcd fuel v = Done (v mod 2 ^ 8)) /\
  (10 <= v -> (Z.to_nat (v / 10) <= fuel)%nat ->
   rtc_bin2bcd fuel v = Done ((16 * (v / 10) + v mod 10) mod 2 ^ 8)).
Proof.
  split.
  - intros H. unfold rtc_bin2bcd.
    assert (E : rtc_bin2bcd_loop fuel 0 v = Done (0, v)).
    { destruct fuel; cbn [rtc_bin2bcd_loop];
        (replace (10 <=? v) with false by (symmetry; apply Z.leb_gt; lia));
        reflexivity. }
    rewrite E. cbn [bind]. rewrite Z.shiftl_0_l, Z.lor_0_l. reflexivity.
  - intros H Hf. rewrite rtc_bin2bcd_run by lia.
    unfold to_uint8. f_equal.
    rewrite <- Zplus_mod_idemp_l, <- Zmult_mod_idemp_r.
    rewrite Z.mod_mod by lia.
    rewrite Zmult_mod_idemp_r, Zplus_mod_idemp_l. reflexivity.
Qed.

(** ** Setting the time *)

Section Ds3231Properties.

Variable cfg : rtc_config.
Variable ext : rtc_collaborators.

Lemma to_int_small (x : Z) : - 2 ^ 31 <= x < 2 ^ 31 -> to_int x = Done x.
Proof.
  intros H. unfold to_int.
  replace (- 2 ^ 31 <=? x) with true by (symmetry; apply Z.leb_le; lia).
  replace (x <? 2 ^ 31) with true by (symmetry; apply Z.ltb_lt; lia).
  reflexivity.
Qed.

(** X13: for a broken-down time within the calendar ranges and a year
    from 1900 to 2099, [up_rtc_settime] sets the bus frequency and then
    transfers one 8-byte write message to address 0x68, whose result it
    returns.  The message holds the seconds register address, then
    seconds, minutes, hours (with the 24-hour flag), day of the week plus
    one, day of the month and month plus one (with the century flag), each
    as two BCD digits, and last the year within the century, which is
    stored in binary: read back through [rtc_bcd2bin] it is the year only
    when that is below 16. *)
Theorem settime_register_image (fuel : nat) (tp : timespec) (newtm : tm) :
  settime_newtm cfg ext tp = Some newtm ->
  0 <= tm_sec newtm <= 61 -> 0 <= tm_min newtm <= 59 ->
  0 <= tm_hour newtm <= 23 -> 0 <= tm_wday newtm <= 6 ->
  1 <= tm_mday newtm <= 31 -> 0 <= tm_mon newtm <= 11 ->
  0 <= tm_year newtm <= 199 ->
  (15 <= fuel)%nat ->
  let bcd v := 16 * (v / 10) + v mod 10 in
  let year := tm_year newtm mod 100 in
  let buffer :=
    [ to_uint8 (DS3231_TIME_SECR cfg);
      bcd (tm_sec newtm);
      bcd (tm_min newtm);
      to_uint8 (Z.lor (bcd (tm_hour newtm)) (DS3231_TIME_24 cfg));
      if CONFIG_LIBC_LOCALTIME cfg || CONFIG_TIME_EXTENDED cfg
      then bcd (tm_wday newtm + 1) else 1;
      bcd (tm_mday newtm);
      to_uint8 (Z.lor (bcd (tm_mon newtm + 1))
                  (to_uint8 (if tm_year newtm <? 100
                             then DS3231_TIME_1900 cfg
                             else DS3231_TIME_2000 cfg)));
      year ] in
  let msg := mk_i2c_msg DS3231_I2C_ADDRESS 0 buffer 8 in
  up_rtc_settime cfg ext fuel tp =
    Done (i2c_transfer ext [msg],
          [I2C_SETFREQUENCY (CONFIG_DS3231_I2C_FREQUENCY cfg); I2C_TRANSFER [msg]]) /\
  (rtc_bcd2bin year = year <-> year < 16).
Proof.
  intros Hn Hs Hm Hh Hw Hd Hmo Hy Hf bcd year buffer msg.
  split.
  - unfold up_rtc_settime. rewrite Hn.
    rewrite !rtc_bin2bcd_small by lia. cbn [bind].
    assert (Ew : (if CONFIG_LIBC_LOCALTIME cfg || CONFIG_TIME_EXTENDED cfg
                  then d <- to_int (tm_wday newtm + 1);; rtc_bin2bcd fuel d
                  else Done 1) =
                 Done (if CONFIG_LIBC_LOCALTIME cfg || CONFIG_TIME_EXTENDED cfg
                       then bcd (tm_wday newtm + 1) else 1)).
    { destruct (CONFIG_LIBC_LOCALTIME cfg || CONFIG_TIME_EXTENDED cfg);
        [|reflexivity].
      rewrite to_int_small by lia. cbn [bind].
      apply rtc_bin2bcd_small; lia. }
    rewrite Ew. cbn [bind].
    assert (Ec : (if tm_year newtm <? 100
                  then Done (to_uint8 (DS3231_TIME_1900 cfg), to_uint8 (tm_year newtm))
                  else y <- to_int (tm_year newtm - 100);;
                       Done (to_uint8 (DS3231_TIME_2000 cfg), to_uint8 y)) =
                 Done (to_uint8 (if tm_year newtm <? 100
                                 then DS3231_TIME_1900 cfg
                                 else DS3231_TIME_2000 cfg), year)).
    { subst year. destruct (Z.ltb_spec (tm_year newtm) 100).
      - rewrite (to_uint8_small (tm_year newtm)) by lia.
        rewrite Z.mod_small by lia. reflexivity.
      - rewrite to_int_small by lia. cbn [bind].
        rewrite (to_uint8_small (tm_year newtm - 100)) by lia. do 2 f_equal.
        apply (Z.mod_unique _ _ 1); lia. }
    rewrite Ec. cbn [bind].
    rewrite to_int_small by lia. cbn [bind].
    rewrite rtc_bin2bcd_small by lia. cbn [bind].
    reflexivity.
  - assert (Hyr : 0 <= year < 100) by (apply Z.mod_pos_bound; lia).
    set (hi := year / 16). set (lo := year mod 16).
    pose proof (Z.mod_pos_bound year 16 ltac:(lia)) as Hlo. fold lo in Hlo.
    assert (Hhi : 0 <= hi < 16).
    { subst hi. split; [apply Z.div_pos; lia|apply Z.div_lt_upper_bound; lia]. }
    assert (Eb : year = 16 * hi + lo) by (subst hi lo; apply Z.div_mod; lia).
    rewrite Eb at 1. rewrite rtc_bcd2bin_nibbles by lia. lia.
Qed.

(** X14: only the nearest whole second of the time handed to
    [up_rtc_settime] matters (half a second and more rounds up), and a
    time the C library cannot break down is refused with -EINVAL before
    anything is done on the bus. *)
Theorem settime_nearest_second (fuel : nat) (tp : timespec) :
  up_rtc_settime cfg ext fuel tp =
    up_rtc_settime cfg ext fuel
      (mk_timespec
         (if 500000000 <=? tv_nsec tp then tv_sec tp + 1 else tv_sec tp) 0) /\
  (settime_newtm cfg ext tp = None ->
   up_rtc_settime cfg ext fuel tp = Done (- EINVAL, [])).
Proof.
  split.
  - assert (E : settime_newtm cfg ext tp =
                settime_newtm cfg ext
                  (mk_timespec
                     (if 500000000 <=? tv_nsec tp then tv_sec tp + 1 else tv_sec tp) 0)).
    { unfold settime_newtm. cbn [tv_sec tv_nsec].
      change (500000000 <=? 0) with false. cbv iota.
      destruct (500000000 <=? tv_nsec tp); [|reflexivity].
      unfold to_time_t. rewrite Zplus_mod_idemp_l. reflexivity. }
    unfold up_rtc_settime. rewrite <- E. reflexivity.
  - intros Hn. unfold up_rtc_settime. rewrite Hn. reflexivity.
Qed.

End Ds3231Properties.

(** * Properties of the USB host enumeration helpers *)

(** X15: what [usbhost_putle16] stores, [usbhost_getle16] reads back: the
    value modulo 2^16, low byte first, and no byte but the two is
    touched. *)
Theorem usbhost_le16_round_trip (dest : bytes) (val : Z) :
  usbhost_getle16 (usbhost_putle16 dest val) = val mod 2 ^ 16 /\
  usbhost_putle16 dest val 0 = val mod 2 ^ 8 /\
  usbhost_putle16 dest val 1 = (val / 2 ^ 8) mod 2 ^ 8 /\
  forall j, j <> 0 -> j <> 1 -> usbhost_putle16 dest val j = dest j.
Proof.
  unfold usbhost_getle16, usbhost_putle16. cbv zeta.
  pose proof (to_uint16_range val) as R.
  set (v := to_uint16 val) in *.
  assert (Hhi : 0 <= Z.shiftr v 8 <= 255).
  { rewrite Z.shiftr_div_pow2 by lia. change (2 ^ 8) with 256.
    split; [apply Z.div_pos; lia|].
    assert (v / 256 < 256) by (apply Z.div_lt_upper_bound; lia). lia. }
  assert (Hlo : Z.land v 0xff = v mod 2 ^ 8).
  { change 0xff with (Z.ones 8). apply Z.land_ones. lia. }
  pose proof (Z.mod_pos_bound v (2 ^ 8) ltac:(lia)) as Rl.
  assert (B1 : poke (poke dest 0 (Z.land v 255)) 1 (Z.shiftr v 8) 1 = Z.shiftr v 8).
  { rewrite poke_eq. apply to_uint8_small. exact Hhi. }
  assert (B0 : poke (poke dest 0 (Z.land v 255)) 1 (Z.shiftr v 8) 0 = v mod 2 ^ 8).
  { rewrite poke_neq by lia. rewrite poke_eq, Hlo. apply to_uint8_small. lia. }
  split; [|split; [|split]].
  - rewrite B1, B0.
    rewrite (to_uint8_small (Z.shiftr v 8)) by exact Hhi.
    rewrite (to_uint8_small (v mod 2 ^ 8)) by lia.
    rewrite lor_shiftl_add by lia.
    rewrite Z.shiftr_div_pow2 by lia.
    pose proof (Z.div_mod v (2 ^ 8) ltac:(lia)) as E.
    replace (v / 2 ^ 8 * 2 ^ 8 + v mod 2 ^ 8) with v by lia.
    apply to_uint16_small. exact R.
  - rewrite B0. subst v. unfold to_uint16.
    apply Z.mod_mod_divide. exists (2 ^ 8). reflexivity.
  - rewrite B1. rewrite Z.shiftr_div_pow2 by lia.
    subst v. unfold to_uint16.
    change (2 ^ 16) with (2 ^ 8 * 2 ^ 8).
    rewrite Z.rem_mul_r by lia.
    rewrite Z.mul_comm, Z.div_add by lia.
    rewrite (Z.div_small (val mod 2 ^ 8)) by (apply Z.mod_pos_bound; lia).
    reflexivity.
  - intros j J0 J1. rewrite !poke_neq by lia. reflexivity.
Qed.

(** X16: [usbhost_devdesc] always returns OK and builds the ID from the
    descriptor alone: nothing with fewer than 7 bytes, the class, subclass
    and protocol bytes from 7 bytes on, and the vendor and product IDs,
    low byte first, only from 12 bytes on. *)
Theorem devdesc_needs_enough_bytes (devdesc : usb_devdesc_s) (desclen : Z) :
  fst (usbhost_devdesc devdesc desclen) = OK /\
  let id := snd (usbhost_devdesc devdesc desclen) in
  (id_base id, id_subclass id, id_proto id) =
    (if 7 <=? desclen
     then (dev_class devdesc mod 2 ^ 8, dev_subclass devdesc mod 2 ^ 8,
           dev_protocol devdesc mod 2 ^ 8)
     else (0, 0, 0)) /\
  (id_vid id, id_pid id) =
    (if 12 <=? desclen
     then (dev_vendor devdesc 0 mod 2 ^ 8 + 2 ^ 8 * (dev_vendor devdesc 1 mod 2 ^ 8),
           dev_product devdesc 0 mod 2 ^ 8 + 2 ^ 8 * (dev_product devdesc 1 mod 2 ^ 8))
     else (0, 0)).
Proof.
  assert (G : forall v : bytes,
            usbhost_getle16 v = v 0 mod 2 ^ 8 + 2 ^ 8 * (v 1 mod 2 ^ 8)).
  { intros v. unfold usbhost_getle16.
    pose proof (to_uint8_range (v 0)). pose proof (to_uint8_range (v 1)).
    rewrite lor_shiftl_add by lia.
    rewrite to_uint16_small by lia. unfold to_uint8. lia. }
  unfold usbhost_devdesc. cbv zeta. cbn [fst snd].
  split; [reflexivity|].
  destruct (Z.leb_spec 7 desclen) as [H7|H7].
  - destruct (Z.leb_spec 12 desclen) as [H12|H12];
      cbn [id_base id_subclass id_proto id_vid id_pid].
    + rewrite !G. split; reflexivity.
    + split; reflexivity.
  - replace (12 <=? desclen) with false by (symmetry; apply Z.leb_gt; lia).
    split; reflexivity.
Qed.

(** ** Walking the configuration descriptor *)

Lemma configdesc_loop_stalls (configdesc : bytes) (pos remaining : Z) :
  sizeof_usb_desc_s <= to_size_t remaining ->
  - 2 ^ 31 <= remaining < 2 ^ 31 ->
  to_uint8 (configdesc (pos + desc_type_off)) <> USB_DESC_TYPE_INTERFACE ->
  to_uint8 (configdesc (pos + desc_len_off)) = 0 ->
  forall fuel, usbhost_configdesc_loop fuel configdesc pos remaining = OutOfFuel.
Proof.
  intros Hr Hi Ht Hl.
  induction fuel as [|fuel IH]; cbn [usbhost_configdesc_loop];
    replace (sizeof_usb_desc_s <=? to_size_t remaining) with true
      by (symmetry; apply Z.leb_le; exact Hr).
  - reflexivity.
  - replace (to_uint8 (configdesc (pos + desc_type_off)) =? USB_DESC_TYPE_INTERFACE)
      with false by (symmetry; apply Z.eqb_neq; exact Ht).
    rewrite Hl, Z.sub_0_r, Z.add_0_r.
    rewrite to_int_small by exact Hi. cbn [bind]. exact IH.
Qed.

(** X17: a descriptor of length 0 that is not an interface descriptor,
    right behind the configuration descriptor, stalls
    [usbhost_configdesc]: the walk stays on it, whatever the number of
    passes.  The total length may be the real one or smaller than the
    configuration descriptor itself, in which case what remains is
    negative and counts as a large [size_t]. *)
Theorem configdesc_zero_length_stalls (configdesc : bytes) (desclen : Z) :
  to_uint8 (configdesc desc_type_off) = USB_DESC_TYPE_CONFIG ->
  let len := to_uint8 (configdesc desc_len_off) in
  let total := usbhost_getle16 (fun i => configdesc (cfgdesc_totallen_off + i)) in
  total < len \/ len + sizeof_usb_desc_s <= total ->
  to_uint8 (configdesc (len + desc_type_off)) <> USB_DESC_TYPE_INTERFACE ->
  to_uint8 (configdesc (len + desc_len_off)) = 0 ->
  forall fuel, usbhost_configdesc fuel configdesc desclen = OutOfFuel.
Proof.
  intros Hc len total Hr Ht Hl fuel.
  unfold usbhost_configdesc. rewrite Hc, Z.eqb_refl. cbn [negb].
  fold total. fold len.
  assert (Rt : 0 <= total <= 65535) by (apply to_uint16_range).
  assert (Rl : 0 <= len <= 255) by (apply to_uint8_range).
  rewrite to_int_small by lia. cbn [bind].
  apply configdesc_loop_stalls; try assumption; try lia.
  unfold sizeof_usb_desc_s in *. unfold to_size_t.
  destruct Hr as [Neg|Pos].
  - replace (total - len) with (total - len + 2 ^ 32 + (-1) * 2 ^ 32) by lia.
    rewrite Z.mod_add by lia. rewrite Z.mod_small by lia. lia.
  - rewrite Z.mod_small by lia. lia.
Qed.

Lemma configdesc_loop_plain (configdesc : bytes) (pos remaining : Z) (n : nat) :
  plain_descriptors configdesc pos remaining n ->
  forall fuel, (n <= fuel)%nat ->
  usbhost_configdesc_loop fuel configdesc pos remaining = Done (- ENOENT).
Proof.
  induction 1 as [pos remaining Hr|pos remaining n Hr Ht Hl _ IH];
    intros fuel Hf.
  - destruct fuel; cbn [usbhost_configdesc_loop];
      rewrite to_size_t_small by (unfold sizeof_usb_desc_s in *; lia);
      (replace (sizeof_usb_desc_s <=? remaining) with false
         by (symmetry; apply Z.leb_gt; lia)); reflexivity.
  - destruct fuel as [|fuel]; [lia|]. cbn [usbhost_configdesc_loop].
    rewrite to_size_t_small by (unfold sizeof_usb_desc_s in *; lia).
    replace (sizeof_usb_desc_s <=? remaining) with true
      by (symmetry; apply Z.leb_le; lia).
    replace (to_uint8 (configdesc (pos + desc_type_off)) =? USB_DESC_TYPE_INTERFACE)
      with false by (symmetry; apply Z.eqb_neq; exact Ht).
    rewrite to_int_small by (unfold sizeof_usb_desc_s in *; lia). cbn [bind].
    apply IH. lia.
Qed.

(** X18: on a configuration descriptor followed by [n] descriptors that
    fill the announced total length, none of them an interface descriptor,
    [usbhost_configdesc] returns -ENOENT after [n] passes; and whatever
    follows, it returns -EINVAL when the first descriptor is not of the
    configuration type. *)
Theorem configdesc_without_interface (fuel : nat) (configdesc : bytes)
    (desclen : Z) (n : nat) :
  (to_uint8 (configdesc desc_type_off) <> USB_DESC_TYPE_CONFIG ->
   usbhost_configdesc fuel configdesc desclen = Done (- EINVAL)) /\
  (to_uint8 (configdesc desc_type_off) = USB_DESC_TYPE_CONFIG ->
   let len := to_uint8 (configdesc desc_len_off) in
   let total := usbhost_getle16 (fun i => configdesc (cfgdesc_totallen_off + i)) in
   plain_descriptors configdesc len (total - len) n ->
   (n <= fuel)%nat ->
   usbhost_configdesc fuel configdesc desclen = Done (- ENOENT)).
Proof.
  split.
  - intros Hc. unfold usbhost_configdesc.
    replace (to_uint8 (configdesc desc_type_off) =? USB_DESC_TYPE_CONFIG)
      with false by (symmetry; apply Z.eqb_neq; exact Hc).
    reflexivity.
  - intros Hc len total Hp Hf.
    unfold usbhost_configdesc. rewrite Hc, Z.eqb_refl. cbn [negb].
    fold total. fold len.
    assert (Rt : 0 <= total <= 65535) by (apply to_uint16_range).
    assert (Rl : 0 <= len <= 255) by (apply to_uint8_range).
    rewrite to_int_small by lia. cbn [bind].
    eapply configdesc_loop_plain; eassumption.
Qed.

(** ** Binding a class *)

(** X19: [usbhost_classbind] either returns OK, having stored in [*class]
    the instance it created and connected, or returns an error and leaves
    [*class] as it was, and then an instance it created has been
    disconnected; the error is -EINVAL when no class is registered for the
    ID, -ENOMEM when the instance cannot be created, and otherwise what
    the connection returned. *)
Theorem classbind_hands_over_or_disconnects (registry class_inst : Type)
    (ext : usbhost_classes registry class_inst)
    (configdesc : bytes) (desclen : Z) (id : usbhost_id_s)
    (class : option class_inst) :
  let ret := fst (fst (usbhost_classbind ext configdesc desclen id class)) in
  let class' := snd (fst (usbhost_classbind ext configdesc desclen id class)) in
  let calls := snd (usbhost_classbind ext configdesc desclen id class) in
  (ret = OK /\
   exists reg c,
     usbhost_findclass _ _ ext id = Some reg /\
     CLASS_CREATE _ _ ext reg id = Some c /\
     CLASS_CONNECT _ _ ext c configdesc desclen = OK /\
     class' = Some c /\ calls = [created c; connected c])
  \/
  (ret <> OK /\ class' = class /\
   (forall c, In (created c) calls -> In (disconnected c) calls) /\
   match usbhost_findclass _ _ ext id with
   | None => ret = - EINVAL /\ calls = []
   | Some reg =>
       match CLASS_CREATE _ _ ext reg id with
       | None => ret = - ENOMEM /\ calls = []
       | Some c => ret = CLASS_CONNECT _ _ ext c configdesc desclen
       end
   end).
Proof.
  unfold usbhost_classbind.
  destruct (usbhost_findclass _ _ ext id) as [reg|] eqn:Ef.
  - destruct (CLASS_CREATE _ _ ext reg id) as [c|] eqn:Ec.
    + destruct (Z.eqb_spec (CLASS_CONNECT _ _ ext c configdesc desclen) OK) as [E|N];
        cbn [negb fst snd].
      * left. split; [exact E|]. exists reg, c.
        split; [reflexivity|]. split; [exact Ec|]. split; [exact E|].
        split; reflexivity.
      * right. split; [exact N|]. split; [reflexivity|]. split; [|reflexivity].
        intros c' [H|[H|[H|[]]]]; try discriminate.
        injection H as <-. cbn. tauto.
    + cbn [fst snd]. right. unfold ENOMEM, OK.
      split; [lia|]. split; [reflexivity|]. split; [intros c []|].
      split; reflexivity.
  - cbn [fst snd]. right. unfold EINVAL, OK.
    split; [lia|]. split; [reflexivity|]. split; [intros c []|].
    split; reflexivity.
Qed.

(** * The further properties at work *)

(** ** On the concrete link *)

(** The four frames of the 200-byte datagram are 120, 121, 121 and 97 bytes
    long: the head says 459. *)
Lemma head_pktlen_totals_witness :
  exists st' f1 fs,
    sixlowpan_queue_frames scenario_cfg (scenario_ext 11) 200 scenario_state
      udp_datagram_hdr scenario_payload 200 None = Done (OK, st') /\
    i_framelist (net_ieee st') = f1 :: fs /\
    io_pktlen f1 = 459.
Proof.
  assert (L : outcome_lengths
                (sixlowpan_queue_frames scenario_cfg (scenario_ext 11) 200
                   scenario_state udp_datagram_hdr scenario_payload 200 None) =
              Some (OK, [120; 121; 121; 97])) by (vm_compute; reflexivity).
  destruct (sixlowpan_queue_frames scenario_cfg (scenario_ext 11) 200
              scenario_state udp_datagram_hdr scenario_payload 200 None)
    as [[rc st']| |] eqn:E; [|discriminate L|discriminate L].
  cbn in L. injection L as -> Hl.
  destruct (head_pktlen_totals scenario_cfg (scenario_ext 11) 200 scenario_state
              udp_datagram_hdr scenario_payload 200 None st' E)
    as (f1 & fs & Hf & Hp & _).
  exists st', f1, fs. split; [reflexivity|]. split; [exact Hf|].
  rewrite Hp, <- Hf, Hl. reflexivity.
Defined.

(** Four frames, four buffers. *)
Lemma buffers_taken_match_frames_witness :
  exists st',
    sixlowpan_queue_frames scenario_cfg (scenario_ext 11) 200 scenario_state
      udp_datagram_hdr scenario_payload 200 None = Done (OK, st') /\
    net_iobs st' = 4%nat.
Proof.
  assert (L : outcome_lengths
                (sixlowpan_queue_frames scenario_cfg (scenario_ext 11) 200
                   scenario_state udp_datagram_hdr scenario_payload 200 None) =
              Some (OK, [120; 121; 121; 97])) by (vm_compute; reflexivity).
  destruct (sixlowpan_queue_frames scenario_cfg (scenario_ext 11) 200
              scenario_state udp_datagram_hdr scenario_payload 200 None)
    as [[rc st']| |] eqn:E; [|discriminate L|discriminate L].
  cbn in L. injection L as -> Hl.
  exists st'. split; [reflexivity|].
  rewrite (buffers_taken_match_frames scenario_cfg (scenario_ext 11) 200
             scenario_state udp_datagram_hdr scenario_payload 200 None st' E).
  apply (f_equal (@length Z)) in Hl. rewrite length_map in Hl.
  rewrite Hl. reflexivity.
Defined.

(** In the 200-byte datagram the dispatch byte 0x41 is at offset 15 of the
    first frame, behind 11 bytes of MAC header and the FRAG1 header, and at
    offset 16 of every other frame. *)
Lemma fragments_repeat_headers_witness :
  exists st' f1 fs,
    sixlowpan_queue_frames scenario_cfg (scenario_ext 11) 200 scenario_state
      udp_datagram_hdr scenario_payload 200 None = Done (OK, st') /\
    i_framelist (net_ieee st') = f1 :: fs /\
    io_data f1 15 = 0x41 /\
    Forall (fun f => io_data f 16 = 0x41) fs.
Proof.
  assert (L : outcome_lengths
                (sixlowpan_queue_frames scenario_cfg (scenario_ext 11) 200
                   scenario_state udp_datagram_hdr scenario_payload 200 None) =
              Some (OK, [120; 121; 121; 97])) by (vm_compute; reflexivity).
  assert (K : match queue_headers scenario_cfg (scenario_ext 11) scenario_state
                      udp_datagram_hdr 200 None with
              | Done (inr (iob, panid, mac, st1)) =>
                  Some (mac, g_frame_hdrlen (net_scratch st1),
                        needs_fragmentation scenario_cfg 200 (net_scratch st1),
                        fst (sixlowpan_framecreate (scenario_ext 11) (net_scratch st1)
                               (net_ieee st1) (io_data iob) panid) 11)
              | _ => None
              end = Some (11, 60, true, 0x41)) by (vm_compute; reflexivity).
  destruct (sixlowpan_queue_frames scenario_cfg (scenario_ext 11) 200
              scenario_state udp_datagram_hdr scenario_payload 200 None)
    as [[rc st']| |] eqn:E; [|discriminate L|discriminate L].
  cbn in L. injection L as -> _.
  destruct (queue_headers scenario_cfg (scenario_ext 11) scenario_state
              udp_datagram_hdr 200 None)
    as [[[e s1]|[[[iob panid] mac] st1]]| |] eqn:H; try discriminate K.
  assert (Km : mac = 11) by congruence.
  assert (Kh : g_frame_hdrlen (net_scratch st1) = 60) by congruence.
  assert (Kn : needs_fragmentation scenario_cfg 200 (net_scratch st1) = true)
    by congruence.
  assert (Ke : fst (sixlowpan_framecreate (scenario_ext 11) (net_scratch st1)
                      (net_ieee st1) (io_data iob) panid) 11 = 0x41) by congruence.
  subst mac.
  destruct (fragments_repeat_headers scenario_cfg (scenario_ext 11) 200
              scenario_state udp_datagram_hdr scenario_payload 200 None
              iob panid 11 st1 st' H)
    as (f1 & fs & Hf & H1 & Hn); try assumption.
  - rewrite Kh. lia.
  - rewrite Kh. simpl. lia.
  - exists st', f1, fs. split; [reflexivity|]. split; [exact Hf|].
    rewrite Kh in H1, Hn. split.
    + rewrite <- Ke. apply (H1 0). lia.
    + eapply Forall_impl; [|exact Hn].
      intros f Hfr. rewrite <- Ke. apply (Hfr 0). lia.
Defined.

(** Twenty bytes of payload behind 60 bytes of headers: one frame of 80. *)
Lemma datagram_that_fits_is_one_frame_witness :
  exists st' f,
    sixlowpan_queue_frames scenario_cfg (scenario_ext 11) 0 scenario_state
      udp_datagram_hdr scenario_payload 20 None = Done (OK, st') /\
    i_framelist (net_ieee st') = [f] /\ io_len f = 80.
Proof.
  destruct (datagram_that_fits_is_one_frame scenario_cfg (scenario_ext 11) 0
              scenario_state udp_datagram_hdr scenario_payload 20 None 11 60 48)
    as (st' & f & R & L & Ln & _).
  - vm_compute. reflexivity.
  - lia.
  - simpl. lia.
  - simpl. lia.
  - simpl. lia.
  - exists st', f. split; [exact R|]. split; [exact L|]. rewrite Ln. reflexivity.
Defined.


(** A TCP segment with no flag set is stream traffic, sent with up to four
    MAC transmissions, as a broadcast when [destmac] is NULL. *)
Lemma packet_attributes_set_witness :
  exists st',
    sixlowpan_queue_frames scenario_cfg (scenario_ext 11) 0 scenario_state
      (tcp_datagram_hdr 0x50) scenario_payload 20 None = Done (OK, st') /\
    g_pktattrs (net_scratch st') PACKETBUF_ATTR_PACKET_TYPE = 2 /\
    g_pktattrs (net_scratch st') PACKETBUF_ATTR_MAX_MAC_TRANSMISSIONS = 4 /\
    g_pktaddrs (net_scratch st') PACKETBUF_ADDR_RECEIVER = repeat 0 8.
Proof.
  assert (L : outcome_lengths
                (sixlowpan_queue_frames scenario_cfg (scenario_ext 11) 0
                   scenario_state (tcp_datagram_hdr 0x50) scenario_payload 20 None) =
              Some (OK, [92])) by (vm_compute; reflexivity).
  destruct (sixlowpan_queue_frames scenario_cfg (scenario_ext 11) 0
              scenario_state (tcp_datagram_hdr 0x50) scenario_payload 20 None)
    as [[rc st']| |] eqn:E; [|discriminate L|discriminate L].
  cbn in L. injection L as -> _.
  exists st'. split; [reflexivity|].
  destruct (packet_attributes_set scenario_cfg (scenario_ext 11) 0 scenario_state
              (tcp_datagram_hdr 0x50) scenario_payload 20 None OK st')
    as (A & B & _ & D).
  - left. reflexivity.
  - exact E.
  - rewrite A, B, D. repeat split.
Defined.

(** A 21-byte MAC header and a TCP header of 60 bytes take 122 of the 127
    bytes: thirty passes, a thousand passes, and the call has not
    returned. *)
Lemma no_payload_room_spins_witness :
  sixlowpan_queue_frames scenario_cfg (scenario_ext 21) 30 scenario_state
    (tcp_datagram_hdr 0xf0) scenario_payload 10 None = OutOfFuel /\
  sixlowpan_queue_frames scenario_cfg (scenario_ext 21) 1000 scenario_state
    (tcp_datagram_hdr 0xf0) scenario_payload 10 None = OutOfFuel.
Proof.
  pose proof (no_payload_room_spins scenario_cfg (scenario_ext 21) scenario_state
                (tcp_datagram_hdr 0xf0) scenario_payload 10 None 21 122 100) as S.
  split; apply S; try reflexivity; try (simpl; lia); vm_compute; reflexivity.
Defined.

(** 65536 bytes of payload: no OK, however much fuel. *)
Lemma datagram_of_64k_never_sent_witness :
  ~ exists st',
      sixlowpan_queue_frames scenario_cfg (scenario_ext 11) 5000 scenario_state
        udp_datagram_hdr scenario_payload 65536 None = Done (OK, st').
Proof.
  intros (st' & E).
  apply (datagram_of_64k_never_sent scenario_cfg (scenario_ext 11) 5000
           scenario_state udp_datagram_hdr scenario_payload 65536 None st').
  - lia.
  - simpl. lia.
  - exact E.
Defined.

(** A 30-byte MAC header and a TCP header of 60 bytes are 131 bytes of
    headers for a frame of 127: five bytes of payload go out in one frame
    of 136. *)
Lemma headers_beyond_capacity_skip_size_test_witness :
  exists st' f,
    sixlowpan_queue_frames scenario_cfg (scenario_ext 30) 0 scenario_state
      (tcp_datagram_hdr 0xf0) scenario_payload 5 None = Done (OK, st') /\
    i_framelist (net_ieee st') = [f] /\ io_len f = 136.
Proof.
  destruct (headers_beyond_capacity_skip_size_test scenario_cfg (scenario_ext 30) 0
              scenario_state (tcp_datagram_hdr 0xf0) scenario_payload 5 None
              30 131 100)
    as (st' & f & R & L & Ln & _).
  - vm_compute. reflexivity.
  - simpl. lia.
  - lia.
  - simpl. lia.
  - simpl. lia.
  - exists st', f. split; [exact R|]. split; [exact L|]. rewrite Ln. reflexivity.
Defined.

(** ** On the clock *)

(** Fifty-nine is 0x59 and back. *)
Lemma rtc_bcd_round_trip_witness :
  rtc_bin2bcd 15 59 = Done 0x59 /\ rtc_bcd2bin 0x59 = 59.
Proof.
  destruct (rtc_bcd_round_trip 15 59) as (b & E & _ & _ & R); try lia.
  assert (Eb : Done b = Done 0x59 :> result Z) by (rewrite <- E; reflexivity).
  assert (b = 0x59) by congruence. subst b.
  split; [exact E|exact R].
Defined.

(** 0x59 survives decoding and encoding. *)
Lemma rtc_bcd_reencode_witness :
  rtc_bin2bcd 16 (rtc_bcd2bin 0x59) = Done 0x59.
Proof.
  apply (proj2 (rtc_bcd_reencode 16 0x59 ltac:(lia) ltac:(lia))).
  vm_compute. intros C. discriminate C.
Defined.

(** Setting 23:59:58 on Saturday 31 December 2016: the last byte is 16, the
    year in binary, where two BCD digits would be 0x16. *)
Lemma settime_register_image_witness :
  up_rtc_settime rtc_scenario_cfg (rtc_scenario_ext (Some rtc_scenario_tm)) 15
    (mk_timespec 1483228798 0) =
  Done (0, [I2C_SETFREQUENCY 400000;
            I2C_TRANSFER
              [mk_i2c_msg 0x68 0 [0x00; 0x58; 0x59; 0x23; 0x07; 0x31; 0x92; 16] 8]]).
Proof.
  exact (proj1 (settime_register_image rtc_scenario_cfg
                  (rtc_scenario_ext (Some rtc_scenario_tm)) 15
                  (mk_timespec 1483228798 0) rtc_scenario_tm
                  eq_refl
                  ltac:(simpl; lia) ltac:(simpl; lia) ltac:(simpl; lia)
                  ltac:(simpl; lia) ltac:(simpl; lia) ltac:(simpl; lia)
                  ltac:(simpl; lia) ltac:(lia))).
Defined.

(** ** On the USB descriptors *)

(** Two endpoint descriptors of 7 bytes behind the configuration
    descriptor, 23 bytes in all, and no interface descriptor. *)
Lemma configdesc_without_interface_witness :
  usbhost_configdesc 2 (usb_scenario_config 23 0x05 7) 23 = Done (- ENOENT).
Proof.
  apply (proj2 (configdesc_without_interface 2 (usb_scenario_config 23 0x05 7) 23 2)).
  - reflexivity.
  - apply plain_next; [vm_compute; split; [intros C; discriminate C|reflexivity]
                      |vm_compute; intros C; discriminate C
                      |vm_compute; split; [reflexivity|intros C; discriminate C]|].
    apply plain_next; [vm_compute; split; [intros C; discriminate C|reflexivity]
                      |vm_compute; intros C; discriminate C
                      |vm_compute; split; [reflexivity|intros C; discriminate C]|].
    apply plain_end. vm_compute. split; [intros C; discriminate C|reflexivity].
  - lia.
Defined.

(** Nothing but zero bytes behind the configuration descriptor. *)
Lemma configdesc_zero_length_stalls_witness :
  usbhost_configdesc 1000 (usb_scenario_config 20 0x05 0) 20 = OutOfFuel.
Proof.
  apply (configdesc_zero_length_stalls (usb_scenario_config 20 0x05 0) 20).
  - reflexivity.
  - right. vm_compute. intros C. discriminate C.
  - vm_compute. intros C. discriminate C.
  - reflexivity.
Defined.
